(** * Agent loop, heuristics pipeline and history retrieval: a shallow embedding

    The definitions follow the Python sources module by module:
    - [PyStr]: the [str] primitives the sources call ([strip], [startswith],
      [in], [split], [lower], slicing);
    - [Regex]: [re.search] for the one pattern the sources use, by
      derivatives, and the language of the pattern in words;
    - [Heuristics]: heuristics/base.py and heuristics/engine.py;
    - [Context]: the attributes and methods of the agent context that the
      loop uses;
    - [Decision]: modules/decision.py;
    - [Loop]: core/loop.py, with the external collaborators (perception,
      model, sandbox) as scripted oracles;
    - [Loader]: modules/heuristics_loader.py;
    - [History]: history_index/retriever.py;
    - [Scenarios]: scripted collaborators and sample inputs.
    The theory follows the definitions.

    Text is modelled by [string]: one [ascii] per code point, so the model
    covers Python strings whose code points are below 256. *)

From Stdlib Require Import String Ascii List ZArith QArith Lia Bool Arith.
From Stdlib Require Import Permutation Sorted Lqa DecimalString.
Import ListNotations.
Close Scope Q_scope.
Local Open Scope nat_scope.
Local Open Scope string_scope.

(* ================================================================== *)
(** * Python string primitives *)

Module PyStr.

(** The line feed, [chr(10)]. *)
Definition LF : ascii := ascii_of_nat 10.
Definition nl : string := String LF EmptyString.

(** [c.isspace()] for a code point below 256; [re]'s [\s] on [str]
    patterns and [str.strip()] use the same class. *)
Definition isspace (c : ascii) : bool :=
  let n := nat_of_ascii c in
  (((9 <=? n) && (n <=? 13)) || ((28 <=? n) && (n <=? 32))
   || (n =? 133) || (n =? 160))%nat.

(** [c.lower()] for a code point below 256. *)
Definition lower_char (c : ascii) : ascii :=
  let n := nat_of_ascii c in
  if (((65 <=? n) && (n <=? 90))
      || ((192 <=? n) && (n <=? 222) && negb (n =? 215)))%nat
  then ascii_of_nat (n + 32) else c.

Fixpoint lower (s : string) : string :=
  match s with
  | EmptyString => EmptyString
  | String c s' => String (lower_char c) (lower s')
  end.

Fixpoint lstrip_by (p : ascii -> bool) (s : string) : string :=
  match s with
  | EmptyString => EmptyString
  | String c s' => if p c then lstrip_by p s' else s
  end.

Fixpoint rstrip_by (p : ascii -> bool) (s : string) : string :=
  match s with
  | EmptyString => EmptyString
  | String c s' =>
      match rstrip_by p s' with
      | EmptyString => if p c then EmptyString else String c EmptyString
      | r => String c r
      end
  end.

(** [s.strip()] *)
Definition strip (s : string) : string := lstrip_by isspace (rstrip_by isspace s).

Fixpoint mem_char (c : ascii) (chars : string) : bool :=
  match chars with
  | EmptyString => false
  | String d chars' => Ascii.eqb c d || mem_char c chars'
  end.

(** [s.strip(chars)] *)
Definition strip_chars (chars s : string) : string :=
  lstrip_by (fun c => mem_char c chars) (rstrip_by (fun c => mem_char c chars) s).

(** [s.startswith(p)] *)
Fixpoint startswith (p s : string) : bool :=
  match p, s with
  | EmptyString, _ => true
  | String a p', String b s' => Ascii.eqb a b && startswith p' s'
  | String _ _, EmptyString => false
  end.

(** [sub in s] *)
Fixpoint contains (sub s : string) : bool :=
  startswith sub s ||
  match s with
  | EmptyString => false
  | String _ s' => contains sub s'
  end.

(** [s[n:]] for [n >= 0] *)
Fixpoint drop (n : nat) (s : string) : string :=
  match n, s with
  | O, _ => s
  | S n', String _ s' => drop n' s'
  | S _, EmptyString => EmptyString
  end.

(** [s.split(sep)] for a non-empty [sep]: a left-to-right scan that cuts at
    each non-overlapping occurrence.  [skip] counts the characters of a
    matched separator still to be passed over and [cur] is the piece being
    collected. *)
Fixpoint split_scan (sep : string) (skip : nat) (cur : string) (s : string)
  : list string :=
  match s with
  | EmptyString => [cur]
  | String c s' =>
      match skip with
      | S k => split_scan sep k cur s'
      | O =>
          if startswith sep s
          then cur :: split_scan sep (String.length sep - 1) EmptyString s'
          else split_scan sep 0 (cur ++ String c EmptyString) s'
      end
  end.

Definition split (sep s : string) : list string := split_scan sep 0 EmptyString s.

(** No character of [s] is in the class [p]. *)
Fixpoint no_char (p : ascii -> bool) (s : string) : bool :=
  match s with
  | EmptyString => true
  | String c s' => negb (p c) && no_char p s'
  end.

(** Python truthiness of a [str]. *)
Definition truthy (s : string) : bool := negb (String.eqb s EmptyString).

End PyStr.

(* ================================================================== *)
(** * Regular expressions: [re.search(pattern, text, re.MULTILINE)] *)

Module Regex.

Inductive regex : Type :=
| Empty                                   (* matches nothing *)
| Eps                                     (* matches the empty text *)
| Class (p : ascii -> bool)               (* one character of a class *)
| Cat (r1 r2 : regex)
| Alt (r1 r2 : regex)
| Star (r : regex).

Definition Lit (c : ascii) : regex := Class (Ascii.eqb c).
Definition Opt (r : regex) : regex := Alt r Eps.            (* r? *)
Definition Plus (r : regex) : regex := Cat r (Star r).      (* r+ *)
Definition Space : regex := Class PyStr.isspace.            (* \s *)

Fixpoint Word (w : string) : regex :=
  match w with
  | EmptyString => Eps
  | String c w' => Cat (Lit c) (Word w')
  end.

Fixpoint nullable (r : regex) : bool :=
  match r with
  | Empty => false
  | Eps => true
  | Class _ => false
  | Cat r1 r2 => nullable r1 && nullable r2
  | Alt r1 r2 => nullable r1 || nullable r2
  | Star _ => true
  end.

(** Brzozowski derivative: what is left of [r] after reading [c]. *)
Fixpoint deriv (c : ascii) (r : regex) : regex :=
  match r with
  | Empty => Empty
  | Eps => Empty
  | Class p => if p c then Eps else Empty
  | Cat r1 r2 =>
      if nullable r1
      then Alt (Cat (deriv c r1) r2) (deriv c r2)
      else Cat (deriv c r1) r2
  | Alt r1 r2 => Alt (deriv c r1) (deriv c r2)
  | Star r1 => Cat (deriv c r1) (Star r1)
  end.

(** [re.match(r, s) is not None]: some prefix of [s] is matched by [r]. *)
Fixpoint match_prefix (r : regex) (s : string) : bool :=
  nullable r ||
  match s with
  | EmptyString => false
  | String c s' => match_prefix (deriv c r) s'
  end.

(** [re.search("^" + r, s, re.MULTILINE) is not None]: under [re.MULTILINE]
    the anchor [^] holds at the start of the text and right after each line
    feed; [bol] tells whether it holds at the current position. *)
Fixpoint search_from (bol : bool) (r : regex) (s : string) : bool :=
  (bol && match_prefix r s) ||
  match s with
  | EmptyString => false
  | String c s' => search_from (Ascii.eqb c PyStr.LF) r s'
  end.

Definition search_multiline_bol (r : regex) (s : string) : bool :=
  search_from true r s.

(** The body of [r"^\s*(async\s+)?def\s+solve\s*\("] after the anchor. *)
Definition solve_signature : regex :=
  Cat (Star Space)
 (Cat (Opt (Cat (Word "async") (Plus Space)))
 (Cat (Word "def")
 (Cat (Plus Space)
 (Cat (Word "solve")
 (Cat (Star Space)
      (Lit "("%char)))))).

(** [re.search(r"^\s*(async\s+)?def\s+solve\s*\(", text, re.MULTILINE)] as
    a truth value; the flag is [re.MULTILINE] alone. *)
Definition is_solve_plan (text : string) : bool :=
  search_multiline_bol solve_signature text.

(** ** What the pattern says, in words *)

(** The language of a regular expression. *)
Inductive Matches : regex -> string -> Prop :=
| MEps : Matches Eps EmptyString
| MClass p c : p c = true -> Matches (Class p) (String c EmptyString)
| MCat r1 r2 s1 s2 :
    Matches r1 s1 -> Matches r2 s2 -> Matches (Cat r1 r2) (s1 ++ s2)
| MAltL r1 r2 s : Matches r1 s -> Matches (Alt r1 r2) s
| MAltR r1 r2 s : Matches r2 s -> Matches (Alt r1 r2) s
| MStarNil r : Matches (Star r) EmptyString
| MStarCons r s1 s2 :
    Matches r s1 -> Matches (Star r) s2 -> Matches (Star r) (s1 ++ s2).

Fixpoint all_space (s : string) : bool :=
  match s with
  | EmptyString => true
  | String c s' => PyStr.isspace c && all_space s'
  end.

(** A [solve] function signature: optional blanks, an optional [async]
    qualifier followed by at least one blank, [def], at least one blank,
    [solve], optional blanks and an opening parenthesis; all letters as
    written, in lower case. *)
Definition solve_signature_text (m : string) : Prop :=
  exists ws0 qualifier ws1 ws2,
    m = ws0 ++ qualifier ++ "def" ++ ws1 ++ "solve" ++ ws2 ++ "(" /\
    all_space ws0 = true /\
    (qualifier = EmptyString \/
     exists wsa, qualifier = "async" ++ wsa /\ all_space wsa = true
                 /\ wsa <> EmptyString) /\
    all_space ws1 = true /\ ws1 <> EmptyString /\
    all_space ws2 = true.

(** Where a line starts: at the start of the text or right after a line
    feed. *)
Definition at_line_start (before : string) : Prop :=
  before = EmptyString \/ exists p, before = p ++ PyStr.nl.

(** Some line of [text] starts with a [solve] signature. *)
Definition has_solve_signature (text : string) : Prop :=
  exists before m rest,
    text = before ++ m ++ rest /\ at_line_start before /\ solve_signature_text m.

(** The same with letter case ignored, as [re.IGNORECASE] would match
    (on code points below 256 the pattern's letters match exactly
    themselves and their capitals, and [lower] leaves blanks and line
    feeds alone). *)
Definition has_solve_signature_ignoring_case (text : string) : Prop :=
  has_solve_signature (PyStr.lower text).

End Regex.

(* ================================================================== *)
(** * heuristics/base.py and heuristics/engine.py *)

Module Heuristics.

(** Values stored in the [Dict[str, Any]] side channels. *)
Inductive pyval : Type :=
| VStr (s : string)
| VInt (z : Z)
| VBool (b : bool).

Record HeuristicContext : Type := mkContext {
  user_input : string;
  interim_result : option string;
  metadata : list (string * pyval)
}.

Record HeuristicResult : Type := mkResult {
  modified_input : option string;
  notes : option string;
  flags : list (string * pyval);
  severity : string
}.

(** What a call of [run] does: it returns a result, or raises an
    [Exception] whose [str()] is [msg]. *)
Inductive outcome : Type :=
| Returns (r : HeuristicResult)
| Raises (msg : string).

Record Heuristic : Type := mkHeuristic {
  id : string;
  description : string;
  enabled : bool;
  run : HeuristicContext -> outcome
}.

Record HeuristicEngine : Type := mkEngine {
  heuristics : list Heuristic
}.

(** [HeuristicEngine._enabled] *)
Definition _enabled (hs : list Heuristic) : list Heuristic :=
  filter enabled hs.

(** [HeuristicResult(notes=f"heuristic_error: {h.id}: {e}", severity="warn")] *)
Definition heuristic_error (h : Heuristic) (e : string) : HeuristicResult :=
  {| modified_input := None;
     notes := Some ("heuristic_error: " ++ id h ++ ": " ++ e);
     flags := [];
     severity := "warn" |}.

(** The [try: r = h.run(...) except Exception as e: r = ...] of [_run]. *)
Definition run_guarded (h : Heuristic) (c : HeuristicContext) : HeuristicResult :=
  match run h c with
  | Returns r => r
  | Raises e => heuristic_error h e
  end.

(** The [for] loop of [_run]: [current_input] and [results] are its two
    mutable locals. *)
Fixpoint run_units (ctx : HeuristicContext) (hs : list Heuristic)
    (current_input : string) (results : list HeuristicResult)
  : string * list HeuristicResult :=
  match hs with
  | [] => (current_input, results)
  | h :: hs' =>
      let r := run_guarded h {| user_input := current_input;
                                interim_result := interim_result ctx;
                                metadata := metadata ctx |} in
      let current_input' :=
        match modified_input r with
        | Some m => m
        | None => current_input
        end in
      run_units ctx hs' current_input' (results ++ [r])%list
  end.

(** The working text [_run] starts from. *)
Definition initial_input (ctx : HeuristicContext) : string :=
  match interim_result ctx with
  | Some i => i
  | None => user_input ctx
  end.

Definition _run (e : HeuristicEngine) (ctx : HeuristicContext)
  : string * list HeuristicResult :=
  run_units ctx (_enabled (heuristics e)) (initial_input ctx) [].

(** The working text once the first [k] enabled units have run. *)
Definition working_text (e : HeuristicEngine) (ctx : HeuristicContext) (k : nat)
  : string :=
  fst (run_units ctx (firstn k (_enabled (heuristics e))) (initial_input ctx) []).

(** The context [_run] builds for a unit when the working text is [text]. *)
Definition unit_context (ctx : HeuristicContext) (text : string) : HeuristicContext :=
  {| user_input := text; interim_result := interim_result ctx;
     metadata := metadata ctx |}.

Definition run_pre_query (e : HeuristicEngine) (user_input : string)
    (metadata : list (string * pyval)) : string * list HeuristicResult :=
  _run e {| user_input := user_input; interim_result := None;
            metadata := metadata |}.

Definition run_post_result (e : HeuristicEngine) (user_input interim_result : string)
    (metadata : list (string * pyval)) : string * list HeuristicResult :=
  _run e {| user_input := user_input; interim_result := Some interim_result;
            metadata := metadata |}.

End Heuristics.

(* ================================================================== *)
(** * The agent context the loop reads and writes *)

Module Context.

(** One [memory.add_tool_output(...)] call as the loop makes it. *)
Record ToolOutput : Type := mkToolOutput {
  tool_name : string;
  tool_args_plan : string;
  tool_result : string;
  success : bool;
  tags : list string
}.

Record Subtask : Type := mkSubtask {
  subtask_tool : string;
  subtask_status : string
}.

Record Strategy : Type := mkStrategy {
  max_steps : Z;
  max_lifelines_per_step : Z
}.

Record AgentContext : Type := mkAgentContext {
  user_input : string;
  session_id : string;
  strategy : Strategy;
  step : nat;
  user_input_override : option string;
  final_answer : option string;
  task_progress : list Subtask;
  memory : list ToolOutput
}.

Definition set_step (n : nat) (c : AgentContext) : AgentContext :=
  {| user_input := user_input c; session_id := session_id c;
     strategy := strategy c; step := n;
     user_input_override := user_input_override c;
     final_answer := final_answer c;
     task_progress := task_progress c; memory := memory c |}.

Definition set_user_input_override (o : string) (c : AgentContext) : AgentContext :=
  {| user_input := user_input c; session_id := session_id c;
     strategy := strategy c; step := step c;
     user_input_override := Some o;
     final_answer := final_answer c;
     task_progress := task_progress c; memory := memory c |}.

Definition set_final_answer (a : string) (c : AgentContext) : AgentContext :=
  {| user_input := user_input c; session_id := session_id c;
     strategy := strategy c; step := step c;
     user_input_override := user_input_override c;
     final_answer := Some a;
     task_progress := task_progress c; memory := memory c |}.

Definition set_task_progress (t : list Subtask) (c : AgentContext) : AgentContext :=
  {| user_input := user_input c; session_id := session_id c;
     strategy := strategy c; step := step c;
     user_input_override := user_input_override c;
     final_answer := final_answer c;
     task_progress := t; memory := memory c |}.

(** Modelled from the spec: the session memory (modules/memory.py) is not
    among the sources; the spec treats it as persistence plumbing, so the
    model keeps each [memory.add_tool_output] call, in call order. *)
Definition add_tool_output (o : ToolOutput) (c : AgentContext) : AgentContext :=
  {| user_input := user_input c; session_id := session_id c;
     strategy := strategy c; step := step c;
     user_input_override := user_input_override c;
     final_answer := final_answer c;
     task_progress := task_progress c; memory := (memory c ++ [o])%list |}.

(** Modelled from the spec: [AgentContext.log_subtask] (core/context.py) is
    not among the sources.  "Every execution attempt is logged as an
    auditable subtask record ... (append-only; never rolled back)": the
    call appends one record with the given status. *)
Definition log_subtask (tool status : string) (c : AgentContext) : AgentContext :=
  set_task_progress (task_progress c ++ [mkSubtask tool status])%list c.

Fixpoint update_first (tool status : string) (l : list Subtask) : list Subtask :=
  match l with
  | [] => []
  | t :: l' =>
      if String.eqb (subtask_tool t) tool
      then mkSubtask tool status :: l'
      else t :: update_first tool status l'
  end.

(** Modelled from the spec: [AgentContext.update_subtask_status]
    (core/context.py) is not among the sources.  A record goes
    "pending -> success|failure": the call rewrites the status of the
    latest record of the tool and leaves every other record as it is. *)
Definition update_subtask_status (tool status : string) (c : AgentContext)
  : AgentContext :=
  set_task_progress (rev (update_first tool status (rev (task_progress c)))) c.

End Context.

(* ================================================================== *)
(** * modules/decision.py *)

Module Decision.

(** The arguments of one [generate_plan] call. *)
Record PlanRequest : Type := mkPlanRequest {
  user_input : string;
  memory_items : list Context.ToolOutput;
  tool_descriptions : string;
  prompt_path : string;
  step_num : nat;
  max_steps : Z
}.

(** The fence removal: [raw.strip("`").strip()] and the optional
    [python] tag. *)
Definition unfence (raw : string) : string :=
  if PyStr.startswith "```" raw then
    let raw1 := PyStr.strip (PyStr.strip_chars "`" raw) in
    if PyStr.startswith "python" (PyStr.lower raw1)
    then PyStr.strip (PyStr.drop (String.length "python") raw1)
    else raw1
  else raw.

(** [generate_plan].  [generate_text] stands for the prompt construction
    (template, same-session memory, few-shot history) followed by
    [model.generate_text]: it answers with the model's text, or with [None]
    when the call raises inside the [try] block. *)
Definition generate_plan (generate_text : PlanRequest -> option string)
    (req : PlanRequest) : string :=
  match generate_text req with
  | Some text =>
      let raw := unfence (PyStr.strip text) in
      if Regex.is_solve_plan raw
      then raw
      else "FINAL_ANSWER: [Could not generate valid solve()]"
  | None => "FINAL_ANSWER: [unknown]"
  end.

End Decision.

(* ================================================================== *)
(** * core/loop.py *)

Module Loop.

Import Context.

(** What [run_python_sandbox] hands back: a [str], or some other object
    with its [str()] rendering. *)
Inductive SandboxResult : Type :=
| RStr (s : string)
| RObj (repr : string).

(** The external collaborators.  Each is asked with the number of calls
    made to it so far in the run, so a scripted collaborator may answer
    every call differently. *)
Record Collaborators : Type := mkCollaborators {
  (** [run_perception] followed by [mcp.get_tools_from_servers] *)
  run_perception : nat -> string -> list string;
  summarize_tools : list string -> string;
  (** [select_decision_prompt_path] for the modes of the profile *)
  select_decision_prompt_path : string;
  generate_text : nat -> Decision.PlanRequest -> option string;
  run_python_sandbox : nat -> string -> SandboxResult
}.

Record Calls : Type := mkCalls {
  perception_calls : nat;
  plan_calls : nat;
  sandbox_calls : nat
}.

Definition State : Type := (AgentContext * Calls)%type.

(** How one pass through the body of the [while] loop ends. *)
Inductive Control : Type :=
| Return (result : string)
| Break
| Continue.

(** [getattr(self.context, "user_input_override", None)] as a truth value. *)
Definition override_active (c : AgentContext) : bool :=
  match user_input_override c with
  | Some o => PyStr.truthy o
  | None => false
  end.

(** [user_input_override or self.context.user_input] *)
Definition selected_input (c : AgentContext) : string :=
  match user_input_override c with
  | Some o => if PyStr.truthy o then o else user_input c
  | None => user_input c
  end.

Definition step_metadata (c : AgentContext) (step : nat)
  : list (string * Heuristics.pyval) :=
  [("session_id", Heuristics.VStr (session_id c));
   ("step", Heuristics.VInt (Z.of_nat step))].

Definition FINAL_ANSWER : string := "FINAL_ANSWER:".
Definition FURTHER_PROCESSING_REQUIRED : string := "FURTHER_PROCESSING_REQUIRED:".
Definition SANDBOX_ERROR : string := "[sandbox error:".

(** [result.split("FURTHER_PROCESSING_REQUIRED:")[1].strip()] *)
Definition forwarded_content (result : string) : string :=
  PyStr.strip (nth 1 (PyStr.split FURTHER_PROCESSING_REQUIRED result) EmptyString).

(** The f-string stored in [user_input_override]. *)
Definition forward_message (task forwarded_input : string) : string :=
  "Original user task: " ++ task ++ PyStr.nl ++ PyStr.nl ++
  "Your last tool produced this result:" ++ PyStr.nl ++ PyStr.nl ++
  forwarded_input ++ PyStr.nl ++ PyStr.nl ++
  "If this fully answers the task, return:" ++ PyStr.nl ++
  "FINAL_ANSWER: your answer" ++ PyStr.nl ++ PyStr.nl ++
  "Otherwise, return the next FUNCTION_CALL.".

Definition sandbox_output (plan result : string) (ok : bool) : ToolOutput :=
  {| tool_name := "solve_sandbox"; tool_args_plan := plan;
     tool_result := result; success := ok; tags := ["sandbox"] |}.

(** Lines 136-154: the status update, the memory record and the decision
    to return or to retry, shared by the branches that fall through. *)
Definition finish_attempt (plan result : string) (ok : bool)
    (lifelines_left : Z) (c : AgentContext) : Control * Z * AgentContext :=
  let c1 := update_subtask_status "solve_sandbox"
              (if ok then "success" else "failure") c in
  let c2 := add_tool_output (sandbox_output plan result ok) c1 in
  if ok && negb (PyStr.contains FURTHER_PROCESSING_REQUIRED result)
  then (Return (match final_answer c2 with Some a => a | None => EmptyString end),
        lifelines_left, c2)
  else (Continue, (lifelines_left - 1)%Z, c2).

Definition after_sandbox (k : Calls) : Calls :=
  {| perception_calls := perception_calls k;
     plan_calls := plan_calls k;
     sandbox_calls := S (sandbox_calls k) |}.

(** Lines 88-154: the execution of a plan that carries a [solve]
    signature. *)
Definition execute (E : Collaborators) (engine : Heuristics.HeuristicEngine)
    (step : nat) (plan : string) (lifelines_left : Z) (st : State)
  : Control * Z * State :=
  let '(c, k) := st in
  let c0 := log_subtask "solve_sandbox" "pending" c in
  let k' := after_sandbox k in
  match run_python_sandbox E (sandbox_calls k) plan with
  | RStr raw =>
      let result := PyStr.strip raw in
      if PyStr.startswith FINAL_ANSWER result then
        let c1 := set_final_answer result c0 in
        let c2 := update_subtask_status "solve_sandbox" "success" c1 in
        let c3 := add_tool_output (sandbox_output plan result true) c2 in
        (Return result, lifelines_left, (c3, k'))
      else if PyStr.startswith FURTHER_PROCESSING_REQUIRED result then
        let content := forwarded_content result in
        let forwarded_input :=
          fst (Heuristics.run_post_result engine (user_input c0) content
                 (step_metadata c0 step)) in
        let c1 := set_user_input_override
                    (forward_message (user_input c0) forwarded_input) c0 in
        (Break, lifelines_left, (c1, k'))
      else if PyStr.startswith SANDBOX_ERROR result then
        let c1 := set_final_answer "FINAL_ANSWER: [Execution failed]" c0 in
        let '(ctl, l, c2) := finish_attempt plan result false lifelines_left c1 in
        (ctl, l, (c2, k'))
      else
        let c1 := set_final_answer ("FINAL_ANSWER: " ++ result) c0 in
        let '(ctl, l, c2) := finish_attempt plan result true lifelines_left c1 in
        (ctl, l, (c2, k'))
  | RObj repr =>
      let c1 := set_final_answer ("FINAL_ANSWER: " ++ repr) c0 in
      let '(ctl, l, c2) := finish_attempt plan repr false lifelines_left c1 in
      (ctl, l, (c2, k'))
  end.

(** The request the loop passes to [generate_plan]. *)
Definition plan_request (E : Collaborators) (c : AgentContext)
    (tools : list string) (step : nat) : Decision.PlanRequest :=
  {| Decision.user_input := selected_input c;
     Decision.memory_items := memory c;
     Decision.tool_descriptions := summarize_tools E tools;
     Decision.prompt_path :=
       if override_active c
       then "prompts/decision_prompt_summarize.txt"
       else select_decision_prompt_path E;
     Decision.step_num := step + 1;
     Decision.max_steps := max_steps (strategy c) |}.

Definition after_perception (k : Calls) : Calls :=
  {| perception_calls := S (perception_calls k);
     plan_calls := plan_calls k;
     sandbox_calls := sandbox_calls k |}.

Definition after_planning (k : Calls) : Calls :=
  {| perception_calls := perception_calls k;
     plan_calls := S (plan_calls k);
     sandbox_calls := sandbox_calls k |}.

(** Lines 42-54: the pre-query heuristics, perception and the tools of
    the selected servers. *)
Definition perceive (E : Collaborators) (engine : Heuristics.HeuristicEngine)
    (step : nat) (st : State) : list string :=
  let '(c, k) := st in
  let current_input :=
    fst (Heuristics.run_pre_query engine (selected_input c) (step_metadata c step)) in
  run_perception E (perception_calls k) current_input.

(** Lines 60-81: the plan text [generate_plan] returns. *)
Definition make_plan (E : Collaborators) (step : nat) (st : State)
    (selected_tools : list string) : string :=
  let '(c, k) := st in
  Decision.generate_plan (generate_text E (plan_calls k))
    (plan_request E c selected_tools step).

(** Lines 41-158: one pass through the body of [while lifelines_left >= 0]. *)
Definition attempt (E : Collaborators) (engine : Heuristics.HeuristicEngine)
    (step : nat) (lifelines_left : Z) (st : State) : Control * Z * State :=
  let '(c, k) := st in
  match perceive E engine step st with
  | [] => (Break, lifelines_left, (c, after_perception k))
  | (_ :: _) as selected_tools =>
      let plan := make_plan E step st selected_tools in
      let k2 := after_planning (after_perception k) in
      if Regex.is_solve_plan plan
      then execute E engine step plan lifelines_left (c, k2)
      else (Continue, (lifelines_left - 1)%Z, (c, k2))
  end.

(** [while lifelines_left >= 0: ...].  [fuel] bounds the number of passes;
    [lifeline_fuel] below is always enough.  The result is the value
    returned from inside the loop, if any. *)
Fixpoint lifeline_loop (fuel : nat) (E : Collaborators)
    (engine : Heuristics.HeuristicEngine) (step : nat) (lifelines_left : Z)
    (st : State) : option string * State :=
  match fuel with
  | O => (None, st)
  | S fuel' =>
      if (0 <=? lifelines_left)%Z then
        match attempt E engine step lifelines_left st with
        | (Return r, _, st') => (Some r, st')
        | (Break, _, st') => (None, st')
        | (Continue, l', st') => lifeline_loop fuel' E engine step l' st'
        end
      else (None, st)
  end.

Definition lifeline_fuel (lifelines : Z) : nat := Z.to_nat (lifelines + 1).

(** One iteration of [for step in range(max_steps)]. *)
Definition run_step (E : Collaborators) (engine : Heuristics.HeuristicEngine)
    (step : nat) (st : State) : option string * State :=
  let '(c, k) := st in
  let c1 := set_step step c in
  let lifelines_left := max_lifelines_per_step (strategy c1) in
  lifeline_loop (lifeline_fuel lifelines_left) E engine step lifelines_left (c1, k).

Definition MAX_STEPS_REACHED : string := "FINAL_ANSWER: [Max steps reached]".

Fixpoint step_loop (E : Collaborators) (engine : Heuristics.HeuristicEngine)
    (steps : list nat) (st : State) : string * State :=
  match steps with
  | [] =>
      let '(c, k) := st in
      (MAX_STEPS_REACHED, (set_final_answer MAX_STEPS_REACHED c, k))
  | step :: steps' =>
      match run_step E engine step st with
      | (Some r, st') => (r, st')
      | (None, st') => step_loop E engine steps' st'
      end
  end.

Definition no_calls : Calls :=
  {| perception_calls := 0; plan_calls := 0; sandbox_calls := 0 |}.

(** [AgentLoop.run]: the ["result"] of the returned dictionary (its
    ["status"] is ["done"] on every path) and the final state. *)
Definition run (E : Collaborators) (engine : Heuristics.HeuristicEngine)
    (c : AgentContext) : string * State :=
  step_loop E engine (seq 0 (Z.to_nat (max_steps (strategy c)))) (c, no_calls).

End Loop.

(* ================================================================== *)
(** * modules/heuristics_loader.py *)

Module Loader.

(** A Python call: its value, or the exception it raises. *)
Inductive result (A : Type) : Type :=
| Ok (a : A)
| Raise (exn : string).
Arguments Ok {A} a.
Arguments Raise {A} exn.

#[local] Set Warnings "-register-all".

(** What [yaml.safe_load] builds.  A mapping is the [dict] already built:
    string keys, each key once. *)
Inductive yaml : Type :=
| YNull
| YBool (b : bool)
| YInt (z : Z)
| YFloat (q : Q)
| YStr (s : string)
| YSeq (items : list yaml)
| YMap (entries : list (string * yaml)).

(** Python truthiness, the [not data] of the source. *)
Definition truthy (v : yaml) : bool :=
  match v with
  | YNull => false
  | YBool b => b
  | YInt z => negb (z =? 0)%Z
  | YFloat q => negb (Qeq_bool q 0)
  | YStr s => PyStr.truthy s
  | YSeq items => match items with [] => false | _ :: _ => true end
  | YMap entries => match entries with [] => false | _ :: _ => true end
  end.

Fixpoint lookup (key : string) (entries : list (string * yaml)) : option yaml :=
  match entries with
  | [] => None
  | (k, v) :: entries' => if String.eqb k key then Some v else lookup key entries'
  end.

(** [v.get(key, default)]: only a [dict] has the method. *)
Definition get (v : yaml) (key : string) (default : yaml) : result yaml :=
  match v with
  | YMap entries =>
      Ok (match lookup key entries with Some x => x | None => default end)
  | _ => Raise "AttributeError"
  end.

Inductive HeuristicClass : Type :=
| InvalidFileDetector
| InputValidationSystem
| BannedWordsFilter
| QueryComplexityAnalyzer
| ToolUsageOptimizer
| ErrorPatternDetector
| ResponseFormatValidator
| HistoricalPatternRecognizer
| TimeoutManager
| QueryIntentMatcher.

Definition ID_TO_CLASS : list (string * HeuristicClass) :=
  [("invalid_file_detector", InvalidFileDetector);
   ("input_validation_system", InputValidationSystem);
   ("banned_words_filter", BannedWordsFilter);
   ("query_complexity_analyzer", QueryComplexityAnalyzer);
   ("tool_usage_optimizer", ToolUsageOptimizer);
   ("error_pattern_detector", ErrorPatternDetector);
   ("response_format_validator", ResponseFormatValidator);
   ("historical_pattern_recognizer", HistoricalPatternRecognizer);
   ("timeout_manager", TimeoutManager);
   ("query_intent_matcher", QueryIntentMatcher)].

Fixpoint class_of (hid : string) (table : list (string * HeuristicClass))
  : option HeuristicClass :=
  match table with
  | [] => None
  | (k, cls) :: table' => if String.eqb k hid then Some cls else class_of hid table'
  end.

(** [ID_TO_CLASS.get(hid)]: a list or a mapping is unhashable, any other
    value that is not one of the ten names finds nothing. *)
Definition ID_TO_CLASS_get (hid : yaml) : result (option HeuristicClass) :=
  match hid with
  | YStr s => Ok (class_of s ID_TO_CLASS)
  | YSeq _ | YMap _ => Raise "TypeError"
  | _ => Ok None
  end.

(** A constructed unit: its class and the parameters that override the
    class defaults. *)
Record Unit : Type := mkUnit {
  cls : HeuristicClass;
  params : list (string * yaml)
}.

(** [default_heuristics()] of heuristics/impl.py *)
Definition default_heuristics : list Unit :=
  map (fun c => mkUnit c [])
    [InvalidFileDetector; InputValidationSystem; BannedWordsFilter;
     QueryComplexityAnalyzer; ToolUsageOptimizer; ErrorPatternDetector;
     ResponseFormatValidator; HistoricalPatternRecognizer; TimeoutManager;
     QueryIntentMatcher].

(** [{k: v for k, v in section.items() if k not in {"id", "enabled"}}] *)
Definition override_params (entries : list (string * yaml)) : list (string * yaml) :=
  filter (fun kv => negb (String.eqb (fst kv) "id" || String.eqb (fst kv) "enabled"))
         entries.

(** [pre + post] followed by [for section in ...]: two lists concatenate;
    two strings concatenate and iterate by character; every other pair
    fails, at the sum or at the iteration. *)
Definition sections_of (pre post : yaml) : result (list yaml) :=
  match pre, post with
  | YSeq l1, YSeq l2 => Ok (l1 ++ l2)%list
  | YStr s1, YStr s2 =>
      Ok (map (fun ch => YStr (String ch EmptyString))
              (list_ascii_of_string (s1 ++ s2)))
  | _, _ => Raise "TypeError"
  end.

(** An entry the loop passes over without building a unit: a mapping
    that is disabled, or whose [id] names none of the ten classes. *)
Definition entry_skipped (section : yaml) : bool :=
  match section with
  | YMap entries =>
      negb (truthy (match lookup "enabled" entries with
                    | Some en => en
                    | None => YBool true
                    end))
      || match lookup "id" entries with
         | Some (YStr s) =>
             match class_of s ID_TO_CLASS with
             | Some _ => false
             | None => true
             end
         | Some (YSeq _) | Some (YMap _) => false
         | _ => true
         end
  | _ => false
  end.

Section Load.

(** Whether the class constructor (pydantic validation) accepts the
    override parameters. *)
Variable accepts : HeuristicClass -> list (string * yaml) -> bool.

(** The body of the [for section in (pre + post)] loop; [heuristics] is
    the list built so far. *)
Fixpoint collect (sections : list yaml) (heuristics : list Unit)
  : result (list Unit) :=
  match sections with
  | [] => Ok heuristics
  | section :: sections' =>
      match get section "enabled" (YBool true) with
      | Raise e => Raise e
      | Ok en =>
          if negb (truthy en) then collect sections' heuristics
          else
            match get section "id" YNull with
            | Raise e => Raise e
            | Ok hid =>
                match ID_TO_CLASS_get hid with
                | Raise e => Raise e
                | Ok None => collect sections' heuristics
                | Ok (Some c) =>
                    let ps := match section with
                              | YMap entries => override_params entries
                              | _ => []
                              end in
                    if accepts c ps
                    then collect sections' (heuristics ++ [mkUnit c ps])%list
                    else Raise "ValidationError"
                end
            end
      end
  end.

(** [load_engine_from_config]: [file] is what [open] and [yaml.safe_load]
    produce, [None] when either raises.  The value is the [heuristics] list
    of the engine returned. *)
Definition load_engine_from_config (file : option yaml) : result (list Unit) :=
  match file with
  | None => Ok default_heuristics
  | Some data =>
      if negb (truthy data) then Ok []
      else
        match get data "enabled" (YBool true) with
        | Raise e => Raise e
        | Ok en =>
            if negb (truthy en) then Ok []
            else
              match get data "pre_query" (YSeq []), get data "post_result" (YSeq []) with
              | Ok pre, Ok post =>
                  match sections_of pre post with
                  | Raise e => Raise e
                  | Ok sections =>
                      match collect sections [] with
                      | Raise e => Raise e
                      | Ok [] => Ok default_heuristics
                      | Ok (u :: us) => Ok (u :: us)
                      end
                  end
              | Raise e, _ => Raise e
              | _, Raise e => Raise e
              end
        end
  end.

End Load.

End Loader.

(* ================================================================== *)
(** * history_index/retriever.py *)

Module History.

(** A row of the index or an embedded query.  The entries are the float32
    values as exact rationals. *)
Definition vec : Type := list Q.

(** [np.argsort] with its default [kind]: NumPy documents the default
    sort as not stable, so the interface promises a permutation of the
    positions that lists the values in non-decreasing order, and nothing
    about the order of equal values. *)
Class ArgSort : Type := {
  argsort : list Q -> list nat;
  argsort_perm : forall v, Permutation (argsort v) (seq 0 (length v));
  argsort_sorted : forall v,
    StronglySorted (fun i j => (nth i v 0 <= nth j v 0)%Q) (argsort v)
}.

(** A loaded FAISS index: [search q k] gives the label row [idxs[0]], or
    [None] when the library raises. *)
Record FaissIndex : Type := mkFaissIndex {
  search : vec -> Z -> option (list Z)
}.

Record HistoryRetriever : Type := mkRetriever {
  X : list vec;
  meta : list string;
  faiss_idx : option FaissIndex
}.

(** [a[:k]] *)
Definition slice_to {A : Type} (k : Z) (l : list A) : list A :=
  if (0 <=? k)%Z then firstn (Z.to_nat k) l
  else firstn (length l - Z.to_nat (- k)) l.

(** [a[i]] for an integer [i]: negative positions count from the end and a
    position out of range raises [IndexError] ([None]). *)
Definition index {A : Type} (l : list A) (i : Z) : option A :=
  if ((0 <=? i) && (i <? Z.of_nat (length l)))%Z then nth_error l (Z.to_nat i)
  else if ((- Z.of_nat (length l) <=? i) && (i <? 0))%Z
       then nth_error l (Z.to_nat (Z.of_nat (length l) + i))
       else None.

Section Retrieve.

Context {sorter : ArgSort}.

(** A deserialized [{query, answer}] record. *)
Variable record : Type.
(** [simple_embed] of history_index/indexer.py *)
Variable simple_embed : string -> vec.
(** The inner product of a row with the query, as [X @ q.T] computes it. *)
Variable inner : vec -> vec -> Q.
(** [json.loads], [None] when it raises. *)
Variable json_loads : string -> option record.

(** [sims = self.X @ q.T] *)
Definition sims (r : HistoryRetriever) (q : vec) : list Q :=
  map (fun row => inner row q) (X r).

(** [np.argsort(-sims.ravel())[:top_k]] *)
Definition brute_force_idxs (r : HistoryRetriever) (q : vec) (top_k : Z) : list nat :=
  slice_to top_k (argsort (map Qopp (sims r q))).

(** The row positions the loop over [idxs] visits. *)
Definition ranked_idxs (r : HistoryRetriever) (query : string) (top_k : Z)
  : option (list Z) :=
  let q := simple_embed query in
  match faiss_idx r with
  | Some f => search f q (Z.min top_k (Z.of_nat (length (X r))))
  | None => Some (map Z.of_nat (brute_force_idxs r q top_k))
  end.

(** The body of [for i in idxs]: a row whose metadata cannot be read or
    parsed is skipped. *)
Fixpoint collect (metas : list string) (idxs : list Z) : list record :=
  match idxs with
  | [] => []
  | i :: idxs' =>
      match index metas i with
      | Some m =>
          match json_loads m with
          | Some rec => rec :: collect metas idxs'
          | None => collect metas idxs'
          end
      | None => collect metas idxs'
      end
  end.

(** [HistoryRetriever.retrieve]; [None] when the call raises. *)
Definition retrieve (r : HistoryRetriever) (query : string) (top_k : Z)
  : option (list record) :=
  match X r with
  | [] => Some []
  | _ :: _ =>
      match ranked_idxs r query top_k with
      | Some idxs => Some (collect (meta r) idxs)
      | None => None
      end
  end.

End Retrieve.

(** The exact inner product, for the sample indexes. *)
Fixpoint dot (u v : vec) : Q :=
  match u, v with
  | x :: u', y :: v' => (x * y + dot u' v')%Q
  | _, _ => 0%Q
  end.

(** Two sorts that meet the [ArgSort] interface: insertion sorts of the
    positions that place equal values by ascending, respectively
    descending, position. *)
Fixpoint insert_by (le : nat -> nat -> bool) (i : nat) (l : list nat) : list nat :=
  match l with
  | [] => [i]
  | j :: l' => if le i j then i :: l else j :: insert_by le i l'
  end.

Definition isort_by (le : nat -> nat -> bool) (l : list nat) : list nat :=
  fold_right (insert_by le) [] l.

Definition value_le (v : list Q) (i j : nat) : bool :=
  Qle_bool (nth i v 0%Q) (nth j v 0%Q).

(** [i] goes before [j]: smaller value, or equal value and smaller position. *)
Definition le_ascending_ties (v : list Q) (i j : nat) : bool :=
  if Qeq_bool (nth i v 0%Q) (nth j v 0%Q) then (i <=? j)%nat else value_le v i j.


Definition argsort_stable (v : list Q) : list nat :=
  isort_by (le_ascending_ties v) (seq 0 (length v)).


End History.

(* ================================================================== *)
(** * Scripted collaborators and sample inputs *)

Module Scenarios.

Import Context Loop.

Definition solve_plan : string :=
  "async def solve():" ++ PyStr.nl ++ "    return await mcp.call_tool('search', {})".

Definition task (steps lifelines : Z) : AgentContext :=
  {| user_input := "What is 6 times 7?";
     session_id := "session-1";
     strategy := {| max_steps := steps; max_lifelines_per_step := lifelines |};
     step := 0;
     user_input_override := None;
     final_answer := None;
     task_progress := [];
     memory := [] |}.

(** A planner that always writes [solve_plan] and a sandbox that answers
    with the script [outputs], call by call, then with [last]. *)
Definition scripted (outputs : list SandboxResult) (last : SandboxResult)
  : Collaborators :=
  {| run_perception := fun _ _ => ["search"];
     summarize_tools := String.concat ", ";
     select_decision_prompt_path := "prompts/decision_prompt_conservative.txt";
     generate_text := fun _ _ => Some solve_plan;
     run_python_sandbox := fun n _ => nth n outputs last |}.

(** The model answers every call with [reply] ([None]: the call raises);
    the sandbox, if it were called, would produce a final answer. *)
Definition planner (reply : option string) : Collaborators :=
  {| run_perception := fun _ _ => ["search"];
     summarize_tools := String.concat ", ";
     select_decision_prompt_path := "prompts/decision_prompt_conservative.txt";
     generate_text := fun _ _ => reply;
     run_python_sandbox := fun _ _ => RStr "FINAL_ANSWER: 42" |}.

Definition no_heuristics : Heuristics.HeuristicEngine :=
  {| Heuristics.heuristics := [] |}.

(** A unit that rewrites the text, one that always raises, one that
    reports the length of the text it sees, and a disabled one. *)
Definition shout : Heuristics.Heuristic :=
  {| Heuristics.id := "shout"; Heuristics.description := "append a mark";
     Heuristics.enabled := true;
     Heuristics.run := fun ctx =>
       Heuristics.Returns
         {| Heuristics.modified_input := Some (Heuristics.user_input ctx ++ "!");
            Heuristics.notes := None; Heuristics.flags := [];
            Heuristics.severity := "info" |} |}.

Definition broken : Heuristics.Heuristic :=
  {| Heuristics.id := "broken"; Heuristics.description := "always raises";
     Heuristics.enabled := true;
     Heuristics.run := fun _ => Heuristics.Raises "boom" |}.

Definition measure : Heuristics.Heuristic :=
  {| Heuristics.id := "measure"; Heuristics.description := "length of the text";
     Heuristics.enabled := true;
     Heuristics.run := fun ctx =>
       Heuristics.Returns
         {| Heuristics.modified_input := None; Heuristics.notes := None;
            Heuristics.flags :=
              [("length", Heuristics.VInt
                            (Z.of_nat (String.length (Heuristics.user_input ctx))))];
            Heuristics.severity := "info" |} |}.

Definition asleep : Heuristics.Heuristic :=
  {| Heuristics.id := "asleep"; Heuristics.description := "disabled";
     Heuristics.enabled := false;
     Heuristics.run := fun _ => Heuristics.Raises "never called" |}.

Definition sample_engine : Heuristics.HeuristicEngine :=
  {| Heuristics.heuristics := [shout; asleep; broken; measure] |}.



Definition accept_all : Loader.HeuristicClass -> list (string * Loader.yaml) -> bool :=
  fun _ _ => true.





End Scenarios.

(* ================================================================== *)
(** * More Python text primitives *)

Module PyText.

(** Every character of [s] is in the class [p]. *)
Fixpoint all_char (p : ascii -> bool) (s : string) : bool :=
  match s with
  | EmptyString => true
  | String c s' => p c && all_char p s'
  end.

(** [sep.join(parts)] *)
Fixpoint join (sep : string) (parts : list string) : string :=
  match parts with
  | [] => EmptyString
  | [x] => x
  | x :: rest => x ++ sep ++ join sep rest
  end.

End PyText.

(* ================================================================== *)
(** * heuristics/impl.py: the ten built-in units *)

Module Impl.

(** A value of the [flags] dictionary of a built-in unit. *)
Inductive flag : Type :=
| FBool (b : bool)
| FInt (n : nat)
| FStr (s : string)
| FStrs (l : list string).

(** A [HeuristicResult] as the built-in units fill it. *)
Record Result : Type := mkResult {
  modified_input : option string;
  notes : option string;
  flags : list (string * flag);
  severity : string
}.

(** [HeuristicResult()] *)
Definition unchanged : Result :=
  {| modified_input := None; notes := None; flags := []; severity := "none" |}.

Definition BACKSLASH : ascii := ascii_of_nat 92.

(** [str(n)] for a non-negative [int] *)
Definition str_of_nat (n : nat) : string := NilEmpty.string_of_uint (Nat.to_uint n).

(** [s[:n]] for [n >= 0] *)
Fixpoint take (n : nat) (s : string) : string :=
  match n, s with
  | S n', String c s' => String c (take n' s')
  | _, _ => EmptyString
  end.

(** [s.endswith(p)] for a one-character [p] *)
Fixpoint ends_with_char (c : ascii) (s : string) : bool :=
  match s with
  | EmptyString => false
  | String d EmptyString => Ascii.eqb c d
  | String _ s' => ends_with_char c s'
  end.

(** ** InvalidFileDetector *)

(** The class [[A-Za-z]] *)
Definition ascii_letter (c : ascii) : bool :=
  let n := nat_of_ascii c in
  (((65 <=? n) && (n <=? 90)) || ((97 <=? n) && (n <=? 122)))%nat.

(** [re.search(r"([A-Za-z]):\\", s)]: group 1 of the leftmost match. *)
Fixpoint first_drive_letter (s : string) : option ascii :=
  match s with
  | EmptyString => None
  | String a rest =>
      match rest with
      | String b (String c _) =>
          if ascii_letter a && Ascii.eqb b ":" && Ascii.eqb c BACKSLASH
          then Some a
          else first_drive_letter rest
      | _ => first_drive_letter rest
      end
  end.

Definition invalid_file_detector (ctx : Heuristics.HeuristicContext) : Result :=
  match first_drive_letter (Heuristics.user_input ctx) with
  | Some letter =>
      if negb (PyStr.mem_char (PyStr.lower_char letter) "cdefghijklmno")
      then {| modified_input := None;
              notes := Some "Suspicious drive letter detected in query";
              flags := [("suspicious_path", FBool true)];
              severity := "info" |}
      else unchanged
  | None => unchanged
  end.

(** ** InputValidationSystem, with its fields [min_len] and [max_len]
    (validated on construction: [min_len >= 0], [max_len >= 1]) *)

Definition input_validation_system (min_len max_len : nat)
    (ctx : Heuristics.HeuristicContext) : Result :=
  let text := Heuristics.user_input ctx in
  if (String.length text <? min_len)%nat then
    {| modified_input := None; notes := Some "input_too_short"; flags := [];
       severity := "error" |}
  else if (max_len <? String.length text)%nat then
    {| modified_input := Some (take max_len text);
       notes := Some "input_trimmed";
       flags := [("original_length", FInt (String.length text))];
       severity := "warn" |}
  else unchanged.

(** ** BannedWordsFilter, with its field [banned] *)

(** Two characters match under [re.IGNORECASE] (code points below 256). *)
Definition eq_ci (a b : ascii) : bool :=
  Ascii.eqb (PyStr.lower_char a) (PyStr.lower_char b).

(** The pattern [re.escape(w)] matches at the start of [s]. *)
Fixpoint startswith_ci (w s : string) : bool :=
  match w, s with
  | EmptyString, _ => true
  | String a w', String b s' => eq_ci a b && startswith_ci w' s'
  | String _ _, EmptyString => false
  end.

(** [pattern.search(s)] as a truth value *)
Fixpoint contains_ci (w s : string) : bool :=
  startswith_ci w s ||
  match s with
  | EmptyString => false
  | String _ s' => contains_ci w s'
  end.

(** [pattern.sub(repl, s)]: the leftmost non-overlapping matches are
    replaced; [skip] counts the characters of a match still to be passed
    over.  The empty pattern matches before every character and at the
    end. *)
Fixpoint sub_scan (w repl : string) (skip : nat) (s : string) : string :=
  match s with
  | EmptyString =>
      match skip, w with
      | O, EmptyString => repl
      | _, _ => EmptyString
      end
  | String c s' =>
      match skip with
      | S k => sub_scan w repl k s'
      | O =>
          if startswith_ci w s then
            match w with
            | EmptyString => repl ++ String c (sub_scan w repl 0 s')
            | String _ w' => repl ++ sub_scan w repl (String.length w') s'
            end
          else String c (sub_scan w repl 0 s')
      end
  end.

Definition REDACTED : string := "[REDACTED]".

Definition sub_ci (w s : string) : string := sub_scan w REDACTED 0 s.

(** The [for w in self.banned] loop: the search is made in the original
    [text], the substitution in [masked]. *)
Fixpoint mask_words (banned : list string) (text masked : string)
    (found : list string) : string * list string :=
  match banned with
  | [] => (masked, found)
  | w :: banned' =>
      if contains_ci w text
      then mask_words banned' text (sub_ci w masked) (found ++ [w])%list
      else mask_words banned' text masked found
  end.

Definition default_banned : list string := ["password"; "apikey"; "token"].

(** No character of [u] matches [b] when letter case is ignored. *)
Definition unlike (b : ascii) (u : string) : bool :=
  PyStr.no_char (fun x => eq_ci x b) u.

(** A word the mask cannot bring back: it is not empty, holds no square
    bracket and does not occur in the word REDACTED. *)
Definition maskable (w : string) : bool :=
  PyStr.truthy w && unlike "[" w && unlike "]" w
  && negb (contains_ci w "REDACTED").

Section Banned.

(** [repr] of a list of [str], for the f-string of the notes. *)
Variable repr_strs : list string -> string.

Definition banned_words_filter (banned : list string)
    (ctx : Heuristics.HeuristicContext) : Result :=
  let text := Heuristics.user_input ctx in
  let '(masked, found) := mask_words banned text text [] in
  match found with
  | [] => unchanged
  | _ :: _ =>
      {| modified_input := Some masked;
         notes := Some ("banned_terms_masked: " ++ repr_strs found);
         flags := [("banned_terms_found", FStrs found)];
         severity := "warn" |}
  end.

End Banned.

(** ** QueryComplexityAnalyzer *)

(** The class [\w] of [re] on [str] patterns, for code points below 256:
    [c.isalnum()] or the underscore. *)
Definition isword (c : ascii) : bool :=
  let n := nat_of_ascii c in
  (((48 <=? n) && (n <=? 57)) || ((65 <=? n) && (n <=? 90)) || (n =? 95)
   || ((97 <=? n) && (n <=? 122))
   || (n =? 170) || (n =? 178) || (n =? 179) || (n =? 181) || (n =? 185)
   || (n =? 186) || ((188 <=? n) && (n <=? 190))
   || ((192 <=? n) && (n <=? 214)) || ((216 <=? n) && (n <=? 246))
   || ((248 <=? n) && (n <=? 255)))%nat.

(** [len(re.findall(r"\w+", s))]: the number of maximal runs of word
    characters; [inside] tells whether the scan is within a run. *)
Fixpoint count_words (inside : bool) (s : string) : nat :=
  match s with
  | EmptyString => 0
  | String c s' =>
      if isword c
      then (if inside then 0 else 1) + count_words true s'
      else count_words false s'
  end.

Definition query_complexity_analyzer (ctx : Heuristics.HeuristicContext) : Result :=
  let complexity := count_words false (Heuristics.user_input ctx) in
  {| modified_input := None;
     notes := Some ("complexity_score=" ++ str_of_nat complexity);
     flags := [("complexity_score", FInt complexity)];
     severity := "info" |}.

(** ** ToolUsageOptimizer *)

(** [any(x in text for x in words)] *)
Definition any_in (words : list string) (text : string) : bool :=
  existsb (fun x => PyStr.contains x text) words.

Definition tool_usage_optimizer (ctx : Heuristics.HeuristicContext) : Result :=
  let text := PyStr.lower (Heuristics.user_input ctx) in
  let web :=
    if PyStr.contains "http://" text || PyStr.contains "https://" text
    then [("prefer_web_tools", FBool true)] else [] in
  let doc :=
    if any_in ["pdf"; "document"; "doc"; "paper"] text
    then [("prefer_document_tools", FBool true)] else [] in
  {| modified_input := None; notes := None; flags := (web ++ doc)%list;
     severity := "info" |}.

(** ** ErrorPatternDetector *)

(** [not ctx.interim_result]: it is [None] or empty. *)
Definition interim_text (ctx : Heuristics.HeuristicContext) : option string :=
  match Heuristics.interim_result ctx with
  | Some r => if PyStr.truthy r then Some r else None
  | None => None
  end.

Definition error_pattern_detector (ctx : Heuristics.HeuristicContext) : Result :=
  match interim_text ctx with
  | None => unchanged
  | Some r =>
      let retry :=
        any_in ["timeout"; "rate limit"; "exceeded max tool calls"] (PyStr.lower r) in
      {| modified_input := None; notes := None;
         flags := if retry then [("retry_suggested", FBool true)] else [];
         severity := if retry then "warn" else "none" |}
  end.

(** ** ResponseFormatValidator *)

Section Json.

(** Whether [json.loads] accepts the text. *)
Variable json_ok : string -> bool.

Definition response_format_validator (ctx : Heuristics.HeuristicContext) : Result :=
  match interim_text ctx with
  | None => unchanged
  | Some r =>
      let text := PyStr.strip r in
      if PyStr.startswith "{" text && ends_with_char "}" text then
        if json_ok text
        then {| modified_input := None; notes := Some "json_parse_ok";
                flags := []; severity := "info" |}
        else {| modified_input := None; notes := Some "json_parse_failed";
                flags := []; severity := "warn" |}
      else unchanged
  end.

End Json.

(** ** HistoricalPatternRecognizer *)

Definition historical_pattern_recognizer (ctx : Heuristics.HeuristicContext) : Result :=
  {| modified_input := None; notes := Some "similar_past_query_found";
     flags := [("similar_past_query_found", FBool false)];
     severity := "info" |}.

(** ** TimeoutManager *)

Definition timeout_manager (ctx : Heuristics.HeuristicContext) : Result :=
  if (2000 <? String.length (Heuristics.user_input ctx))%nat
  then {| modified_input := None; notes := Some "long_input_detected";
          flags := [("suggest_shorter_timeout", FBool true)];
          severity := "info" |}
  else unchanged.

(** ** QueryIntentMatcher *)

Definition query_intent_matcher (ctx : Heuristics.HeuristicContext) : Result :=
  let text := PyStr.lower (Heuristics.user_input ctx) in
  let intent :=
    if any_in ["price"; "cost"; "how much"] text then Some "ask_price"
    else if any_in ["who"; "person"; "name"] text then Some "ask_person"
    else None in
  match intent with
  | Some i => {| modified_input := None; notes := None;
                 flags := [("intent", FStr i)]; severity := "info" |}
  | None => unchanged
  end.

(** [default_heuristics()]: the [run] methods of the ten units, in
    order, with the default fields of each class. *)
Definition default_runs (repr_strs : list string -> string) (json_ok : string -> bool)
  : list (Heuristics.HeuristicContext -> Result) :=
  [invalid_file_detector;
   input_validation_system 1 10000;
   banned_words_filter repr_strs default_banned;
   query_complexity_analyzer;
   tool_usage_optimizer;
   error_pattern_detector;
   response_format_validator json_ok;
   historical_pattern_recognizer;
   timeout_manager;
   query_intent_matcher].

End Impl.

(* ================================================================== *)
(** * modules/heuristics_loader.py: what the entries resolve to *)

Module LoaderSpec.

Import Loader.

(** An entry the loop gets through without an exception, the constructor
    apart: a mapping that is disabled, or whose [id] can be looked up. *)
Definition entry_ok (section : yaml) : bool :=
  match section with
  | YMap entries =>
      negb (truthy (match lookup "enabled" entries with
                    | Some en => en
                    | None => YBool true
                    end))
      || match lookup "id" entries with
         | Some (YSeq _) | Some (YMap _) => false
         | _ => true
         end
  | _ => false
  end.

(** The unit of an entry, if it has one: the class its [id] names, with
    every key but [id] and [enabled] as a parameter. *)
Definition unit_of (section : yaml) : list Unit :=
  match section with
  | YMap entries =>
      if entry_skipped section then []
      else match lookup "id" entries with
           | Some (YStr name) =>
               match class_of name ID_TO_CLASS with
               | Some c => [mkUnit c (override_params entries)]
               | None => []
               end
           | _ => []
           end
  | _ => []
  end.

End LoaderSpec.

(* ================================================================== *)
(** * history_index/indexer.py *)

Module Indexer.

(** What [json.load] builds is a [yaml] value: null, a boolean, a number,
    a string, a list or a mapping with string keys. *)
Import Loader.

(** [a or b] *)
Definition py_or (a b : yaml) : yaml := if truthy a then a else b.

(** [v == name] for a [str] [name] *)
Definition is_str (v : yaml) (name : string) : bool :=
  match v with
  | YStr s => String.eqb s name
  | _ => false
  end.

(** [item.get(key)] on a mapping *)
Definition field (entries : list (string * yaml)) (key : string) : yaml :=
  match lookup key entries with
  | Some v => v
  | None => YNull
  end.

(** The [for item in data] loop of [_collect_qas] on the items of one
    transcript; [user_query] and [final_answer] are its two locals, [None]
    being [YNull].  An item that is not a mapping has no [get]. *)
Fixpoint scan (items : list yaml) (user_query final_answer : yaml)
  : result (yaml * yaml) :=
  match items with
  | [] => Ok (user_query, final_answer)
  | YMap entries :: items' =>
      if is_str (field entries "type") "run_metadata" && negb (truthy user_query)
      then scan items' (py_or (field entries "user_query") (field entries "text"))
             final_answer
      else if is_str (field entries "type") "final_answer"
      then scan items' user_query
             (py_or (field entries "final_answer") (field entries "text"))
      else scan items' user_query final_answer
  | _ :: _ => Raise "AttributeError"
  end.

(** What [for item in data] iterates over: the elements of a list, the
    keys of a mapping, the characters of a string; nothing else iterates. *)
Definition items_of (data : yaml) : result (list yaml) :=
  match data with
  | YSeq items => Ok items
  | YMap entries => Ok (map (fun kv => YStr (fst kv)) entries)
  | YStr s => Ok (map (fun ch => YStr (String ch EmptyString)) (list_ascii_of_string s))
  | _ => Raise "TypeError"
  end.

Section Collect.

(** [str(v)] for a value that is not a [str]. *)
Variable repr : yaml -> string.

Definition str (v : yaml) : string :=
  match v with
  | YStr s => s
  | _ => repr v
  end.

(** The pair one transcript contributes, if any. *)
Definition transcript_pair (data : yaml) : result (option (string * string)) :=
  match items_of data with
  | Raise e => Raise e
  | Ok items =>
      match scan items YNull YNull with
      | Raise e => Raise e
      | Ok (user_query, final_answer) =>
          if truthy user_query && truthy final_answer
          then Ok (Some (str user_query, str final_answer))
          else Ok None
      end
  end.

(** [_collect_qas] over the [.json] files found, in the order of the
    walk; [None] is a file that [json.load] cannot read, which is passed
    over. *)
Fixpoint _collect_qas (files : list (option yaml)) (qas : list (string * string))
  : result (list (string * string)) :=
  match files with
  | [] => Ok qas
  | None :: files' => _collect_qas files' qas
  | Some data :: files' =>
      match transcript_pair data with
      | Raise e => Raise e
      | Ok (Some qa) => _collect_qas files' (qas ++ [qa])%list
      | Ok None => _collect_qas files' qas
      end
  end.

End Collect.

(** ** The declarative reading of one transcript *)

Definition query_of (item : yaml) : yaml :=
  match item with
  | YMap entries => py_or (field entries "user_query") (field entries "text")
  | _ => YNull
  end.

Definition answer_of (item : yaml) : yaml :=
  match item with
  | YMap entries => py_or (field entries "final_answer") (field entries "text")
  | _ => YNull
  end.

Definition has_type (name : string) (item : yaml) : bool :=
  match item with
  | YMap entries => is_str (field entries "type") name
  | _ => false
  end.

Definition is_mapping (item : yaml) : bool :=
  match item with
  | YMap _ => true
  | _ => false
  end.

(** The first query that is not falsy among the [run_metadata] records. *)
Definition first_query (items : list yaml) : yaml :=
  hd YNull (filter truthy (map query_of (filter (has_type "run_metadata") items))).

(** The answer of the last [final_answer] record, falsy or not. *)
Definition last_answer (items : list yaml) : yaml :=
  last (map answer_of (filter (has_type "final_answer") items)) YNull.

(** ** [simple_embed]: the bucket counts before normalization *)

(** [x + 1.0] in float32 for an integer-valued [x] reached from [0.0] by
    such steps: exact below [2^24], where the sum rounds back to [x]. *)
Definition f32_succ (x : N) : N :=
  if (x <? 16777216)%N then (x + 1)%N else x.

(** [vec[idx] += 1.0] *)
Fixpoint bump (idx : nat) (vec : list N) : list N :=
  match vec, idx with
  | [], _ => []
  | x :: vec', O => f32_succ x :: vec'
  | x :: vec', S i => x :: bump i vec'
  end.

(** [s.split()]: the maximal runs of characters that are not blanks;
    [cur] is the run being read. *)
Fixpoint split_ws (cur : string) (s : string) : list string :=
  match s with
  | EmptyString => if PyStr.truthy cur then [cur] else []
  | String c s' =>
      if PyStr.isspace c
      then (if PyStr.truthy cur then cur :: split_ws EmptyString s'
            else split_ws EmptyString s')
      else split_ws (cur ++ String c EmptyString) s'
  end.

Section Embed.

(** The built-in [hash] on [str]. *)
Variable hash : string -> Z.

(** The [for t in tokens] loop. *)
Fixpoint count_tokens (tokens : list string) (vec : list N) : list N :=
  match tokens with
  | [] => vec
  | t :: tokens' => count_tokens tokens' (bump (Z.to_nat (hash t mod 256)) vec)
  end.

(** [vec] of [simple_embed] when the loop is over. *)
Definition bucket_counts (text : string) : list N :=
  count_tokens (split_ws EmptyString (PyStr.lower text)) (repeat 0%N 256).

End Embed.

(** The sum of a count vector. *)
Definition total (vec : list N) : N := fold_right N.add 0%N vec.

(** ** [HistoryIndexer.build] *)

Section Build.

Variable simple_embed : string -> History.vec.
(** [json.dumps] of the [{query, answer}] record of a pair *)
Variable json_dumps : string * string -> string.

(** The snapshot [build] saves, as a retriever without the accelerated
    index loads it back: one row and one serialized record per pair, in
    the order of the pairs, and the empty matrix for no pair. *)
Definition build (qas : list (string * string)) : History.HistoryRetriever :=
  {| History.X := map (fun qa => simple_embed (fst qa ++ PyStr.nl ++ snd qa)) qas;
     History.meta := map json_dumps qas;
     History.faiss_idx := None |}.

End Build.

End Indexer.

(* ================================================================== *)
(** * scripts/generate_reports.py *)

Module Reports.

Definition fallback_queries : list string :=
  ["Compute the factorial of 15";
   "List the first 12 Fibonacci numbers";
   "Search the web for 'DLF Camellias Capbridge amount' and report amounts mentioned"].

(** The [for line in f] loop of [read_queries]. *)
Fixpoint read_lines (lines : list string) (limit : Z) (queries : list string)
  : list string :=
  match lines with
  | [] => queries
  | line :: lines' =>
      let q := PyStr.strip line in
      let queries' := if PyStr.truthy q then (queries ++ [q])%list else queries in
      if (limit <=? Z.of_nat (length queries'))%Z
      then queries'
      else read_lines lines' limit queries'
  end.

(** [read_queries]: [file] holds the lines of the file, [None] when the
    path does not exist. *)
Definition read_queries (file : option (list string)) (limit : Z) : list string :=
  let queries := match file with
                 | Some lines => read_lines lines limit []
                 | None => []
                 end in
  let queries := match queries with
                 | [] => fallback_queries
                 | _ :: _ => queries
                 end in
  History.slice_to limit queries.

End Reports.

(* ================================================================== *)
(** * history_index/indexer.py and scripts/generate_reports.py, read declaratively *)

Module IndexerSpec.

Import Loader Indexer.

(** The pair a transcript made of records stands for: its first query
    that is not falsy and the answer of its last [final_answer] record,
    when neither is falsy. *)
Definition session_pair (repr : yaml -> string) (items : list yaml)
  : option (string * string) :=
  if truthy (first_query items) && truthy (last_answer items)
  then Some (str repr (first_query items), str repr (last_answer items))
  else None.

(** A file that does not stop the walk: one that cannot be read, or a
    list of records. *)
Definition readable_ok (file : option yaml) : bool :=
  match file with
  | None => true
  | Some (YSeq items) => forallb is_mapping items
  | Some _ => false
  end.

Definition pairs_of (repr : yaml -> string) (file : option yaml)
  : list (string * string) :=
  match file with
  | Some (YSeq items) =>
      match session_pair repr items with
      | Some qa => [qa]
      | None => []
      end
  | _ => []
  end.

(** The similarity of a stored pair to a query, as the retriever
    computes it from the row [build] stored. *)
Definition score (simple_embed : string -> History.vec)
    (inner : History.vec -> History.vec -> Q) (query : string)
    (qa : string * string) : Q :=
  inner (simple_embed (fst qa ++ PyStr.nl ++ snd qa)) (simple_embed query).

End IndexerSpec.

Module ReportsSpec.

(** The lines of a file that are not blank, stripped. *)
Definition nonblank (lines : list string) : list string :=
  filter PyStr.truthy (map PyStr.strip lines).

End ReportsSpec.

(* ================================================================== *)
(** * Further sample inputs *)

Module Samples.

Import Context Loop.


(** A context for a query, before any tool has run. *)
Definition query (text : string) : Heuristics.HeuristicContext :=
  {| Heuristics.user_input := text; Heuristics.interim_result := None;
     Heuristics.metadata := [] |}.

(** A stand-in for [repr] of a list of [str]. *)
Definition show_strs (l : list string) : string :=
  "[" ++ String.concat ", " l ++ "]".

(** A document with two stages: a known entry with a parameter, a
    disabled entry and an entry of unknown id before the result, a known
    entry after it. *)
Definition two_stage_config : list (string * Loader.yaml) :=
  [("enabled", Loader.YBool true);
   ("pre_query",
    Loader.YSeq
      [Loader.YMap [("id", Loader.YStr "banned_words_filter");
                    ("replacement", Loader.YStr "***")];
       Loader.YMap [("id", Loader.YStr "timeout_manager");
                    ("enabled", Loader.YBool false)];
       Loader.YMap [("id", Loader.YStr "spell_checker")]]);
   ("post_result",
    Loader.YSeq [Loader.YMap [("id", Loader.YStr "error_pattern_detector")]])].

(** A transcript with two [run_metadata] records and two answers. *)
Definition transcript : list Loader.yaml :=
  [Loader.YMap [("type", Loader.YStr "run_metadata"); ("text", Loader.YStr "2+2?")];
   Loader.YMap [("type", Loader.YStr "final_answer"); ("final_answer", Loader.YStr "5")];
   Loader.YMap [("type", Loader.YStr "run_metadata"); ("user_query", Loader.YStr "3+3?")];
   Loader.YMap [("type", Loader.YStr "tool_output"); ("text", Loader.YStr "4")];
   Loader.YMap [("type", Loader.YStr "final_answer"); ("text", Loader.YStr "4")]].

(** A stand-in for [repr] of a JSON value that is not a [str]. *)
Definition show_value (v : Loader.yaml) : string :=
  match v with
  | Loader.YBool true => "True"
  | Loader.YBool false => "False"
  | _ => "None"
  end.

(** A stand-in for [hash] on [str]. *)
Definition length_hash (s : string) : Z := Z.of_nat (String.length s).

(** Stand-ins for [json.dumps] and [json.loads] of a pair. *)
Definition dump_pair (qa : string * string) : string :=
  fst qa ++ " => " ++ snd qa.

Definition load_text (s : string) : option string := Some s.

(** A stand-in for [simple_embed]: the length of the text on one axis. *)
Definition embed_length (s : string) : History.vec :=
  [inject_Z (Z.of_nat (String.length s)); 1%Q].

(** The lines of a query file: a blank line between two queries. *)
Definition query_lines : list string :=
  ["  What is 2+2?  " ++ PyStr.nl; PyStr.nl; "Name a prime" ++ PyStr.nl; "Third"].

End Samples.

(* ================================================================== *)
(** * Theory *)

(** ** Strings *)

Section StringFacts.

Lemma append_empty_r (s : string) : s ++ "" = s.
Proof. induction s as [|c s IH]; simpl; [reflexivity | now rewrite IH]. Qed.

Lemma append_assoc (a b c : string) : (a ++ b) ++ c = a ++ (b ++ c).
Proof. induction a as [|x a IH]; simpl; [reflexivity | now rewrite IH]. Qed.

Lemma append_eq_empty (a b : string) : a ++ b = "" -> a = "" /\ b = "".
Proof. destruct a; simpl; [auto | discriminate]. Qed.

Lemma length_append (a b : string) :
  String.length (a ++ b) = String.length a + String.length b.
Proof. induction a as [|x a IH]; simpl; [reflexivity | now rewrite IH]. Qed.

Lemma startswith_append (p r : string) : PyStr.startswith p (p ++ r) = true.
Proof.
  induction p as [|a p IH]; simpl; [reflexivity|].
  now rewrite Ascii.eqb_refl, IH.
Qed.

Lemma startswith_spec (p s : string) :
  PyStr.startswith p s = true <-> exists r, s = p ++ r.
Proof.
  split.
  - revert s. induction p as [|a p IH]; intros s H.
    + exists s. reflexivity.
    + destruct s as [|b s]; simpl in H; [discriminate|].
      apply andb_true_iff in H as [Hab Hps].
      apply Ascii.eqb_eq in Hab. subst b.
      destruct (IH _ Hps) as [r ->]. exists r. reflexivity.
  - intros [r ->]. apply startswith_append.
Qed.

Lemma contains_startswith (sub s : string) :
  PyStr.startswith sub s = true -> PyStr.contains sub s = true.
Proof. intros H. destruct s; simpl; now rewrite H. Qed.

Lemma contains_spec (sub s : string) :
  PyStr.contains sub s = true <-> exists a b, s = a ++ sub ++ b.
Proof.
  split.
  - induction s as [|c s IH]; simpl; intros H.
    + rewrite orb_false_r in H. apply startswith_spec in H as [r Hr].
      exists "", r. exact Hr.
    + apply orb_true_iff in H as [H|H].
      * apply startswith_spec in H as [r Hr]. exists "", r. exact Hr.
      * destruct (IH H) as (a & b & ->). exists (String c a), b. reflexivity.
  - intros (a & b & ->). induction a as [|c a IH]; simpl.
    + apply contains_startswith, startswith_append.
    + rewrite IH. apply orb_true_r.
Qed.

Lemma rstrip_by_prefix p pre rest :
  PyStr.no_char p pre = true ->
  PyStr.rstrip_by p (pre ++ rest) = pre ++ PyStr.rstrip_by p rest.
Proof.
  induction pre as [|c pre IH]; simpl; intros H; [reflexivity|].
  apply andb_true_iff in H as [Hc Hpre]. apply negb_true_iff in Hc.
  rewrite (IH Hpre), Hc. now destruct (pre ++ PyStr.rstrip_by p rest).
Qed.

(** [strip] keeps a leading word that holds no blank. *)
Lemma strip_keeps_prefix pre rest :
  PyStr.no_char PyStr.isspace pre = true -> pre <> "" ->
  PyStr.strip (pre ++ rest) = pre ++ PyStr.rstrip_by PyStr.isspace rest.
Proof.
  intros H Hne. unfold PyStr.strip. rewrite (rstrip_by_prefix _ _ _ H).
  destruct pre as [|c pre]; [congruence|]. simpl in *.
  apply andb_true_iff in H as [Hc _]. apply negb_true_iff in Hc.
  now rewrite Hc.
Qed.

Lemma rstrip_by_idempotent p s :
  PyStr.rstrip_by p (PyStr.rstrip_by p s) = PyStr.rstrip_by p s.
Proof.
  induction s as [|c s IH]; [reflexivity|]. simpl.
  destruct (PyStr.rstrip_by p s) as [|d r] eqn:Er.
  - destruct (p c) eqn:Hc; simpl; [reflexivity | now rewrite Hc].
  - change (PyStr.rstrip_by p (String c (String d r))) with
      (match PyStr.rstrip_by p (String d r) with
       | EmptyString => if p c then EmptyString else String c EmptyString
       | String a s0 => String c (String a s0)
       end).
    now rewrite IH.
Qed.






End StringFacts.

(** ** Regular expressions: the matcher decides the language *)

Section RegexFacts.

Import Regex.

Lemma matches_empty_inv s : Matches Empty s -> False.
Proof. intros H. inversion H. Qed.

Lemma matches_eps_inv s : Matches Eps s -> s = "".
Proof. intros H. inversion H. reflexivity. Qed.

Lemma matches_class_inv p s :
  Matches (Class p) s -> exists c, s = String c "" /\ p c = true.
Proof. intros H. inversion H; subst. eauto. Qed.

Lemma matches_cat_inv r1 r2 s :
  Matches (Cat r1 r2) s ->
  exists s1 s2, s = s1 ++ s2 /\ Matches r1 s1 /\ Matches r2 s2.
Proof. intros H. inversion H; subst. eauto. Qed.

Lemma matches_alt_inv r1 r2 s :
  Matches (Alt r1 r2) s -> Matches r1 s \/ Matches r2 s.
Proof. intros H. inversion H; subst; auto. Qed.

Lemma matches_star_cons_inv r c s :
  Matches (Star r) (String c s) ->
  exists s1 s2, s = s1 ++ s2 /\ Matches r (String c s1) /\ Matches (Star r) s2.
Proof.
  intros H.
  remember (Star r) as R eqn:ER. remember (String c s) as t eqn:Et.
  revert c s Et.
  induction H as [| | | | | |r0 s1 s2 H1 _ H2 IH2]; intros x t Et;
    try discriminate.
  injection ER as ->.
  destruct s1 as [|d s1]; simpl in Et.
  - apply IH2; [reflexivity | exact Et].
  - injection Et as Hd Ht. subst. exists s1, s2. auto.
Qed.

Lemma nullable_spec r : nullable r = true <-> Matches r "".
Proof.
  induction r as [| |p|r1 IH1 r2 IH2|r1 IH1 r2 IH2|r IH]; simpl.
  - split; [discriminate | intros H; destruct (matches_empty_inv _ H)].
  - split; [intros _; constructor | reflexivity].
  - split; [discriminate|].
    intros H. apply matches_class_inv in H as (c & E & _). discriminate.
  - rewrite andb_true_iff, IH1, IH2. split.
    + intros [H1 H2]. change "" with ("" ++ ""). now constructor.
    + intros H. apply matches_cat_inv in H as (s1 & s2 & E & H1 & H2).
      symmetry in E. apply append_eq_empty in E as [-> ->]. auto.
  - rewrite orb_true_iff, IH1, IH2. split.
    + intros [H|H]; [now apply MAltL | now apply MAltR].
    + apply matches_alt_inv.
  - split; [intros _; constructor | reflexivity].
Qed.

Lemma deriv_spec c r : forall s, Matches (deriv c r) s <-> Matches r (String c s).
Proof.
  induction r as [| |p|r1 IH1 r2 IH2|r1 IH1 r2 IH2|r IH]; intros s; simpl.
  - split; intros H; inversion H.
  - split; intros H; inversion H.
  - destruct (p c) eqn:Hp; split; intros H.
    + apply matches_eps_inv in H as ->. now constructor.
    + apply matches_class_inv in H as (d & E & _).
      injection E as -> ->. constructor.
    + destruct (matches_empty_inv _ H).
    + apply matches_class_inv in H as (d & E & Hd).
      injection E as -> ->. congruence.
  - assert (Hcat : Matches (Cat (deriv c r1) r2) s -> Matches (Cat r1 r2) (String c s)).
    { intros H. apply matches_cat_inv in H as (s1 & s2 & -> & H1 & H2).
      apply IH1 in H1. change (String c (s1 ++ s2)) with (String c s1 ++ s2).
      now constructor. }
    assert (Hinv : Matches (Cat r1 r2) (String c s) ->
                   Matches (Cat (deriv c r1) r2) s \/
                   (Matches r1 "" /\ Matches r2 (String c s))).
    { intros H. apply matches_cat_inv in H as (s1 & s2 & E & H1 & H2).
      destruct s1 as [|d s1]; simpl in E.
      - right. subst s2. auto.
      - injection E as Hd Hs. subst. left. constructor; [now apply IH1 | exact H2]. }
    destruct (nullable r1) eqn:Hn; split; intros H.
    + apply matches_alt_inv in H as [H|H]; [now apply Hcat|].
      apply IH2 in H. apply nullable_spec in Hn.
      change (String c s) with ("" ++ String c s). now constructor.
    + destruct (Hinv H) as [H'|[_ H']]; [now apply MAltL|].
      apply MAltR. now apply IH2.
    + now apply Hcat.
    + destruct (Hinv H) as [H'|[H' _]]; [exact H'|].
      apply nullable_spec in H'. congruence.
  - split; intros H.
    + apply matches_alt_inv in H as [H|H];
        [apply MAltL; now apply IH1 | apply MAltR; now apply IH2].
    + apply matches_alt_inv in H as [H|H];
        [apply MAltL; now apply IH1 | apply MAltR; now apply IH2].
  - split; intros H.
    + apply matches_cat_inv in H as (s1 & s2 & -> & H1 & H2).
      apply IH in H1. change (String c (s1 ++ s2)) with (String c s1 ++ s2).
      now constructor.
    + apply matches_star_cons_inv in H as (s1 & s2 & -> & H1 & H2).
      constructor; [now apply IH | exact H2].
Qed.

(** [match_prefix] finds a match exactly when some prefix of the text is
    in the language. *)
Lemma match_prefix_spec r s :
  match_prefix r s = true <-> exists m rest, s = m ++ rest /\ Matches r m.
Proof.
  revert r. induction s as [|c s IH]; intros r; simpl.
  - rewrite orb_false_r, nullable_spec. split.
    + intros H. exists "", "". auto.
    + intros (m & rest & E & H). symmetry in E.
      apply append_eq_empty in E as [-> _]. exact H.
  - rewrite orb_true_iff, nullable_spec, IH. split.
    + intros [H|(m & rest & -> & H)].
      * exists "", (String c s). auto.
      * exists (String c m), rest. split; [reflexivity | now apply deriv_spec].
    + intros (m & rest & E & H). destruct m as [|d m]; simpl in E.
      * left. exact H.
      * injection E as Hd Hs. subst. right. exists m, rest.
        split; [reflexivity | now apply deriv_spec].
Qed.

Lemma matches_word w s : Matches (Word w) s <-> s = w.
Proof.
  revert s. induction w as [|c w IH]; intros s; simpl.
  - split; [apply matches_eps_inv | intros ->; constructor].
  - split.
    + intros H. apply matches_cat_inv in H as (s1 & s2 & -> & H1 & H2).
      apply matches_class_inv in H1 as (d & -> & Hd).
      apply Ascii.eqb_eq in Hd. apply IH in H2. now subst.
    + intros ->. change (String c w) with (String c "" ++ w).
      constructor; [|now apply IH].
      constructor. apply Ascii.eqb_refl.
Qed.

Lemma matches_star_space s : Matches (Star Space) s <-> all_space s = true.
Proof.
  split.
  - intros H. remember (Star Space) as R eqn:ER.
    induction H as [| | | | | |r0 s1 s2 H1 _ H2 IH2]; try discriminate.
    + reflexivity.
    + injection ER as ->.
      apply matches_class_inv in H1 as (c & -> & Hc). simpl.
      rewrite Hc. now apply IH2.
  - induction s as [|c s IH]; simpl; intros H.
    + constructor.
    + apply andb_true_iff in H as [Hc Hs].
      change (String c s) with (String c "" ++ s).
      constructor; [now constructor | now apply IH].
Qed.

Lemma matches_plus_space s :
  Matches (Plus Space) s <-> all_space s = true /\ s <> "".
Proof.
  unfold Plus. split.
  - intros H. apply matches_cat_inv in H as (s1 & s2 & -> & H1 & H2).
    apply matches_class_inv in H1 as (c & -> & Hc).
    apply matches_star_space in H2. simpl. rewrite Hc, H2.
    split; [reflexivity | discriminate].
  - intros [H Hne]. destruct s as [|c s]; [congruence|].
    simpl in H. apply andb_true_iff in H as [Hc Hs].
    change (String c s) with (String c "" ++ s).
    constructor; [now constructor | now apply matches_star_space].
Qed.

Lemma matches_lit c s : Matches (Lit c) s <-> s = String c "".
Proof.
  unfold Lit. split.
  - intros H. apply matches_class_inv in H as (d & -> & Hd).
    apply Ascii.eqb_eq in Hd. now subst.
  - intros ->. constructor. apply Ascii.eqb_refl.
Qed.

(** The pattern's language is the [solve] signature of the words. *)
Lemma matches_solve_signature m :
  Matches solve_signature m <-> solve_signature_text m.
Proof.
  unfold solve_signature, solve_signature_text. split.
  - intros H.
    apply matches_cat_inv in H as (ws0 & t1 & -> & H0 & H).
    apply matches_cat_inv in H as (q & t2 & -> & Hq & H).
    apply matches_cat_inv in H as (d & t3 & -> & Hd & H).
    apply matches_cat_inv in H as (ws1 & t4 & -> & H1 & H).
    apply matches_cat_inv in H as (sv & t5 & -> & Hsv & H).
    apply matches_cat_inv in H as (ws2 & par & -> & H2 & Hpar).
    apply matches_star_space in H0, H2.
    apply matches_plus_space in H1 as [H1 H1ne].
    apply matches_word in Hd, Hsv. apply matches_lit in Hpar. subst d sv par.
    exists ws0, q, ws1, ws2. repeat split; auto.
    apply matches_alt_inv in Hq as [Hq|Hq].
    + right. apply matches_cat_inv in Hq as (a & wsa & -> & Ha & Hwsa).
      apply matches_word in Ha. subst a.
      apply matches_plus_space in Hwsa as [Hs Hne]. exists wsa. auto.
    + left. now apply matches_eps_inv.
  - intros (ws0 & q & ws1 & ws2 & -> & H0 & Hq & H1 & H1ne & H2).
    constructor; [now apply matches_star_space|].
    constructor.
    { destruct Hq as [->|(wsa & -> & Hs & Hne)].
      - apply MAltR. constructor.
      - apply MAltL. constructor; [now apply matches_word|].
        now apply matches_plus_space. }
    constructor; [now apply matches_word|].
    constructor; [now apply matches_plus_space|].
    constructor; [now apply matches_word|].
    constructor; [now apply matches_star_space | now apply matches_lit].
Qed.

Lemma search_from_spec r s : forall bol,
  search_from bol r s = true <->
  (bol = true /\ match_prefix r s = true) \/
  (exists p suf, s = p ++ PyStr.nl ++ suf /\ match_prefix r suf = true).
Proof.
  induction s as [|c s IH]; intros bol.
  - cbn [search_from]. rewrite orb_false_r, andb_true_iff. split.
    + auto.
    + intros [H|(p & suf & E & _)]; [exact H|].
      symmetry in E. apply append_eq_empty in E as [_ E]. discriminate.
  - cbn [search_from]. rewrite orb_true_iff, andb_true_iff, IH. split.
    + intros [H|[[Hc H]|(p & suf & -> & H)]].
      * left. exact H.
      * right. apply Ascii.eqb_eq in Hc. subst c. exists "", s. auto.
      * right. exists (String c p), suf. auto.
    + intros [H|(p & suf & E & H)]; [left; exact H|].
      right. destruct p as [|d p]; simpl in E.
      * injection E as Hc Hs. subst. left. split; [apply Ascii.eqb_refl | exact H].
      * injection E as Hc Hs. subst. right. exists p, suf. auto.
Qed.

(** [re.search] with the source's pattern and flag finds a match exactly
    when some line of the text starts with a [solve] signature, letter
    case as written. *)
Lemma is_solve_plan_spec text :
  is_solve_plan text = true <-> has_solve_signature text.
Proof.
  unfold is_solve_plan, search_multiline_bol, has_solve_signature, at_line_start.
  rewrite search_from_spec. split.
  - intros [[_ H]|(p & suf & -> & H)];
      apply match_prefix_spec in H as (m & rest & -> & H);
      apply matches_solve_signature in H.
    + exists "", m, rest. auto.
    + exists (p ++ PyStr.nl), m, rest. repeat split; eauto.
      now rewrite append_assoc.
  - intros (before & m & rest & -> & [->|(p & ->)] & H);
      apply matches_solve_signature in H.
    + left. split; [reflexivity|]. apply match_prefix_spec.
      exists m, rest. auto.
    + right. exists p, (m ++ rest). split; [now rewrite append_assoc|].
      apply match_prefix_spec. exists m, rest. auto.
Qed.

End RegexFacts.


(** ** The heuristics pipeline *)

Section EngineFacts.

Import Heuristics.

Variable ctx : HeuristicContext.

Lemma run_units_acc hs : forall cur acc,
  run_units ctx hs cur acc =
  (fst (run_units ctx hs cur []), (acc ++ snd (run_units ctx hs cur []))%list).
Proof.
  induction hs as [|h hs IH]; intros cur acc; simpl.
  - now rewrite app_nil_r.
  - rewrite IH. rewrite (IH _ [_]). simpl. now rewrite <- app_assoc.
Qed.

Lemma run_units_cons h hs cur :
  run_units ctx (h :: hs) cur [] =
  let r := run_guarded h (unit_context ctx cur) in
  let cur' := match modified_input r with Some m => m | None => cur end in
  (fst (run_units ctx hs cur' []), r :: snd (run_units ctx hs cur' [])).
Proof. simpl. now rewrite run_units_acc. Qed.

Lemma run_units_length hs : forall cur,
  length (snd (run_units ctx hs cur [])) = length hs.
Proof.
  induction hs as [|h hs IH]; intros cur; [reflexivity|].
  rewrite run_units_cons. simpl. now rewrite IH.
Qed.



Lemma run_units_outcomes hs : forall cur,
  Forall2 (fun h r =>
             exists c, run h c = Returns r \/
                       exists msg, run h c = Raises msg /\ r = heuristic_error h msg)
          hs (snd (run_units ctx hs cur [])).
Proof.
  induction hs as [|h hs IH]; intros cur.
  - constructor.
  - rewrite run_units_cons. cbn [snd]. constructor; [|apply IH].
    exists (unit_context ctx cur). unfold run_guarded.
    destruct (run h (unit_context ctx cur)) as [r|msg]; eauto.
Qed.

End EngineFacts.

(** C5.  Whatever the units do, a pipeline run returns one result per
    enabled unit, in the configured order: the entry of a unit is the
    result its [run] returned, or, when its [run] raised with message
    [msg], the synthetic result with notes
    ["heuristic_error: <id>: <msg>"], severity ["warn"], no rewrite and no
    flags; the units after a raising one still run. *)
Theorem engine_isolates_unit_failures
    (e : Heuristics.HeuristicEngine) (ctx : Heuristics.HeuristicContext) :
  length (snd (Heuristics._run e ctx))
  = length (filter Heuristics.enabled (Heuristics.heuristics e)) /\
  Forall2
    (fun h r =>
       exists c,
         Heuristics.run h c = Heuristics.Returns r \/
         exists msg,
           Heuristics.run h c = Heuristics.Raises msg /\
           r = {| Heuristics.modified_input := None;
                  Heuristics.notes :=
                    Some ("heuristic_error: " ++ Heuristics.id h ++ ": " ++ msg);
                  Heuristics.flags := [];
                  Heuristics.severity := "warn" |})
    (filter Heuristics.enabled (Heuristics.heuristics e))
    (snd (Heuristics._run e ctx)).
Proof.
  unfold Heuristics._run. split.
  - apply run_units_length.
  - apply run_units_outcomes.
Qed.


(** ** The agent loop *)

Section LoopFacts.

Import Context Loop.

Variable E : Collaborators.
Variable engine : Heuristics.HeuristicEngine.

Lemma finish_attempt_lifelines plan result ok l c ctl l' c' :
  finish_attempt plan result ok l c = (ctl, l', c') ->
  match ctl with
  | Continue => l' = (l - 1)%Z
  | _ => l' = l
  end.
Proof.
  unfold finish_attempt.
  destruct (ok && negb (PyStr.contains FURTHER_PROCESSING_REQUIRED result));
    intros H; injection H as <- <- <-; reflexivity.
Qed.

Lemma execute_lifelines step plan l st ctl l' st' :
  execute E engine step plan l st = (ctl, l', st') ->
  match ctl with
  | Continue => l' = (l - 1)%Z
  | _ => l' = l
  end.
Proof.
  destruct st as [c k]. unfold execute.
  destruct (run_python_sandbox E (sandbox_calls k) plan) as [raw|repr].
  - destruct (PyStr.startswith FINAL_ANSWER (PyStr.strip raw));
      [intros H; injection H as <- <- <-; reflexivity|].
    destruct (PyStr.startswith FURTHER_PROCESSING_REQUIRED (PyStr.strip raw));
      [intros H; injection H as <- <- <-; reflexivity|].
    destruct (PyStr.startswith SANDBOX_ERROR (PyStr.strip raw)).
    + destruct (finish_attempt _ _ _ _ _) as [[ctl0 l0] c0] eqn:F.
      intros H; injection H as <- <- <-.
      exact (finish_attempt_lifelines _ _ _ _ _ _ _ _ F).
    + destruct (finish_attempt _ _ _ _ _) as [[ctl0 l0] c0] eqn:F.
      intros H; injection H as <- <- <-.
      exact (finish_attempt_lifelines _ _ _ _ _ _ _ _ F).
  - destruct (finish_attempt _ _ _ _ _) as [[ctl0 l0] c0] eqn:F.
    intros H; injection H as <- <- <-.
    exact (finish_attempt_lifelines _ _ _ _ _ _ _ _ F).
Qed.

(** Every pass that ends in [continue] has spent exactly one lifeline,
    and no other pass spends any. *)
Lemma attempt_lifelines step l st ctl l' st' :
  attempt E engine step l st = (ctl, l', st') ->
  match ctl with
  | Continue => l' = (l - 1)%Z
  | _ => l' = l
  end.
Proof.
  destruct st as [c k]. unfold attempt.
  destruct (perceive E engine step (c, k)) as [|t ts].
  - intros H; injection H as <- <- <-; reflexivity.
  - destruct (Regex.is_solve_plan _).
    + apply execute_lifelines.
    + intros H; injection H as <- <- <-; reflexivity.
Qed.

(** [lifeline_fuel] passes are enough: more fuel changes nothing, so the
    loop never stops for lack of fuel while [lifelines_left >= 0]. *)
Lemma lifeline_loop_fuel step : forall fuel l st,
  lifeline_fuel l <= fuel ->
  lifeline_loop fuel E engine step l st
  = lifeline_loop (lifeline_fuel l) E engine step l st.
Proof.
  unfold lifeline_fuel.
  induction fuel as [|fuel IH]; intros l st Hf.
  - replace (Z.to_nat (l + 1)) with 0 by lia. reflexivity.
  - destruct (Z.leb_spec 0 l) as [Hl|Hl].
    + replace (Z.to_nat (l + 1)) with (S (Z.to_nat l)) in * by lia.
      cbn [lifeline_loop]. destruct (0 <=? l)%Z eqn:G; [|reflexivity].
      destruct (attempt E engine step l st) as [[ctl l'] st'] eqn:A.
      destruct ctl; try reflexivity.
      apply attempt_lifelines in A. subst l'.
      rewrite IH by lia.
      replace (Z.to_nat (l - 1 + 1)) with (Z.to_nat l) by lia. reflexivity.
    + replace (Z.to_nat (l + 1)) with 0 by lia.
      cbn [lifeline_loop]. destruct (0 <=? l)%Z eqn:G; [lia | reflexivity].
Qed.

Lemma execute_calls step plan l c k :
  snd (snd (execute E engine step plan l (c, k))) = after_sandbox k.
Proof.
  unfold execute.
  destruct (run_python_sandbox E (sandbox_calls k) plan) as [raw|repr].
  - destruct (PyStr.startswith FINAL_ANSWER (PyStr.strip raw)); [reflexivity|].
    destruct (PyStr.startswith FURTHER_PROCESSING_REQUIRED (PyStr.strip raw));
      [reflexivity|].
    destruct (PyStr.startswith SANDBOX_ERROR (PyStr.strip raw));
      destruct (finish_attempt _ _ _ _ _) as [[ctl0 l0] c0]; reflexivity.
  - destruct (finish_attempt _ _ _ _ _) as [[ctl0 l0] c0]; reflexivity.
Qed.


(** The branch for a text with none of the three prefixes. *)
Lemma execute_plain step plan l c k raw :
  run_python_sandbox E (sandbox_calls k) plan = RStr raw ->
  PyStr.startswith FINAL_ANSWER (PyStr.strip raw) = false ->
  PyStr.startswith FURTHER_PROCESSING_REQUIRED (PyStr.strip raw) = false ->
  PyStr.startswith SANDBOX_ERROR (PyStr.strip raw) = false ->
  execute E engine step plan l (c, k) =
  let recorded :=
    add_tool_output (sandbox_output plan (PyStr.strip raw) true)
      (update_subtask_status "solve_sandbox" "success"
         (set_final_answer ("FINAL_ANSWER: " ++ PyStr.strip raw)
            (log_subtask "solve_sandbox" "pending" c))) in
  if PyStr.contains FURTHER_PROCESSING_REQUIRED (PyStr.strip raw)
  then (Continue, (l - 1)%Z, (recorded, after_sandbox k))
  else (Return ("FINAL_ANSWER: " ++ PyStr.strip raw), l, (recorded, after_sandbox k)).
Proof.
  intros Hs H1 H2 H3. unfold execute. rewrite Hs, H1, H2, H3.
  unfold finish_attempt. cbn zeta.
  destruct (PyStr.contains FURTHER_PROCESSING_REQUIRED (PyStr.strip raw));
    reflexivity.
Qed.

Lemma update_pending_record tool status c :
  task_progress (update_subtask_status tool status (log_subtask tool "pending" c))
  = (task_progress c ++ [mkSubtask tool status])%list.
Proof.
  unfold update_subtask_status, log_subtask, set_task_progress. cbn [task_progress].
  rewrite rev_app_distr. cbn [rev app update_first subtask_tool].
  rewrite String.eqb_refl. cbn [rev]. now rewrite rev_involutive.
Qed.

(** Every outcome but the forward settles the record the pass logged: it
    is the last record and reads ["success"] or ["failure"] when control
    leaves the pass. *)
Lemma execute_settles_subtask_unless_forward step plan l c k :
  match run_python_sandbox E (sandbox_calls k) plan with
  | RStr raw =>
      PyStr.startswith FINAL_ANSWER (PyStr.strip raw) = true \/
      PyStr.startswith FURTHER_PROCESSING_REQUIRED (PyStr.strip raw) = false
  | RObj _ => True
  end ->
  exists status,
    (status = "success" \/ status = "failure") /\
    task_progress (fst (snd (execute E engine step plan l (c, k))))
    = (task_progress c ++ [mkSubtask "solve_sandbox" status])%list.
Proof.
  unfold execute.
  destruct (run_python_sandbox E (sandbox_calls k) plan) as [raw|repr].
  - intros H.
    destruct (PyStr.startswith FINAL_ANSWER (PyStr.strip raw)) eqn:F.
    + exists "success". split; [now left|]. cbn [fst snd].
      apply (update_pending_record "solve_sandbox" "success").
    + destruct H as [H|H]; [discriminate|]. rewrite H.
      destruct (PyStr.startswith SANDBOX_ERROR (PyStr.strip raw)).
      * exists "failure". split; [now right|].
        apply (update_pending_record "solve_sandbox" "failure").
      * exists "success". split; [now left|]. unfold finish_attempt.
        destruct (true && _); apply (update_pending_record "solve_sandbox" "success").
  - intros _. exists "failure". split; [now right|].
    apply (update_pending_record "solve_sandbox" "failure").
Qed.


Lemma generate_plan_unknown_is_invalid :
  Regex.is_solve_plan "FINAL_ANSWER: [unknown]" = false.
Proof. reflexivity. Qed.

(** A pass whose model call raises: nothing is executed or recorded and
    one lifeline goes. *)
Lemma attempt_planner_raises step l c k t ts :
  perceive E engine step (c, k) = t :: ts ->
  generate_text E (plan_calls k) (plan_request E c (t :: ts) step) = None ->
  attempt E engine step l (c, k)
  = (Continue, (l - 1)%Z, (c, after_planning (after_perception k))).
Proof.
  intros Hp Hg. unfold attempt. rewrite Hp.
  unfold make_plan, Decision.generate_plan. rewrite Hg.
  now rewrite generate_plan_unknown_is_invalid.
Qed.

Hypothesis model_always_raises : forall n req, generate_text E n req = None.

Lemma lifeline_loop_planner_raises step : forall fuel l c k,
  exists k', lifeline_loop fuel E engine step l (c, k) = (None, (c, k')).
Proof.
  induction fuel as [|fuel IH]; intros l c k; cbn [lifeline_loop].
  - eauto.
  - destruct (0 <=? l)%Z; [|eauto].
    destruct (perceive E engine step (c, k)) as [|t ts] eqn:Hp.
    + unfold attempt. rewrite Hp. eauto.
    + rewrite (attempt_planner_raises _ _ _ _ _ _ Hp (model_always_raises _ _)).
      apply IH.
Qed.

Lemma step_loop_planner_raises : forall steps c k,
  exists c' k',
    step_loop E engine steps (c, k)
    = (MAX_STEPS_REACHED, (set_final_answer MAX_STEPS_REACHED c', k'))
    /\ task_progress c' = task_progress c /\ memory c' = memory c.
Proof.
  induction steps as [|step steps IH]; intros c k; cbn [step_loop].
  - exists c, k. auto.
  - unfold run_step.
    destruct (lifeline_loop_planner_raises step
                (lifeline_fuel (max_lifelines_per_step (strategy (set_step step c))))
                (max_lifelines_per_step (strategy (set_step step c)))
                (set_step step c) k) as [k' ->].
    destruct (IH (set_step step c) k') as (c' & k'' & -> & Ht & Hm).
    exists c', k''. auto.
Qed.

End LoopFacts.



(** C2, at the failing input.  The sandbox answers the first call with
    ["FURTHER_PROCESSING_REQUIRED: 7"] and the second with
    ["FINAL_ANSWER: 49"]: the first pass leaves through [break] with its
    subtask record still ["pending"], and the record is still
    ["pending"] when the run has returned. *)
Theorem forward_leaves_subtask_pending :
  fst (Loop.attempt
         (Scenarios.scripted [Loop.RStr "FURTHER_PROCESSING_REQUIRED: 7"]
            (Loop.RStr "FINAL_ANSWER: 49"))
         Scenarios.no_heuristics 0 2 (Scenarios.task 3 2, Loop.no_calls))
  = (Loop.Break, 2%Z) /\
  Context.task_progress
    (fst (snd (Loop.attempt
                 (Scenarios.scripted [Loop.RStr "FURTHER_PROCESSING_REQUIRED: 7"]
                    (Loop.RStr "FINAL_ANSWER: 49"))
                 Scenarios.no_heuristics 0 2 (Scenarios.task 3 2, Loop.no_calls))))
  = [Context.mkSubtask "solve_sandbox" "pending"] /\
  fst (Loop.run
         (Scenarios.scripted [Loop.RStr "FURTHER_PROCESSING_REQUIRED: 7"]
            (Loop.RStr "FINAL_ANSWER: 49"))
         Scenarios.no_heuristics (Scenarios.task 3 2))
  = "FINAL_ANSWER: 49" /\
  Context.task_progress
    (fst (snd (Loop.run
                 (Scenarios.scripted [Loop.RStr "FURTHER_PROCESSING_REQUIRED: 7"]
                    (Loop.RStr "FINAL_ANSWER: 49"))
                 Scenarios.no_heuristics (Scenarios.task 3 2))))
  = [Context.mkSubtask "solve_sandbox" "pending";
     Context.mkSubtask "solve_sandbox" "success"].
Proof. repeat split; vm_compute; reflexivity. Qed.

(** C3, as the code has it.  A plan text is recognized exactly when some
    line of it starts with a [solve] signature written in lower case (the
    search is case-sensitive): [generate_plan] passes such a reply on and
    replaces any other reply by a [FINAL_ANSWER] literal, and the loop
    hands a recognized plan to the sandbox, while a plan that is not
    recognized is not executed, costs one lifeline and leaves the rest of
    the state alone, the loop going on with the same step. *)
Theorem plan_classification_is_case_sensitive
    (E : Loop.Collaborators) (engine : Heuristics.HeuristicEngine)
    (step : nat) (lifelines : Z) (c : Context.AgentContext) (k : Loop.Calls)
    (t : string) (ts : list string) :
  Loop.perceive E engine step (c, k) = t :: ts ->
  (forall text, Regex.is_solve_plan text = true <-> Regex.has_solve_signature text) /\
  (forall gen req reply,
     gen req = Some reply ->
     (Regex.has_solve_signature (Decision.unfence (PyStr.strip reply)) ->
      Decision.generate_plan gen req = Decision.unfence (PyStr.strip reply)) /\
     (~ Regex.has_solve_signature (Decision.unfence (PyStr.strip reply)) ->
      Decision.generate_plan gen req
      = "FINAL_ANSWER: [Could not generate valid solve()]")) /\
  (Regex.has_solve_signature (Loop.make_plan E step (c, k) (t :: ts)) ->
   Loop.attempt E engine step lifelines (c, k)
   = Loop.execute E engine step (Loop.make_plan E step (c, k) (t :: ts)) lifelines
       (c, Loop.after_planning (Loop.after_perception k)) /\
   Loop.sandbox_calls (snd (snd (Loop.attempt E engine step lifelines (c, k))))
   = S (Loop.sandbox_calls k)) /\
  (~ Regex.has_solve_signature (Loop.make_plan E step (c, k) (t :: ts)) ->
   Loop.attempt E engine step lifelines (c, k)
   = (Loop.Continue, (lifelines - 1)%Z,
      (c, Loop.after_planning (Loop.after_perception k))) /\
   Loop.sandbox_calls (Loop.after_planning (Loop.after_perception k))
   = Loop.sandbox_calls k /\
   forall fuel,
     (0 <= lifelines)%Z ->
     Loop.lifeline_loop (S fuel) E engine step lifelines (c, k)
     = Loop.lifeline_loop fuel E engine step (lifelines - 1)
         (c, Loop.after_planning (Loop.after_perception k))).
Proof.
  intros Hp. split; [exact is_solve_plan_spec|]. split; [|split].
  - intros gen req reply Hg. unfold Decision.generate_plan. rewrite Hg.
    split; intros H.
    + apply is_solve_plan_spec in H. now rewrite H.
    + destruct (Regex.is_solve_plan (Decision.unfence (PyStr.strip reply))) eqn:B;
        [|reflexivity].
      apply is_solve_plan_spec in B. contradiction.
  - intros H. apply is_solve_plan_spec in H.
    assert (A : Loop.attempt E engine step lifelines (c, k)
                = Loop.execute E engine step
                    (Loop.make_plan E step (c, k) (t :: ts)) lifelines
                    (c, Loop.after_planning (Loop.after_perception k))).
    { unfold Loop.attempt. now rewrite Hp, H. }
    split; [exact A|]. rewrite A, execute_calls. reflexivity.
  - intros H.
    assert (B : Regex.is_solve_plan (Loop.make_plan E step (c, k) (t :: ts)) = false).
    { destruct (Regex.is_solve_plan _) eqn:B; [|reflexivity].
      apply is_solve_plan_spec in B. contradiction. }
    assert (A : Loop.attempt E engine step lifelines (c, k)
                = (Loop.Continue, (lifelines - 1)%Z,
                   (c, Loop.after_planning (Loop.after_perception k)))).
    { unfold Loop.attempt. now rewrite Hp, B. }
    split; [exact A|]. split; [reflexivity|].
    intros fuel Hl. cbn [Loop.lifeline_loop].
    destruct (Z.leb_spec 0 lifelines); [|lia]. now rewrite A.
Qed.

(** A pass of C3 with a planner whose reply carries no signature. *)
Lemma plan_classification_is_case_sensitive_witness :
  Loop.attempt (Scenarios.planner (Some "I cannot help with that."))
    Scenarios.no_heuristics 0 2 (Scenarios.task 3 2, Loop.no_calls)
  = (Loop.Continue, 1%Z,
     (Scenarios.task 3 2,
      Loop.after_planning (Loop.after_perception Loop.no_calls))).
Proof.
  pose proof (plan_classification_is_case_sensitive
                (Scenarios.planner (Some "I cannot help with that."))
                Scenarios.no_heuristics 0 2%Z (Scenarios.task 3 2) Loop.no_calls
                "search" [] eq_refl) as (Hspec & _ & _ & Hno).
  apply Hno. intros H. apply Hspec in H. discriminate H.
Defined.

(** C3 as stated fails: a reply in capitals matches the signature when
    letter case is ignored, and is still rejected, by [generate_plan] and
    by the loop alike; the pass costs a lifeline and the sandbox is not
    called. *)
Lemma uppercase_signature_is_rejected :
  Regex.has_solve_signature_ignoring_case "DEF SOLVE(x): return 42" /\
  Regex.is_solve_plan "DEF SOLVE(x): return 42" = false /\
  Decision.generate_plan (fun _ => Some "DEF SOLVE(x): return 42")
    (Loop.plan_request (Scenarios.planner (Some "DEF SOLVE(x): return 42"))
       (Scenarios.task 3 2) ["search"] 0)
  = "FINAL_ANSWER: [Could not generate valid solve()]" /\
  Loop.attempt (Scenarios.planner (Some "DEF SOLVE(x): return 42"))
    Scenarios.no_heuristics 0 2 (Scenarios.task 3 2, Loop.no_calls)
  = (Loop.Continue, 1%Z,
     (Scenarios.task 3 2,
      {| Loop.perception_calls := 1; Loop.plan_calls := 1;
         Loop.sandbox_calls := 0 |})).
Proof.
  split.
  - unfold Regex.has_solve_signature_ignoring_case.
    apply is_solve_plan_spec. vm_compute. reflexivity.
  - repeat split; vm_compute; reflexivity.
Qed.

(** C4, as the code has it.  The prefixes are looked for in the stripped
    text.  When the stripped text starts with none of them, the pass
    records ["FINAL_ANSWER: "] followed by the stripped text as the final
    answer; it returns that answer at once, with no lifeline spent, when
    the text does not contain [FURTHER_PROCESSING_REQUIRED:] anywhere, and
    otherwise spends a lifeline and goes on with the step. *)
Theorem plain_result_is_final_answer
    (E : Loop.Collaborators) (engine : Heuristics.HeuristicEngine)
    (step : nat) (lifelines : Z) (c : Context.AgentContext) (k : Loop.Calls)
    (t : string) (ts : list string) (raw : string) :
  Loop.perceive E engine step (c, k) = t :: ts ->
  Regex.is_solve_plan (Loop.make_plan E step (c, k) (t :: ts)) = true ->
  Loop.run_python_sandbox E (Loop.sandbox_calls k)
    (Loop.make_plan E step (c, k) (t :: ts)) = Loop.RStr raw ->
  PyStr.startswith "FINAL_ANSWER:" (PyStr.strip raw) = false ->
  PyStr.startswith "FURTHER_PROCESSING_REQUIRED:" (PyStr.strip raw) = false ->
  PyStr.startswith "[sandbox error:" (PyStr.strip raw) = false ->
  exists c' k',
    Context.final_answer c' = Some ("FINAL_ANSWER: " ++ PyStr.strip raw) /\
    (PyStr.contains "FURTHER_PROCESSING_REQUIRED:" (PyStr.strip raw) = false ->
     Loop.attempt E engine step lifelines (c, k)
     = (Loop.Return ("FINAL_ANSWER: " ++ PyStr.strip raw), lifelines, (c', k'))) /\
    (PyStr.contains "FURTHER_PROCESSING_REQUIRED:" (PyStr.strip raw) = true ->
     Loop.attempt E engine step lifelines (c, k)
     = (Loop.Continue, (lifelines - 1)%Z, (c', k'))).
Proof.
  intros Hp Hplan Hsb H1 H2 H3.
  pose proof (execute_plain E engine step _ lifelines c
                (Loop.after_planning (Loop.after_perception k)) raw Hsb H1 H2 H3) as X.
  cbn zeta in X. unfold Loop.FURTHER_PROCESSING_REQUIRED in X.
  exists (Context.add_tool_output
            (Loop.sandbox_output (Loop.make_plan E step (c, k) (t :: ts))
               (PyStr.strip raw) true)
            (Context.update_subtask_status "solve_sandbox" "success"
               (Context.set_final_answer ("FINAL_ANSWER: " ++ PyStr.strip raw)
                  (Context.log_subtask "solve_sandbox" "pending" c)))),
         (Loop.after_sandbox (Loop.after_planning (Loop.after_perception k))).
  split; [|split].
  - reflexivity.
  - intros H. unfold Loop.attempt. rewrite Hp, Hplan, X, H. reflexivity.
  - intros H. unfold Loop.attempt. rewrite Hp, Hplan, X, H. reflexivity.
Qed.

(** A pass of C4: the sandbox prints a bare number. *)
Lemma plain_result_is_final_answer_witness :
  exists c' k',
    Context.final_answer c' = Some "FINAL_ANSWER: 42" /\
    Loop.attempt (Scenarios.scripted [] (Loop.RStr " 42 "))
      Scenarios.no_heuristics 0 2 (Scenarios.task 3 2, Loop.no_calls)
    = (Loop.Return "FINAL_ANSWER: 42", 2%Z, (c', k')).
Proof.
  destruct (plain_result_is_final_answer
              (Scenarios.scripted [] (Loop.RStr " 42 "))
              Scenarios.no_heuristics 0 2%Z (Scenarios.task 3 2) Loop.no_calls
              "search" [] " 42 " eq_refl eq_refl eq_refl eq_refl eq_refl eq_refl)
    as (c' & k' & F & R & _).
  exists c', k'. split; [exact F | exact (R eq_refl)].
Defined.

(** C4 as stated fails.  A text that starts with none of the three
    prefixes but mentions [FURTHER_PROCESSING_REQUIRED:] further on is
    recorded and then retried at the cost of a lifeline; and a text whose
    prefix comes after leading blanks is classified by that prefix. *)
Lemma plain_result_can_cost_a_lifeline :
  PyStr.startswith "FINAL_ANSWER:" "partial FURTHER_PROCESSING_REQUIRED: more" = false /\
  PyStr.startswith "FURTHER_PROCESSING_REQUIRED:"
    "partial FURTHER_PROCESSING_REQUIRED: more" = false /\
  PyStr.startswith "[sandbox error:" "partial FURTHER_PROCESSING_REQUIRED: more" = false /\
  fst (Loop.attempt
         (Scenarios.scripted [] (Loop.RStr "partial FURTHER_PROCESSING_REQUIRED: more"))
         Scenarios.no_heuristics 0 2 (Scenarios.task 3 2, Loop.no_calls))
  = (Loop.Continue, 1%Z) /\
  PyStr.startswith "FINAL_ANSWER:" "  [sandbox error: boom]" = false /\
  PyStr.startswith "FURTHER_PROCESSING_REQUIRED:" "  [sandbox error: boom]" = false /\
  PyStr.startswith "[sandbox error:" "  [sandbox error: boom]" = false /\
  fst (Loop.attempt (Scenarios.scripted [] (Loop.RStr "  [sandbox error: boom]"))
         Scenarios.no_heuristics 0 2 (Scenarios.task 3 2, Loop.no_calls))
  = (Loop.Continue, 1%Z) /\
  Context.final_answer
    (fst (snd (Loop.attempt (Scenarios.scripted [] (Loop.RStr "  [sandbox error: boom]"))
                 Scenarios.no_heuristics 0 2 (Scenarios.task 3 2, Loop.no_calls))))
  = Some "FINAL_ANSWER: [Execution failed]".
Proof. repeat split; vm_compute; reflexivity. Qed.

(** C9, as the code has it.  When the model call raises, [generate_plan]
    returns the literal ["FINAL_ANSWER: [unknown]"]; the loop finds no
    [solve] signature in it, so the pass executes and records nothing and
    costs one lifeline; and a run in which every model call raises ends
    with ["FINAL_ANSWER: [Max steps reached]"] as its result and as the
    recorded final answer. *)
Theorem planning_failure_is_retried
    (E : Loop.Collaborators) (engine : Heuristics.HeuristicEngine) :
  (forall gen req,
     gen req = None ->
     Decision.generate_plan gen req = "FINAL_ANSWER: [unknown]") /\
  (forall step lifelines c k t ts,
     Loop.perceive E engine step (c, k) = t :: ts ->
     Loop.generate_text E (Loop.plan_calls k)
       (Loop.plan_request E c (t :: ts) step) = None ->
     Loop.attempt E engine step lifelines (c, k)
     = (Loop.Continue, (lifelines - 1)%Z,
        (c, Loop.after_planning (Loop.after_perception k)))) /\
  (forall c,
     (forall n req, Loop.generate_text E n req = None) ->
     fst (Loop.run E engine c) = "FINAL_ANSWER: [Max steps reached]" /\
     Context.final_answer (fst (snd (Loop.run E engine c)))
     = Some "FINAL_ANSWER: [Max steps reached]" /\
     Context.task_progress (fst (snd (Loop.run E engine c))) = Context.task_progress c).
Proof.
  split; [|split].
  - intros gen req H. unfold Decision.generate_plan. now rewrite H.
  - intros step lifelines c k t ts. apply attempt_planner_raises.
  - intros c H. unfold Loop.run.
    destruct (step_loop_planner_raises E engine H
                (seq 0 (Z.to_nat (Context.max_steps (Context.strategy c))))
                c Loop.no_calls) as (c' & k' & -> & Ht & _).
    repeat split. exact Ht.
Qed.

(** A run of C9 with a model that raises at every call. *)
Lemma planning_failure_is_retried_witness :
  fst (Loop.run (Scenarios.planner None) Scenarios.sample_engine (Scenarios.task 3 2))
  = "FINAL_ANSWER: [Max steps reached]".
Proof.
  destruct (planning_failure_is_retried (Scenarios.planner None)
              Scenarios.sample_engine) as (_ & _ & R).
  destruct (R (Scenarios.task 3 2) (fun _ _ => eq_refl)) as (Hr & _).
  exact Hr.
Defined.

(** C9 as stated fails: with a model that raises at every call
    [generate_plan] does return ["FINAL_ANSWER: [unknown]"], but the run
    ends with the max-steps literal, after two passes in each of its two
    steps and no sandbox call. *)
Lemma unknown_answer_is_not_terminal :
  Decision.generate_plan (fun _ => None)
    (Loop.plan_request (Scenarios.planner None) (Scenarios.task 2 1) ["search"] 0)
  = "FINAL_ANSWER: [unknown]" /\
  fst (Loop.run (Scenarios.planner None) Scenarios.no_heuristics (Scenarios.task 2 1))
  = "FINAL_ANSWER: [Max steps reached]" /\
  Context.final_answer
    (fst (snd (Loop.run (Scenarios.planner None) Scenarios.no_heuristics
                 (Scenarios.task 2 1))))
  = Some "FINAL_ANSWER: [Max steps reached]" /\
  snd (snd (Loop.run (Scenarios.planner None) Scenarios.no_heuristics
              (Scenarios.task 2 1)))
  = {| Loop.perception_calls := 4; Loop.plan_calls := 4; Loop.sandbox_calls := 0 |}.
Proof. repeat split; vm_compute; reflexivity. Qed.

(** ** The configuration loader *)

Section LoaderFacts.

Import Loader.

Variable accepts : HeuristicClass -> list (string * yaml) -> bool.



End LoaderFacts.




(** ** History retrieval *)

Section SortFacts.

Import History.

Variable v : list Q.
Variable le : nat -> nat -> bool.

Let before (i j : nat) : Prop := (nth i v 0 <= nth j v 0)%Q.

Hypothesis le_sound : forall i j, le i j = true -> before i j.
Hypothesis le_total : forall i j, le i j = false -> before j i.

Lemma insert_by_perm i l : Permutation (insert_by le i l) (i :: l).
Proof.
  induction l as [|j l IH]; simpl; [reflexivity|].
  destruct (le i j); [reflexivity|].
  rewrite IH. apply perm_swap.
Qed.

Lemma isort_by_perm l : Permutation (isort_by le l) l.
Proof.
  induction l as [|i l IH]; simpl; [reflexivity|].
  rewrite insert_by_perm. now constructor.
Qed.

Lemma insert_by_sorted i l :
  StronglySorted before l -> StronglySorted before (insert_by le i l).
Proof.
  induction 1 as [|j l Hs IH Hj]; simpl.
  - repeat constructor.
  - destruct (le i j) eqn:L.
    + constructor; [now constructor|].
      apply le_sound in L. constructor; [exact L|].
      eapply Forall_impl; [|exact Hj].
      intros x Hx. unfold before in *. lra.
    + constructor; [exact IH|].
      apply le_total in L.
      eapply Permutation_Forall; [symmetry; apply insert_by_perm|].
      now constructor.
Qed.

Lemma isort_by_sorted l : StronglySorted before (isort_by le l).
Proof.
  induction l as [|i l IH]; simpl; [constructor | now apply insert_by_sorted].
Qed.

End SortFacts.

Section TieOrders.

Import History.

Variable v : list Q.

Lemma le_ascending_ties_sound i j :
  le_ascending_ties v i j = true -> (nth i v 0 <= nth j v 0)%Q.
Proof.
  unfold le_ascending_ties, value_le.
  destruct (Qeq_bool _ _) eqn:Eq.
  - intros _. apply Qeq_bool_iff in Eq. lra.
  - apply Qle_bool_iff.
Qed.

Lemma le_ascending_ties_total i j :
  le_ascending_ties v i j = false -> (nth j v 0 <= nth i v 0)%Q.
Proof.
  unfold le_ascending_ties, value_le.
  destruct (Qeq_bool _ _) eqn:Eq.
  - intros _. apply Qeq_bool_iff in Eq. lra.
  - intros H. destruct (Qlt_le_dec (nth j v 0%Q) (nth i v 0%Q)) as [L|L]; [lra|].
    apply Qle_bool_iff in L. congruence.
Qed.



End TieOrders.

(** Both insertion sorts meet the interface of [np.argsort]. *)
Definition stable_sorter : History.ArgSort :=
  {| History.argsort := History.argsort_stable;
     History.argsort_perm := fun v =>
       isort_by_perm (History.le_ascending_ties v) (seq 0 (length v));
     History.argsort_sorted := fun v =>
       isort_by_sorted v (History.le_ascending_ties v)
         (le_ascending_ties_sound v) (le_ascending_ties_total v)
         (seq 0 (length v)) |}.


Lemma StronglySorted_app_inv {A : Type} (R : A -> A -> Prop) (l1 l2 : list A) :
  StronglySorted R (l1 ++ l2) ->
  StronglySorted R l1 /\ forall x y, In x l1 -> In y l2 -> R x y.
Proof.
  induction l1 as [|a l1 IH]; simpl; intros H.
  - split; [constructor | intros x y []].
  - inversion H as [|? ? Hs Ha]; subst.
    destruct (IH Hs) as [Hs1 Hcross]. split.
    + constructor; [exact Hs1|].
      rewrite Forall_forall in *. intros x Hx. apply Ha, in_or_app. now left.
    + intros x y [<-|Hx] Hy.
      * rewrite Forall_forall in Ha. apply Ha, in_or_app. now right.
      * now apply Hcross.
Qed.

Section RetrieveFacts.

Import History.

Context {sorter : ArgSort}.
Variable record : Type.
Variable simple_embed : string -> vec.
Variable inner : vec -> vec -> Q.
Variable json_loads : string -> option record.

Lemma slice_to_is_firstn {A : Type} (k : Z) (l : list A) :
  exists n, slice_to k l = firstn n l /\ ((0 <= k)%Z -> n = Z.to_nat k).
Proof.
  unfold slice_to. destruct (Z.leb_spec 0 k).
  - exists (Z.to_nat k). auto.
  - exists (length l - Z.to_nat (- k)). split; [reflexivity | lia].
Qed.


Lemma nth_map_opp (l : list Q) i : nth i (map Qopp l) 0%Q = Qopp (nth i l 0%Q).
Proof. change 0%Q with (Qopp 0) at 1. apply map_nth. Qed.

(** The positions the brute-force path ranks: distinct rows of the index,
    listed by non-increasing similarity, and no row left out is more
    similar than a row listed. *)
Lemma brute_force_idxs_ranked r q top_k :
  NoDup (brute_force_idxs inner r q top_k) /\
  Forall (fun i => i < length (X r)) (brute_force_idxs inner r q top_k) /\
  ((0 <= top_k)%Z ->
   length (brute_force_idxs inner r q top_k) = min (Z.to_nat top_k) (length (X r))) /\
  StronglySorted
    (fun i j => (nth j (sims inner r q) 0 <= nth i (sims inner r q) 0)%Q)
    (brute_force_idxs inner r q top_k) /\
  (forall i j,
     In i (brute_force_idxs inner r q top_k) ->
     j < length (X r) ->
     ~ In j (brute_force_idxs inner r q top_k) ->
     (nth j (sims inner r q) 0 <= nth i (sims inner r q) 0)%Q).
Proof.
  unfold brute_force_idxs.
  set (v := map Qopp (sims inner r q)).
  assert (Hlen : length v = length (X r)).
  { unfold v, sims. now rewrite !length_map. }
  pose proof (argsort_perm v) as Hperm.
  pose proof (argsort_sorted v) as Hsorted.
  destruct (slice_to_is_firstn top_k (argsort v)) as (n & -> & Hn).
  rewrite <- (firstn_skipn n (argsort v)) in Hperm, Hsorted.
  apply StronglySorted_app_inv in Hsorted as [Hs Hcross].
  assert (Hnodup : NoDup (firstn n (argsort v) ++ skipn n (argsort v))).
  { eapply Permutation_NoDup; [symmetry; exact Hperm | apply seq_NoDup]. }
  assert (Hopp : forall i j,
             (nth i v 0 <= nth j v 0)%Q ->
             (nth j (sims inner r q) 0 <= nth i (sims inner r q) 0)%Q).
  { intros i j. unfold v. rewrite !nth_map_opp. intros H.
    apply Qopp_le_compat in H. now rewrite !Qopp_involutive in H. }
  repeat split.
  - now apply NoDup_app_remove_r in Hnodup.
  - apply Forall_forall. intros i Hi.
    assert (Hin : In i (seq 0 (length v))).
    { eapply Permutation_in; [exact Hperm|]. apply in_or_app. now left. }
    apply in_seq in Hin. lia.
  - intros Hk. rewrite length_firstn, (Hn Hk).
    rewrite (firstn_skipn n (argsort v)) in Hperm.
    apply Permutation_length in Hperm. rewrite length_seq in Hperm. lia.
  - clear -Hs Hopp. induction Hs as [|a l Hs IH Ha]; constructor; [exact IH|].
    eapply Forall_impl; [|exact Ha]. intros x. apply Hopp.
  - intros i j Hi Hj Hnot. apply Hopp, Hcross; [exact Hi|].
    assert (Hin : In j (firstn n (argsort v) ++ skipn n (argsort v))).
    { eapply Permutation_in; [symmetry; exact Hperm|]. apply in_seq. lia. }
    apply in_app_or in Hin as [Hin|Hin]; [contradiction | exact Hin].
Qed.

End RetrieveFacts.




(** ** More on the agent loop: what every run guarantees *)

Section LoopRuns.

Import Context Loop.

Variable E : Collaborators.
Variable engine : Heuristics.HeuristicEngine.

(** What a pass hands back when it returns: a text that starts with
    [FINAL_ANSWER:] and is the recorded final answer. *)
Definition returns_recorded_answer (out : Control * Z * State) : Prop :=
  match out with
  | (Return r, _, (c', _)) =>
      PyStr.startswith FINAL_ANSWER r = true /\ final_answer c' = Some r
  | _ => True
  end.

Lemma execute_returns_recorded_answer step plan l st :
  returns_recorded_answer (execute E engine step plan l st).
Proof.
  destruct st as [c k]. unfold execute.
  destruct (run_python_sandbox E (sandbox_calls k) plan) as [raw|repr].
  - destruct (PyStr.startswith FINAL_ANSWER (PyStr.strip raw)) eqn:F.
    + split; [exact F | reflexivity].
    + destruct (PyStr.startswith FURTHER_PROCESSING_REQUIRED (PyStr.strip raw));
        [exact I|].
      destruct (PyStr.startswith SANDBOX_ERROR (PyStr.strip raw));
        unfold finish_attempt; cbn [andb].
      * exact I.
      * destruct (negb _); [split; reflexivity | exact I].
  - unfold finish_attempt. cbn [andb]. exact I.
Qed.

Lemma attempt_returns_recorded_answer step l st :
  returns_recorded_answer (attempt E engine step l st).
Proof.
  destruct st as [c k]. unfold attempt.
  destruct (perceive E engine step (c, k)); [exact I|].
  destruct (Regex.is_solve_plan _); [|exact I].
  apply execute_returns_recorded_answer.
Qed.

Lemma lifeline_loop_returns_recorded_answer step : forall fuel l st r st',
  lifeline_loop fuel E engine step l st = (Some r, st') ->
  PyStr.startswith FINAL_ANSWER r = true /\ final_answer (fst st') = Some r.
Proof.
  induction fuel as [|fuel IH]; intros l st r st'; cbn [lifeline_loop];
    [discriminate|].
  destruct (0 <=? l)%Z; [|discriminate].
  pose proof (attempt_returns_recorded_answer step l st) as A.
  destruct (attempt E engine step l st) as [[ctl l'] [c' k']].
  destruct ctl; [| discriminate | apply IH].
  intros H. injection H as <- <-. exact A.
Qed.

Lemma step_loop_returns_recorded_answer : forall steps st,
  PyStr.startswith FINAL_ANSWER (fst (step_loop E engine steps st)) = true /\
  final_answer (fst (snd (step_loop E engine steps st)))
  = Some (fst (step_loop E engine steps st)).
Proof.
  induction steps as [|step steps IH]; intros [c k]; cbn [step_loop].
  - split; reflexivity.
  - destruct (run_step E engine step (c, k)) as [[r|] st'] eqn:R.
    + unfold run_step in R.
      apply lifeline_loop_returns_recorded_answer in R. exact R.
    + apply IH.
Qed.

End LoopRuns.

(** X1.  Whatever the collaborators do, the result of [AgentLoop.run]
    starts with [FINAL_ANSWER:] and is the final answer recorded in the
    context when the run returns. *)
Theorem run_result_is_recorded_final_answer
    (E : Loop.Collaborators) (engine : Heuristics.HeuristicEngine)
    (c : Context.AgentContext) :
  PyStr.startswith "FINAL_ANSWER:" (fst (Loop.run E engine c)) = true /\
  Context.final_answer (fst (snd (Loop.run E engine c)))
  = Some (fst (Loop.run E engine c)).
Proof. apply step_loop_returns_recorded_answer. Qed.

Section LoopBounds.

Import Context Loop.

Variable E : Collaborators.
Variable engine : Heuristics.HeuristicEngine.







End LoopBounds.


Section LoopExhaustion.

Import Context Loop.

Variable E : Collaborators.
Variable engine : Heuristics.HeuristicEngine.

Hypothesis tools_always_selected : forall n text, run_perception E n text <> [].
Hypothesis plans_never_valid : forall n req,
  Regex.is_solve_plan (Decision.generate_plan (generate_text E n) req) = false.

Lemma attempt_invalid_plan step l c k :
  attempt E engine step l (c, k)
  = (Continue, (l - 1)%Z, (c, after_planning (after_perception k))).
Proof.
  unfold attempt.
  destruct (perceive E engine step (c, k)) as [|t ts] eqn:P.
  - unfold perceive in P. now apply tools_always_selected in P.
  - unfold make_plan. now rewrite plans_never_valid.
Qed.

Lemma lifeline_loop_invalid_plans step : forall fuel l c k,
  fuel = lifeline_fuel l ->
  exists k',
    lifeline_loop fuel E engine step l (c, k) = (None, (c, k')) /\
    perception_calls k' = perception_calls k + fuel /\
    plan_calls k' = plan_calls k + fuel /\
    sandbox_calls k' = sandbox_calls k.
Proof.
  unfold lifeline_fuel.
  induction fuel as [|fuel IH]; intros l c k Hf; cbn [lifeline_loop].
  - exists k. repeat split; lia.
  - destruct (Z.leb_spec 0 l); [|lia].
    rewrite attempt_invalid_plan.
    destruct (IH (l - 1)%Z c (after_planning (after_perception k))) as (k' & -> & P & Q & R);
      [lia|].
    exists k'. cbn in P, Q, R. repeat split; lia.
Qed.

Lemma step_loop_invalid_plans : forall steps c k,
  exists c' k',
    step_loop E engine steps (c, k) = (MAX_STEPS_REACHED, (c', k')) /\
    perception_calls k'
    = perception_calls k
      + length steps * lifeline_fuel (max_lifelines_per_step (strategy c)) /\
    plan_calls k'
    = plan_calls k
      + length steps * lifeline_fuel (max_lifelines_per_step (strategy c)) /\
    sandbox_calls k' = sandbox_calls k.
Proof.
  induction steps as [|step steps IH]; intros c k; cbn [step_loop].
  - eexists _, _. split; [reflexivity|]. cbn. repeat split; lia.
  - unfold run_step.
    destruct (lifeline_loop_invalid_plans step _
                (max_lifelines_per_step (strategy (set_step step c)))
                (set_step step c) k eq_refl) as (k1 & -> & P & Q & R).
    destruct (IH (set_step step c) k1) as (c' & k' & -> & P' & Q' & R').
    exists c', k'. split; [reflexivity|].
    change (strategy (set_step step c)) with (strategy c) in *.
    cbn [length]. repeat split; lia.
Qed.

End LoopExhaustion.

(** X3.  When perception selects tools at every pass and no plan carries
    a [solve] signature, the run spends every lifeline of every step:
    it asks perception and the model exactly
    [max_steps * (max_lifelines_per_step + 1)] times, never calls the
    sandbox, and returns ["FINAL_ANSWER: [Max steps reached]"]. *)
Theorem invalid_plans_exhaust_every_step
    (E : Loop.Collaborators) (engine : Heuristics.HeuristicEngine)
    (c : Context.AgentContext) :
  (forall n text, Loop.run_perception E n text <> []) ->
  (forall n req,
     Regex.is_solve_plan (Decision.generate_plan (Loop.generate_text E n) req)
     = false) ->
  fst (Loop.run E engine c) = "FINAL_ANSWER: [Max steps reached]" /\
  Loop.perception_calls (snd (snd (Loop.run E engine c)))
  = Z.to_nat (Context.max_steps (Context.strategy c))
    * Z.to_nat (Context.max_lifelines_per_step (Context.strategy c) + 1) /\
  Loop.plan_calls (snd (snd (Loop.run E engine c)))
  = Z.to_nat (Context.max_steps (Context.strategy c))
    * Z.to_nat (Context.max_lifelines_per_step (Context.strategy c) + 1) /\
  Loop.sandbox_calls (snd (snd (Loop.run E engine c))) = 0.
Proof.
  intros Ht Hp. unfold Loop.run.
  destruct (step_loop_invalid_plans E engine Ht Hp
              (seq 0 (Z.to_nat (Context.max_steps (Context.strategy c))))
              c Loop.no_calls) as (c' & k' & -> & P & Q & R).
  rewrite length_seq in P, Q. unfold Loop.lifeline_fuel in P, Q.
  cbn [fst snd]. cbn in P, Q, R. auto.
Qed.

(** A run of X3: three steps of three passes each. *)
Lemma invalid_plans_exhaust_every_step_witness :
  fst (Loop.run (Scenarios.planner (Some "I cannot help with that."))
         Scenarios.sample_engine (Scenarios.task 3 2))
  = "FINAL_ANSWER: [Max steps reached]" /\
  Loop.plan_calls
    (snd (snd (Loop.run (Scenarios.planner (Some "I cannot help with that."))
                 Scenarios.sample_engine (Scenarios.task 3 2))))
  = 9.
Proof.
  destruct (invalid_plans_exhaust_every_step
              (Scenarios.planner (Some "I cannot help with that."))
              Scenarios.sample_engine (Scenarios.task 3 2))
    as (R & _ & Q & _).
  - intros n text. discriminate.
  - intros n req. reflexivity.
  - split; [exact R | exact Q].
Defined.

Section LoopNoTools.

Import Context Loop.

Variable E : Collaborators.
Variable engine : Heuristics.HeuristicEngine.

Hypothesis no_tool_selected : forall n text, run_perception E n text = [].



End LoopNoTools.



(** X5.  When the sandbox answers a valid plan with a text whose
    stripped form starts with [[sandbox error:], or with something that
    is not a string, the pass does not return: it spends one lifeline,
    leaves the forwarding override alone and records a provisional final
    answer, ["FINAL_ANSWER: [Execution failed]"] for the error text. *)
Theorem sandbox_failure_costs_a_lifeline
    (E : Loop.Collaborators) (engine : Heuristics.HeuristicEngine)
    (step : nat) (lifelines : Z) (c : Context.AgentContext) (k : Loop.Calls)
    (t : string) (ts : list string) :
  Loop.perceive E engine step (c, k) = t :: ts ->
  Regex.is_solve_plan (Loop.make_plan E step (c, k) (t :: ts)) = true ->
  (forall raw,
     Loop.run_python_sandbox E (Loop.sandbox_calls k)
       (Loop.make_plan E step (c, k) (t :: ts)) = Loop.RStr raw ->
     PyStr.startswith "[sandbox error:" (PyStr.strip raw) = true ->
     exists c',
       Loop.attempt E engine step lifelines (c, k)
       = (Loop.Continue, (lifelines - 1)%Z,
          (c', Loop.after_sandbox (Loop.after_planning (Loop.after_perception k)))) /\
       Context.final_answer c' = Some "FINAL_ANSWER: [Execution failed]" /\
       Context.user_input_override c' = Context.user_input_override c) /\
  (forall repr,
     Loop.run_python_sandbox E (Loop.sandbox_calls k)
       (Loop.make_plan E step (c, k) (t :: ts)) = Loop.RObj repr ->
     exists c',
       Loop.attempt E engine step lifelines (c, k)
       = (Loop.Continue, (lifelines - 1)%Z,
          (c', Loop.after_sandbox (Loop.after_planning (Loop.after_perception k)))) /\
       Context.final_answer c' = Some ("FINAL_ANSWER: " ++ repr) /\
       Context.user_input_override c' = Context.user_input_override c).
Proof.
  intros Hp Hplan. split.
  - intros raw Hs He. unfold Loop.attempt. rewrite Hp, Hplan.
    unfold Loop.execute.
    change (Loop.sandbox_calls (Loop.after_planning (Loop.after_perception k)))
      with (Loop.sandbox_calls k).
    rewrite Hs.
    pose proof He as He'. apply startswith_spec in He' as [rest Er].
    unfold Loop.FINAL_ANSWER, Loop.FURTHER_PROCESSING_REQUIRED, Loop.SANDBOX_ERROR.
    rewrite He. rewrite Er.
    replace (PyStr.startswith "FINAL_ANSWER:" ("[sandbox error:" ++ rest))
      with false by reflexivity.
    replace (PyStr.startswith "FURTHER_PROCESSING_REQUIRED:" ("[sandbox error:" ++ rest))
      with false by reflexivity.
    unfold Loop.finish_attempt. cbn [andb].
    eexists. split; [reflexivity|]. split; reflexivity.
  - intros repr Hs. unfold Loop.attempt. rewrite Hp, Hplan.
    unfold Loop.execute.
    change (Loop.sandbox_calls (Loop.after_planning (Loop.after_perception k)))
      with (Loop.sandbox_calls k).
    rewrite Hs.
    unfold Loop.finish_attempt. cbn [andb].
    eexists. split; [reflexivity|]. split; reflexivity.
Qed.

(** A pass of X5: the sandbox reports an error. *)
Lemma sandbox_failure_costs_a_lifeline_witness :
  exists c',
    Loop.attempt (Scenarios.scripted [] (Loop.RStr "[sandbox error: boom]"))
      Scenarios.no_heuristics 0 2 (Scenarios.task 3 2, Loop.no_calls)
    = (Loop.Continue, 1%Z,
       (c', Loop.after_sandbox (Loop.after_planning (Loop.after_perception Loop.no_calls))))
    /\ Context.final_answer c' = Some "FINAL_ANSWER: [Execution failed]".
Proof.
  destruct (proj1 (sandbox_failure_costs_a_lifeline
                     (Scenarios.scripted [] (Loop.RStr "[sandbox error: boom]"))
                     Scenarios.no_heuristics 0 2%Z (Scenarios.task 3 2) Loop.no_calls
                     "search" [] eq_refl eq_refl)
              "[sandbox error: boom]" eq_refl eq_refl) as (c' & A & F & _).
  exists c'. split; [exact A | exact F].
Defined.

(** ** More on planning *)

Section StripFacts.

Lemma rstrip_by_all p s :
  PyText.all_char p s = true -> PyStr.rstrip_by p s = "".
Proof.
  induction s as [|c s IH]; simpl; intros H; [reflexivity|].
  apply andb_true_iff in H as [Hc Hs]. now rewrite (IH Hs), Hc.
Qed.

(** Trailing characters of the class are stripped, whatever precedes. *)
Lemma rstrip_by_app_all p s t :
  PyText.all_char p t = true -> PyStr.rstrip_by p (s ++ t) = PyStr.rstrip_by p s.
Proof.
  intros H. induction s as [|c s IH]; simpl.
  - now apply rstrip_by_all.
  - now rewrite IH.
Qed.

(** Nothing is stripped after a last character outside the class. *)
Lemma rstrip_by_keep p s c :
  p c = false -> PyStr.rstrip_by p (s ++ String c "") = s ++ String c "".
Proof.
  intros H. induction s as [|a s IH]; simpl.
  - now rewrite H.
  - rewrite IH. now destruct (s ++ String c "") eqn:D; [destruct s; discriminate|].
Qed.

Lemma strip_idempotent_r s :
  PyStr.strip (PyStr.rstrip_by PyStr.isspace s) = PyStr.strip s.
Proof. unfold PyStr.strip. now rewrite rstrip_by_idempotent. Qed.

(** Blanks around a text do not change what [strip] gives. *)
Lemma strip_surrounded c d s :
  PyStr.isspace c = true -> PyStr.isspace d = true ->
  PyStr.strip (String c (s ++ String d "")) = PyStr.strip s.
Proof.
  intros Hc Hd. unfold PyStr.strip. cbn [PyStr.rstrip_by].
  rewrite rstrip_by_app_all by (simpl; now rewrite Hd).
  destruct (PyStr.rstrip_by PyStr.isspace s) eqn:R.
  - now rewrite Hc.
  - cbn [PyStr.lstrip_by]. now rewrite Hc.
Qed.

End StripFacts.

(** X6.  [unfence], the fence removal of [generate_plan], leaves a reply
    that does not start with three backticks as it is, and turns a reply
    fenced as a [python] block into the stripped body of the block,
    whatever the body is. *)
Theorem unfence_python_block (body : string) :
  Decision.unfence ("```python" ++ PyStr.nl ++ body ++ PyStr.nl ++ "```")
  = PyStr.strip body /\
  forall reply, PyStr.startswith "```" reply = false -> Decision.unfence reply = reply.
Proof.
  split.
  - unfold Decision.unfence.
    replace (PyStr.startswith "```" ("```python" ++ PyStr.nl ++ body ++ PyStr.nl ++ "```"))
      with true by reflexivity.
    assert (R : PyStr.strip_chars "`"
                  ("```python" ++ PyStr.nl ++ body ++ PyStr.nl ++ "```")
                = "python" ++ String PyStr.LF (body ++ PyStr.nl)).
    { unfold PyStr.strip_chars.
      replace ("```python" ++ PyStr.nl ++ body ++ PyStr.nl ++ "```")
        with ((("```python" ++ PyStr.nl ++ body) ++ PyStr.nl) ++ "```")
        by (now rewrite !append_assoc).
      rewrite rstrip_by_app_all by reflexivity.
      unfold PyStr.nl at 2. rewrite rstrip_by_keep by reflexivity.
      reflexivity. }
    rewrite R.
    rewrite strip_keeps_prefix by (reflexivity || discriminate).
    replace (PyStr.startswith "python"
               (PyStr.lower ("python" ++
                  PyStr.rstrip_by PyStr.isspace (String PyStr.LF (body ++ PyStr.nl)))))
      with true by reflexivity.
    replace (PyStr.drop (String.length "python")
               ("python" ++
                  PyStr.rstrip_by PyStr.isspace (String PyStr.LF (body ++ PyStr.nl))))
      with (PyStr.rstrip_by PyStr.isspace (String PyStr.LF (body ++ PyStr.nl)))
      by reflexivity.
    rewrite strip_idempotent_r. now apply strip_surrounded.
  - intros reply H. unfold Decision.unfence. now rewrite H.
Qed.

(** X7.  [generate_plan] returns the model's reply, stripped and
    unfenced, when some line of it starts with a [solve] signature, and
    otherwise one of its two [FINAL_ANSWER] literals; only the former
    passes the check the loop makes before it executes a plan. *)
Theorem generate_plan_output_cases
    (gen : Decision.PlanRequest -> option string) (req : Decision.PlanRequest) :
  ((exists reply,
      gen req = Some reply /\
      Regex.has_solve_signature (Decision.unfence (PyStr.strip reply)) /\
      Decision.generate_plan gen req = Decision.unfence (PyStr.strip reply)) \/
   Decision.generate_plan gen req = "FINAL_ANSWER: [Could not generate valid solve()]" \/
   Decision.generate_plan gen req = "FINAL_ANSWER: [unknown]") /\
  (Regex.is_solve_plan (Decision.generate_plan gen req) = true <->
   exists reply,
     gen req = Some reply /\
     Regex.has_solve_signature (Decision.unfence (PyStr.strip reply))).
Proof.
  unfold Decision.generate_plan.
  destruct (gen req) as [reply|].
  - destruct (Regex.is_solve_plan (Decision.unfence (PyStr.strip reply))) eqn:B.
    + pose proof B as B'. apply is_solve_plan_spec in B'. split.
      * left. exists reply. auto.
      * rewrite B. split; [intros _; exists reply; auto | reflexivity].
    + split; [right; left; reflexivity|].
      split; [discriminate|].
      intros (reply' & Er & H). injection Er as <-.
      apply is_solve_plan_spec in H. congruence.
  - split; [right; right; reflexivity|].
    split; [discriminate | intros (reply' & Er & _); discriminate].
Qed.

(** ** The built-in units *)

Section MaskFacts.

Import Impl.

Lemma starts_ci_nonempty_of_empty u : startswith_ci u "" = true -> u = "".
Proof. destruct u; [reflexivity | discriminate]. Qed.

Lemma contains_ci_empty u : contains_ci u "" = true -> u = "".
Proof. cbn. rewrite orb_false_r. apply starts_ci_nonempty_of_empty. Qed.

Lemma contains_ci_cons u c s :
  contains_ci u s = true -> contains_ci u (String c s) = true.
Proof. intros H. cbn [contains_ci]. rewrite H. apply orb_true_r. Qed.

Lemma contains_ci_starts u s :
  startswith_ci u s = true -> contains_ci u s = true.
Proof. intros H. destruct s; cbn [contains_ci]; now rewrite H. Qed.

(** A match that runs into a character unlike every character of the
    word lies before that character. *)
Lemma starts_ci_before u : forall m b rest,
  unlike b u = true ->
  startswith_ci u (m ++ String b rest) = true -> startswith_ci u m = true.
Proof.
  induction u as [|a u IH]; intros m b rest Hu H; [reflexivity|].
  cbn in Hu. apply andb_true_iff in Hu as [Ha Hu]. apply negb_true_iff in Ha.
  destruct m as [|c m]; cbn in H |- *.
  - rewrite Ha in H. discriminate.
  - apply andb_true_iff in H as [Hc H]. rewrite Hc. cbn.
    now apply (IH m b rest).
Qed.

Lemma contains_ci_past u : forall m b rest,
  u <> "" -> unlike b u = true ->
  contains_ci u m = false ->
  contains_ci u (m ++ String b rest) = true -> contains_ci u rest = true.
Proof.
  induction m as [|c m IH]; intros b rest Hne Hu Hm H.
  - cbn [append contains_ci] in H. apply orb_true_iff in H as [H|H]; [|exact H].
    destruct u as [|a u]; [congruence|].
    cbn in Hu, H. apply andb_true_iff in Hu as [Ha _].
    apply negb_true_iff in Ha. rewrite Ha in H. discriminate.
  - cbn [contains_ci] in Hm. apply orb_false_iff in Hm as [Hs Hm].
    change (String c m ++ String b rest) with (String c (m ++ String b rest)) in H.
    cbn [contains_ci] in H. apply orb_true_iff in H as [H|H].
    + apply (starts_ci_before u (String c m) b rest Hu) in H. congruence.
    + now apply (IH b rest).
Qed.

(** An occurrence of a maskable word in a text that starts with the mask
    lies after the mask. *)
Lemma contains_ci_after_mask u rest :
  maskable u = true ->
  contains_ci u (REDACTED ++ rest) = true -> contains_ci u rest = true.
Proof.
  unfold maskable. intros M H.
  apply andb_true_iff in M as [M Hin]. apply andb_true_iff in M as [M Hclose].
  apply andb_true_iff in M as [Hne Hopen].
  apply negb_true_iff in Hin.
  assert (Hu : u <> "") by (intros ->; discriminate).
  change (REDACTED ++ rest)
    with ("" ++ String "[" ("REDACTED" ++ String "]" rest)) in H.
  apply (contains_ci_past u "" "[" _ Hu Hopen) in H.
  - now apply (contains_ci_past u "REDACTED" "]" rest Hu Hclose Hin) in H.
  - destruct (contains_ci u "") eqn:C; [|reflexivity].
    apply contains_ci_empty in C. congruence.
Qed.

(** A word with no opening bracket that matches at the start of the
    substituted text matches at the start of the original text. *)
Lemma starts_ci_sub_scan w u : forall s,
  unlike "[" u = true ->
  startswith_ci u (sub_scan w REDACTED 0 s) = true -> startswith_ci u s = true.
Proof.
  induction u as [|a u IH]; intros s Hu H; [reflexivity|].
  cbn in Hu. apply andb_true_iff in Hu as [Ha Hu]. apply negb_true_iff in Ha.
  assert (Hmask : forall rest, startswith_ci (String a u) (REDACTED ++ rest) = false).
  { intros rest. cbn. now rewrite Ha. }
  destruct s as [|c s].
  - cbn [sub_scan] in H. destruct w.
    + rewrite <- (append_empty_r REDACTED) in H. now rewrite Hmask in H.
    + discriminate H.
  - cbn [sub_scan] in H.
    destruct (startswith_ci w (String c s)).
    + destruct w; now rewrite Hmask in H.
    + cbn in H |- *. apply andb_true_iff in H as [Hc H]. rewrite Hc. cbn.
      now apply IH.
Qed.

(** The substitution brings no maskable word into the text. *)
Lemma sub_scan_creates_nothing w u : forall s skip,
  maskable u = true ->
  contains_ci u (sub_scan w REDACTED skip s) = true -> contains_ci u s = true.
Proof.
  intros s skip M. revert skip.
  assert (Hopen : unlike "[" u = true).
  { unfold maskable in M. apply andb_true_iff in M as [M _].
    apply andb_true_iff in M as [M _]. now apply andb_true_iff in M as [_ M]. }
  assert (Hu : u <> "").
  { intros ->. discriminate M. }
  induction s as [|c s IH]; intros skip H.
  - cbn [sub_scan] in H.
    assert (C : contains_ci u "" = true).
    { destruct skip; [destruct w|]; try exact H.
      rewrite <- (append_empty_r REDACTED) in H.
      now apply contains_ci_after_mask in H. }
    apply contains_ci_empty in C. congruence.
  - assert (Kept : contains_ci u (String c (sub_scan w REDACTED 0 s)) = true ->
                   contains_ci u (String c s) = true).
    { intros K. cbn [contains_ci] in K. apply orb_true_iff in K as [K|K].
      - apply contains_ci_starts. destruct u as [|a u]; [congruence|].
        cbn in K |- *. apply andb_true_iff in K as [Kc K]. rewrite Kc. cbn.
        apply (starts_ci_sub_scan w u s); [|exact K].
        cbn in Hopen. now apply andb_true_iff in Hopen as [_ Hopen].
      - apply contains_ci_cons. now apply (IH 0). }
    cbn [sub_scan] in H. destruct skip as [|k].
    + destruct (startswith_ci w (String c s)); [|now apply Kept].
      destruct w as [|x w'].
      * apply contains_ci_after_mask in H; [|exact M]. now apply Kept.
      * apply contains_ci_after_mask in H; [|exact M].
        apply contains_ci_cons. now apply (IH (String.length w')).
    + apply contains_ci_cons. now apply (IH k).
Qed.

(** The substitution leaves no occurrence of the word it masks. *)
Lemma sub_scan_removes_word w : forall s skip,
  maskable w = true -> contains_ci w (sub_scan w REDACTED skip s) = false.
Proof.
  intros s skip M. revert skip.
  assert (Hopen : unlike "[" w = true).
  { unfold maskable in M. apply andb_true_iff in M as [M _].
    apply andb_true_iff in M as [M _]. now apply andb_true_iff in M as [_ M]. }
  destruct w as [|a w']; [discriminate M|].
  induction s as [|c s IH]; intros skip.
  - cbn [sub_scan]. now destruct skip.
  - cbn [sub_scan]. destruct skip as [|k]; [|apply IH].
    destruct (startswith_ci (String a w') (String c s)) eqn:Hm.
    + destruct (contains_ci (String a w') (REDACTED ++ _)) eqn:C; [|reflexivity].
      apply contains_ci_after_mask in C; [|exact M]. now rewrite IH in C.
    + cbn [contains_ci]. rewrite IH, orb_false_r.
      destruct (startswith_ci (String a w') (String c (sub_scan _ _ 0 s))) eqn:K;
        [|reflexivity].
      cbn in K, Hm. apply andb_true_iff in K as [Kc K]. rewrite Kc in Hm. cbn in Hm.
      apply (starts_ci_sub_scan (String a w') w' s) in K; [congruence|].
      cbn in Hopen. now apply andb_true_iff in Hopen as [_ Hopen].
Qed.

Variable text : string.

Lemma mask_words_creates_nothing u : forall banned masked found,
  maskable u = true ->
  contains_ci u (fst (mask_words banned text masked found)) = true ->
  contains_ci u masked = true.
Proof.
  induction banned as [|w banned IH]; intros masked found M H; [exact H|].
  cbn [mask_words] in H. destruct (contains_ci w text).
  - apply IH in H; [|exact M]. now apply sub_scan_creates_nothing in H.
  - now apply IH in H.
Qed.

Lemma mask_words_masks_all : forall banned masked found,
  forallb maskable banned = true ->
  (forall u, maskable u = true ->
             contains_ci u masked = true -> contains_ci u text = true) ->
  forall w, In w banned ->
            contains_ci w (fst (mask_words banned text masked found)) = false.
Proof.
  induction banned as [|w0 banned IH]; intros masked found Hall Hinv w Hin;
    [destruct Hin|].
  cbn [forallb] in Hall. apply andb_true_iff in Hall as [M0 Hall].
  cbn [mask_words]. destruct (contains_ci w0 text) eqn:F.
  - destruct Hin as [<-|Hin].
    + destruct (contains_ci w0 (fst (mask_words banned text _ _))) eqn:C;
        [|reflexivity].
      apply mask_words_creates_nothing in C; [|exact M0].
      unfold sub_ci in C. now rewrite sub_scan_removes_word in C.
    + apply IH; [exact Hall | | exact Hin].
      intros u Mu Hu. apply Hinv; [exact Mu|].
      now apply sub_scan_creates_nothing in Hu.
  - destruct Hin as [<-|Hin].
    + destruct (contains_ci w0 (fst (mask_words banned text masked found))) eqn:C;
        [|reflexivity].
      apply mask_words_creates_nothing in C; [|exact M0].
      apply Hinv in C; [congruence | exact M0].
    + now apply IH.
Qed.

Lemma mask_words_found : forall banned masked found,
  snd (mask_words banned text masked found)
  = (found ++ filter (fun w => contains_ci w text) banned)%list.
Proof.
  induction banned as [|w banned IH]; intros masked found; cbn [mask_words filter].
  - now rewrite app_nil_r.
  - destruct (contains_ci w text); [|apply IH].
    rewrite IH. now rewrite <- app_assoc.
Qed.

Lemma sub_ci_nonempty w s : s <> "" \/ w = "" -> sub_ci w s <> "".
Proof.
  unfold sub_ci. intros H. destruct s as [|c s].
  - destruct H as [H | ->]; [congruence | discriminate].
  - cbn [sub_scan]. destruct (startswith_ci w (String c s)); [|discriminate].
    destruct w; discriminate.
Qed.

Lemma mask_words_nonempty : forall banned masked found,
  (found = [] -> masked = text) -> (found <> [] -> masked <> "") ->
  snd (mask_words banned text masked found) <> [] ->
  fst (mask_words banned text masked found) <> "".
Proof.
  induction banned as [|w banned IH]; intros masked found H0 H1 Hf.
  - cbn in Hf |- *. now apply H1.
  - cbn [mask_words] in Hf |- *. destruct (contains_ci w text) eqn:F.
    + apply IH; [| |exact Hf].
      * intros E. now destruct found.
      * intros _. apply sub_ci_nonempty.
        destruct found as [|x found].
        -- rewrite (H0 eq_refl). destruct text as [|c t]; [|left; discriminate].
           right. now apply contains_ci_empty.
        -- left. apply H1. discriminate.
    + now apply IH.
Qed.

End MaskFacts.

(** X8.  [BannedWordsFilter.run] reports, as [banned_terms_found], the
    configured words that occur in the input when letter case is ignored,
    in configured order, and rewrites the input exactly when there is
    one; the rewritten text is not empty. *)
Theorem banned_words_filter_reports_found
    (repr_strs : list string -> string) (banned : list string)
    (ctx : Heuristics.HeuristicContext) :
  (filter (fun w => Impl.contains_ci w (Heuristics.user_input ctx)) banned = [] ->
   Impl.banned_words_filter repr_strs banned ctx = Impl.unchanged) /\
  (filter (fun w => Impl.contains_ci w (Heuristics.user_input ctx)) banned <> [] ->
   exists masked,
     masked <> "" /\
     Impl.banned_words_filter repr_strs banned ctx
     = {| Impl.modified_input := Some masked;
          Impl.notes :=
            Some ("banned_terms_masked: " ++
                  repr_strs (filter (fun w => Impl.contains_ci w (Heuristics.user_input ctx))
                               banned));
          Impl.flags :=
            [("banned_terms_found",
              Impl.FStrs (filter (fun w => Impl.contains_ci w (Heuristics.user_input ctx))
                            banned))];
          Impl.severity := "warn" |}).
Proof.
  unfold Impl.banned_words_filter.
  pose proof (mask_words_found (Heuristics.user_input ctx) banned
                (Heuristics.user_input ctx) []) as Hf.
  pose proof (mask_words_nonempty (Heuristics.user_input ctx) banned
                (Heuristics.user_input ctx) [] (fun _ => eq_refl)
                (fun H => False_ind _ (H eq_refl))) as Hn.
  destruct (Impl.mask_words banned _ _ []) as [masked found].
  cbn [fst snd app] in Hf, Hn. subst found. split.
  - intros ->. reflexivity.
  - intros Hne. exists masked. split; [now apply Hn|].
    destruct (filter _ banned); [congruence | reflexivity].
Qed.

(** X9.  When every configured word is maskable (not empty, without a
    square bracket, not a part of the word REDACTED), the text
    [BannedWordsFilter.run] rewrites to contains no configured word,
    letter case ignored.  The three default words are maskable. *)
Theorem banned_words_filter_masks_all
    (repr_strs : list string -> string) (banned : list string)
    (ctx : Heuristics.HeuristicContext) (masked : string) :
  forallb Impl.maskable banned = true ->
  Impl.modified_input (Impl.banned_words_filter repr_strs banned ctx) = Some masked ->
  forallb (fun w => negb (Impl.contains_ci w masked)) banned = true /\
  forallb Impl.maskable Impl.default_banned = true.
Proof.
  intros Hall Hm. split; [|reflexivity].
  unfold Impl.banned_words_filter in Hm.
  pose proof (mask_words_masks_all (Heuristics.user_input ctx) banned
                (Heuristics.user_input ctx) [] Hall (fun _ _ H => H)) as Hnone.
  destruct (Impl.mask_words banned _ _ []) as [m found].
  cbn [fst] in Hnone.
  destruct found; [discriminate Hm|]. injection Hm as ->.
  apply forallb_forall. intros w Hin. now rewrite (Hnone w Hin).
Qed.

(** A query of X9 with two of the default words, in capitals. *)
Lemma banned_words_filter_masks_all_witness :
  forallb (fun w => negb (Impl.contains_ci w "reset my [REDACTED] and [REDACTED]"))
    Impl.default_banned = true.
Proof.
  exact (proj1 (banned_words_filter_masks_all Samples.show_strs Impl.default_banned
                  (Samples.query "reset my APIKEY and Token")
                  "reset my [REDACTED] and [REDACTED]" eq_refl eq_refl)).
Defined.

Section UnitFacts.

Import Impl.

Lemma take_length n : forall s, String.length (take n s) = min n (String.length s).
Proof.
  induction n as [|n IH]; intros s; [reflexivity|].
  destruct s as [|c s]; [reflexivity|]. cbn. now rewrite IH.
Qed.

Lemma take_drop n : forall s, s = take n s ++ PyStr.drop n s.
Proof.
  induction n as [|n IH]; intros s; [reflexivity|].
  destruct s as [|c s]; [reflexivity|]. cbn. now rewrite <- IH.
Qed.

Lemma length_zero_empty s : String.length s = 0 -> s = "".
Proof. destruct s; [reflexivity | discriminate]. Qed.

Lemma count_words_app a : forall inside c b,
  isword c = false ->
  count_words inside (a ++ String c b)
  = count_words inside a + count_words false b.
Proof.
  induction a as [|x a IH]; intros inside c b Hc; cbn.
  - now rewrite Hc.
  - destruct (isword x); rewrite IH by exact Hc; lia.
Qed.

Lemma ascii_letter_not_colon a : ascii_letter a = true -> Ascii.eqb a ":" = false.
Proof.
  intros H. destruct (Ascii.eqb_spec a ":") as [->|]; [discriminate H | reflexivity].
Qed.

Lemma first_drive_letter_after pre a rest :
  PyStr.no_char (Ascii.eqb ":") pre = true -> ascii_letter a = true ->
  first_drive_letter (pre ++ String a (String ":" (String BACKSLASH rest))) = Some a.
Proof.
  intros Hpre Ha. induction pre as [|c pre IH].
  - cbn. now rewrite Ha.
  - cbn [PyStr.no_char] in Hpre. apply andb_true_iff in Hpre as [_ Hpre].
    specialize (IH Hpre).
    change (String c pre ++ String a (String ":" (String BACKSLASH rest)))
      with (String c (pre ++ String a (String ":" (String BACKSLASH rest)))).
    cbn [first_drive_letter].
    destruct pre as [|d pre].
    + cbn [append] in IH |- *.
      rewrite (ascii_letter_not_colon a Ha), andb_false_r. exact IH.
    + cbn [append] in IH |- *.
      cbn [PyStr.no_char] in Hpre. apply andb_true_iff in Hpre as [Hd _].
      apply negb_true_iff in Hd. rewrite Ascii.eqb_sym in Hd.
      destruct (pre ++ _); [exact IH|].
      now rewrite Hd, andb_false_r.
Qed.

Lemma contains_longer sub more s :
  PyStr.contains (sub ++ more) s = true -> PyStr.contains sub s = true.
Proof.
  intros H. apply contains_spec in H as (a & b & ->).
  apply contains_spec. exists a, (more ++ b). now rewrite append_assoc.
Qed.

Section Defaults.

Variable repr_strs : list string -> string.
Variable json_ok : string -> bool.

Lemma banned_words_filter_rewrite banned ctx m :
  modified_input (banned_words_filter repr_strs banned ctx) = Some m -> m <> "".
Proof.
  unfold banned_words_filter.
  pose proof (mask_words_nonempty (Heuristics.user_input ctx) banned
                (Heuristics.user_input ctx) [] (fun _ => eq_refl)
                (fun H => False_ind _ (H eq_refl))) as Hn.
  destruct (mask_words banned _ _ []) as [masked found]. cbn [fst snd] in Hn.
  destruct found; [discriminate|]. intros H. injection H as <-.
  apply Hn. discriminate.
Qed.

Lemma input_validation_system_rewrite min_len max_len ctx m :
  1 <= max_len ->
  modified_input (input_validation_system min_len max_len ctx) = Some m -> m <> "".
Proof.
  intros Hmax. unfold input_validation_system.
  destruct (String.length (Heuristics.user_input ctx) <? min_len)%nat; [discriminate|].
  destruct (Nat.ltb_spec max_len (String.length (Heuristics.user_input ctx)));
    [|discriminate].
  intros Hm. injection Hm as <-. intros E.
  apply (f_equal String.length) in E. rewrite take_length in E. cbn in E. lia.
Qed.

End Defaults.

End UnitFacts.

(** X10.  [InputValidationSystem.run], for [min_len <= max_len]: an
    input shorter than [min_len] is reported as an error and not
    rewritten; an input longer than [max_len] is cut to its first
    [max_len] characters, with its length before the cut in
    [original_length], and the cut text passes the unit unchanged; any
    other input is left as it is. *)
Theorem input_validation_system_trims
    (min_len max_len : nat) (ctx : Heuristics.HeuristicContext) :
  min_len <= max_len ->
  (String.length (Heuristics.user_input ctx) < min_len ->
   Impl.input_validation_system min_len max_len ctx
   = {| Impl.modified_input := None; Impl.notes := Some "input_too_short";
        Impl.flags := []; Impl.severity := "error" |}) /\
  (max_len < String.length (Heuristics.user_input ctx) ->
   exists trimmed rest,
     Heuristics.user_input ctx = trimmed ++ rest /\
     String.length trimmed = max_len /\
     Impl.input_validation_system min_len max_len ctx
     = {| Impl.modified_input := Some trimmed; Impl.notes := Some "input_trimmed";
          Impl.flags :=
            [("original_length",
              Impl.FInt (String.length (Heuristics.user_input ctx)))];
          Impl.severity := "warn" |} /\
     Impl.input_validation_system min_len max_len
       {| Heuristics.user_input := trimmed;
          Heuristics.interim_result := Heuristics.interim_result ctx;
          Heuristics.metadata := Heuristics.metadata ctx |}
     = Impl.unchanged) /\
  (min_len <= String.length (Heuristics.user_input ctx) <= max_len ->
   Impl.input_validation_system min_len max_len ctx = Impl.unchanged).
Proof.
  intros Hmm. unfold Impl.input_validation_system. split; [|split].
  - intros H. destruct (Nat.ltb_spec (String.length (Heuristics.user_input ctx)) min_len);
      [reflexivity | lia].
  - intros H.
    exists (Impl.take max_len (Heuristics.user_input ctx)),
           (PyStr.drop max_len (Heuristics.user_input ctx)).
    assert (L : String.length (Impl.take max_len (Heuristics.user_input ctx)) = max_len)
      by (rewrite take_length; lia).
    split; [apply take_drop|]. split; [exact L|]. split.
    + destruct (Nat.ltb_spec (String.length (Heuristics.user_input ctx)) min_len);
        [lia|].
      destruct (Nat.ltb_spec max_len (String.length (Heuristics.user_input ctx)));
        [reflexivity | lia].
    + cbn [Heuristics.user_input]. rewrite L.
      destruct (Nat.ltb_spec max_len min_len); [lia|].
      now rewrite Nat.ltb_irrefl.
  - intros [H1 H2].
    destruct (Nat.ltb_spec (String.length (Heuristics.user_input ctx)) min_len); [lia|].
    destruct (Nat.ltb_spec max_len (String.length (Heuristics.user_input ctx)));
      [lia | reflexivity].
Qed.

(** A query of X10: twenty-five characters against [max_len = 10]. *)
Lemma input_validation_system_trims_witness :
  exists trimmed rest,
    "abcdefghijklmnopqrstuvwxy" = trimmed ++ rest /\
    String.length trimmed = 10 /\
    Impl.input_validation_system 1 10 (Samples.query "abcdefghijklmnopqrstuvwxy")
    = {| Impl.modified_input := Some trimmed; Impl.notes := Some "input_trimmed";
         Impl.flags := [("original_length", Impl.FInt 25)];
         Impl.severity := "warn" |}.
Proof.
  destruct (proj1 (proj2 (input_validation_system_trims 1 10
                            (Samples.query "abcdefghijklmnopqrstuvwxy")
                            ltac:(lia))))
    as (trimmed & rest & E & L & R & _).
  - cbn. lia.
  - exists trimmed, rest. auto.
Defined.

(** X11.  The complexity score counts the runs of word characters: the
    score of two texts joined by a character that is not a word
    character is the sum of their scores, and a mask put between two
    texts counts as one word more. *)
Theorem complexity_score_adds_up (a b : string) :
  (forall c,
     Impl.isword c = false ->
     Impl.query_complexity_analyzer (Samples.query (a ++ String c b))
     = {| Impl.modified_input := None;
          Impl.notes :=
            Some ("complexity_score=" ++
                  Impl.str_of_nat (Impl.count_words false a + Impl.count_words false b));
          Impl.flags :=
            [("complexity_score",
              Impl.FInt (Impl.count_words false a + Impl.count_words false b))];
          Impl.severity := "info" |}) /\
  Impl.count_words false (a ++ Impl.REDACTED ++ b)
  = Impl.count_words false a + 1 + Impl.count_words false b.
Proof.
  split.
  - intros c Hc. unfold Impl.query_complexity_analyzer. cbn [Samples.query Heuristics.user_input].
    now rewrite count_words_app.
  - change (a ++ Impl.REDACTED ++ b) with (a ++ String "[" ("REDACTED" ++ String "]" b)).
    rewrite count_words_app by reflexivity.
    rewrite (count_words_app "REDACTED" false "]" b) by reflexivity.
    replace (Impl.count_words false "REDACTED") with 1 by reflexivity.
    lia.
Qed.

(** X12.  [ToolUsageOptimizer.run] never rewrites and always reports
    severity [info]; it sets [prefer_web_tools] when the lowered text
    contains [http://] or [https://], and [prefer_document_tools] exactly
    when it contains [pdf], [doc] or [paper]: the word [document] of the
    list adds nothing. *)
Theorem tool_usage_optimizer_flags (ctx : Heuristics.HeuristicContext) :
  Impl.tool_usage_optimizer ctx
  = {| Impl.modified_input := None; Impl.notes := None;
       Impl.flags :=
         ((if PyStr.contains "http://" (PyStr.lower (Heuristics.user_input ctx))
              || PyStr.contains "https://" (PyStr.lower (Heuristics.user_input ctx))
           then [("prefer_web_tools", Impl.FBool true)] else [])
          ++
          (if PyStr.contains "pdf" (PyStr.lower (Heuristics.user_input ctx))
              || PyStr.contains "doc" (PyStr.lower (Heuristics.user_input ctx))
              || PyStr.contains "paper" (PyStr.lower (Heuristics.user_input ctx))
           then [("prefer_document_tools", Impl.FBool true)] else []))%list;
       Impl.severity := "info" |}.
Proof.
  unfold Impl.tool_usage_optimizer, Impl.any_in. cbn [existsb].
  rewrite orb_false_r.
  destruct (PyStr.contains "document" (PyStr.lower (Heuristics.user_input ctx))) eqn:D.
  - apply (contains_longer "doc" "ument") in D. rewrite D.
    now rewrite !orb_true_r.
  - now rewrite orb_false_l, orb_assoc.
Qed.

(** X13.  [InvalidFileDetector.run] looks at the first drive path only:
    when a letter followed by a colon and a backslash comes after a text
    without any colon, the verdict depends on that letter alone, whatever
    follows. *)
Theorem invalid_file_detector_reads_first_drive
    (pre : string) (a : ascii) (rest : string) :
  PyStr.no_char (Ascii.eqb ":") pre = true ->
  Impl.ascii_letter a = true ->
  Impl.invalid_file_detector
    (Samples.query (pre ++ String a (String ":" (String Impl.BACKSLASH rest))))
  = if PyStr.mem_char (PyStr.lower_char a) "cdefghijklmno"
    then Impl.unchanged
    else {| Impl.modified_input := None;
            Impl.notes := Some "Suspicious drive letter detected in query";
            Impl.flags := [("suspicious_path", Impl.FBool true)];
            Impl.severity := "info" |}.
Proof.
  intros Hpre Ha. unfold Impl.invalid_file_detector.
  cbn [Samples.query Heuristics.user_input].
  rewrite (first_drive_letter_after pre a rest Hpre Ha).
  now destruct (PyStr.mem_char _ _).
Qed.

(** A query of X13: the supported drive comes first, so the second drive
    is never looked at. *)
Lemma invalid_file_detector_reads_first_drive_witness :
  Impl.invalid_file_detector
    (Samples.query
       ("copy " ++ String "C" (String ":" (String Impl.BACKSLASH
          ("a.txt to Z:" ++ String Impl.BACKSLASH "b.txt")))))
  = Impl.unchanged.
Proof.
  exact (invalid_file_detector_reads_first_drive "copy " "C"
           ("a.txt to Z:" ++ String Impl.BACKSLASH "b.txt") eq_refl eq_refl).
Defined.

(** X14.  Every result of the ten default units, on every context, has a
    severity among [none], [info], [warn] and [error], and a
    [modified_input] that is not empty when it is set. *)
Theorem default_units_results_well_formed
    (repr_strs : list string -> string) (json_ok : string -> bool)
    (run : Heuristics.HeuristicContext -> Impl.Result)
    (ctx : Heuristics.HeuristicContext) :
  In run (Impl.default_runs repr_strs json_ok) ->
  In (Impl.severity (run ctx)) ["none"; "info"; "warn"; "error"] /\
  (forall m, Impl.modified_input (run ctx) = Some m -> m <> "").
Proof.
  intros Hin. cbn in Hin.
  repeat (destruct Hin as [<-|Hin]); [..|destruct Hin].
  - unfold Impl.invalid_file_detector.
    destruct (Impl.first_drive_letter _); [destruct (negb _)|];
      cbn; split; auto; discriminate.
  - split.
    + unfold Impl.input_validation_system.
      destruct (_ <? _)%nat; [cbn; auto|]. destruct (_ <? _)%nat; cbn; auto.
    + intros m. apply input_validation_system_rewrite.
      apply Nat.leb_le. reflexivity.
  - split.
    + unfold Impl.banned_words_filter.
      destruct (Impl.mask_words _ _ _ _) as [masked found].
      destruct found; cbn; auto.
    + intros m. apply banned_words_filter_rewrite.
  - cbn. split; auto; discriminate.
  - cbn. split; auto; discriminate.
  - unfold Impl.error_pattern_detector.
    destruct (Impl.interim_text ctx); [destruct (Impl.any_in _ _)|];
      cbn; split; auto; discriminate.
  - unfold Impl.response_format_validator.
    destruct (Impl.interim_text ctx); [|cbn; split; auto; discriminate].
    destruct (_ && _); [destruct (json_ok _)|]; cbn; split; auto; discriminate.
  - cbn. split; auto; discriminate.
  - unfold Impl.timeout_manager. destruct (_ <? _)%nat; cbn; split; auto; discriminate.
  - unfold Impl.query_intent_matcher.
    destruct (Impl.any_in _ _); [|destruct (Impl.any_in _ _)];
      cbn; split; auto; discriminate.
Qed.

(** A unit and a query of X14. *)
Lemma default_units_results_well_formed_witness :
  In (Impl.severity
        (Impl.banned_words_filter Samples.show_strs Impl.default_banned
           (Samples.query "reset my APIKEY and Token")))
     ["none"; "info"; "warn"; "error"].
Proof.
  refine (proj1 (default_units_results_well_formed Samples.show_strs (fun _ => true)
                   (Impl.banned_words_filter Samples.show_strs Impl.default_banned)
                   (Samples.query "reset my APIKEY and Token") _)).
  cbn. auto.
Defined.

(** ** More on the heuristics pipeline *)

Section EngineMore.

Import Heuristics.

(** The texts the results of a run carry as [modified_input], in order. *)
Definition rewrites (results : list HeuristicResult) : list string :=
  flat_map (fun r => match modified_input r with Some m => [m] | None => [] end)
           results.

Lemma last_cons_default {A : Type} (l : list A) : forall x d d',
  last (x :: l) d = last (x :: l) d'.
Proof.
  induction l as [|y l IH]; intros x d d'; [reflexivity|].
  change (last (x :: y :: l) d) with (last (y :: l) d).
  change (last (x :: y :: l) d') with (last (y :: l) d'). apply IH.
Qed.

Lemma run_units_last_rewrite ctx hs : forall cur,
  fst (run_units ctx hs cur [])
  = last (rewrites (snd (run_units ctx hs cur []))) cur.
Proof.
  induction hs as [|h hs IH]; intros cur; [reflexivity|].
  rewrite run_units_cons. cbn [fst snd]. unfold rewrites. cbn [flat_map].
  fold (rewrites (snd (run_units ctx hs
          match modified_input (run_guarded h (unit_context ctx cur)) with
          | Some m => m | None => cur end []))).
  rewrite IH.
  destruct (modified_input (run_guarded h (unit_context ctx cur))) as [m|];
    [|reflexivity].
  cbn [app]. destruct (rewrites _) as [|x l]; [reflexivity|].
  change (last (m :: x :: l) cur) with (last (x :: l) cur).
  apply last_cons_default.
Qed.

(** The loop reads [interim_result] and [metadata] of the caller's
    context, and its [user_input] only through the initial text. *)
Lemma run_units_context ctx ctx' hs : forall cur acc,
  interim_result ctx = interim_result ctx' -> metadata ctx = metadata ctx' ->
  run_units ctx hs cur acc = run_units ctx' hs cur acc.
Proof.
  induction hs as [|h hs IH]; intros cur acc Hi Hm; [reflexivity|].
  cbn [run_units]. rewrite Hi, Hm. now apply IH.
Qed.

End EngineMore.

(** X15.  The text a pipeline run returns is the [modified_input] of the
    last result that carries one, and the initial working text when no
    result carries one. *)
Theorem engine_returns_last_rewrite
    (e : Heuristics.HeuristicEngine) (ctx : Heuristics.HeuristicContext) :
  fst (Heuristics._run e ctx)
  = last (flat_map (fun r => match Heuristics.modified_input r with
                             | Some m => [m]
                             | None => []
                             end)
            (snd (Heuristics._run e ctx)))
      (Heuristics.initial_input ctx).
Proof. unfold Heuristics._run. apply run_units_last_rewrite. Qed.

(** X16.  In post-result mode the [user_input] passed to the engine is
    never read: the units see the interim result (or a rewrite of it) as
    their [user_input], and the outcome is the same whatever [user_input]
    the caller passes. *)
Theorem post_result_ignores_user_input
    (e : Heuristics.HeuristicEngine) (user_input other_input interim : string)
    (metadata : list (string * Heuristics.pyval)) :
  Heuristics.run_post_result e user_input interim metadata
  = Heuristics.run_post_result e other_input interim metadata /\
  Heuristics.working_text e
    {| Heuristics.user_input := user_input;
       Heuristics.interim_result := Some interim;
       Heuristics.metadata := metadata |} 0
  = interim.
Proof.
  split; [|reflexivity].
  unfold Heuristics.run_post_result, Heuristics._run.
  now apply run_units_context.
Qed.

(** ** More on the loader: what the entries resolve to *)

Section LoaderMore.

Import Loader LoaderSpec.

Variable accepts : HeuristicClass -> list (string * yaml) -> bool.

Lemma collect_app l1 : forall l2 acc,
  collect accepts (l1 ++ l2)%list acc =
  match collect accepts l1 acc with
  | Ok us => collect accepts l2 us
  | Raise e => Raise e
  end.
Proof.
  induction l1 as [|s l1 IH]; intros l2 acc; [reflexivity|].
  cbn [app collect]. cbv zeta.
  destruct (get s "enabled" (YBool true)) as [en|e]; [|reflexivity].
  destruct (negb (truthy en)); [apply IH|].
  destruct (get s "id" YNull) as [hid|e]; [|reflexivity].
  destruct (ID_TO_CLASS_get hid) as [[c|]|e]; [|apply IH|reflexivity].
  destruct (accepts c _); [apply IH|reflexivity].
Qed.

(** Entries that raise nothing resolve to their units, in order. *)
Lemma collect_units sections : forall acc,
  forallb entry_ok sections = true ->
  (forall u, In u (flat_map unit_of sections) -> accepts (cls u) (params u) = true) ->
  collect accepts sections acc = Ok (acc ++ flat_map unit_of sections)%list.
Proof.
  induction sections as [|section sections IH]; intros acc Hok Hacc.
  - cbn. now rewrite app_nil_r.
  - cbn [forallb] in Hok. apply andb_true_iff in Hok as [Hs Hrest].
    destruct section as [| | | | | |entries]; try discriminate Hs.
    cbn [flat_map] in Hacc |- *.
    cbn [collect get]. cbv zeta. cbn [entry_ok] in Hs.
    unfold unit_of in Hacc |- *. cbn [entry_skipped] in Hacc |- *.
    destruct (truthy (match lookup "enabled" entries with
                      | Some x => x | None => YBool true end)) eqn:En;
      cbn [negb orb] in Hs, Hacc |- *; [|now apply IH].
    destruct (lookup "id" entries) as [hid|] eqn:Hid.
    + destruct hid as [| | | |name| |]; cbn [ID_TO_CLASS_get];
        try discriminate Hs; try (now apply IH).
      destruct (class_of name ID_TO_CLASS) as [c|] eqn:Hc; [|now apply IH].
      cbn [app] in Hacc |- *.
      pose proof (Hacc (mkUnit c (override_params entries)) (or_introl eq_refl))
        as Hc'.
      cbn [cls params] in Hc'. rewrite Hc'.
      rewrite IH; [|assumption|].
      * now rewrite <- app_assoc.
      * intros u Hu. apply Hacc. now right.
    + cbn [ID_TO_CLASS_get]. now apply IH.
Qed.

Lemma collect_not_mapping section sections acc :
  (forall entries, section <> YMap entries) ->
  collect accepts (section :: sections) acc = Raise "AttributeError".
Proof.
  intros H. destruct section; try reflexivity. now destruct (H entries).
Qed.

Lemma load_sections entries :
  entries <> [] ->
  truthy (match lookup "enabled" entries with
          | Some en => en
          | None => YBool true
          end) = true ->
  load_engine_from_config accepts (Some (YMap entries)) =
  match sections_of (match lookup "pre_query" entries with
                     | Some v => v | None => YSeq [] end)
                    (match lookup "post_result" entries with
                     | Some v => v | None => YSeq [] end) with
  | Raise e => Raise e
  | Ok sections =>
      match collect accepts sections [] with
      | Raise e => Raise e
      | Ok [] => Ok default_heuristics
      | Ok (u :: us) => Ok (u :: us)
      end
  end.
Proof.
  intros Hne En. unfold load_engine_from_config. cbn [get].
  rewrite En. destruct entries; [congruence|reflexivity].
Qed.

End LoaderMore.

(** X17.  For an enabled document whose [pre_query] and [post_result]
    are lists of entries that raise nothing (each a mapping that is
    disabled or has a hashable [id]) and whose constructors accept their
    parameters, the engine gets the units of the enabled entries of known
    id: those of [pre_query] first, then those of [post_result], each
    list in configured order and each unit with every key but [id] and
    [enabled] as a parameter; the ten defaults when there is no such
    entry. *)
Theorem load_engine_resolves_entries
    (accepts : Loader.HeuristicClass -> list (string * Loader.yaml) -> bool)
    (entries : list (string * Loader.yaml)) (pre post : list Loader.yaml) :
  entries <> [] ->
  Loader.truthy (match Loader.lookup "enabled" entries with
                 | Some en => en
                 | None => Loader.YBool true
                 end) = true ->
  Loader.get (Loader.YMap entries) "pre_query" (Loader.YSeq []) = Loader.Ok (Loader.YSeq pre) ->
  Loader.get (Loader.YMap entries) "post_result" (Loader.YSeq []) = Loader.Ok (Loader.YSeq post) ->
  forallb LoaderSpec.entry_ok (pre ++ post)%list = true ->
  (forall u, In u (flat_map LoaderSpec.unit_of (pre ++ post)%list) ->
             accepts (Loader.cls u) (Loader.params u) = true) ->
  Loader.load_engine_from_config accepts (Some (Loader.YMap entries)) =
  Loader.Ok (match (flat_map LoaderSpec.unit_of pre ++ flat_map LoaderSpec.unit_of post)%list with
             | [] => Loader.default_heuristics
             | u :: us => u :: us
             end).
Proof.
  intros Hne En Hpre Hpost Hok Hacc.
  rewrite (load_sections accepts entries Hne En).
  cbn [Loader.get] in Hpre, Hpost.
  injection Hpre as Hpre. injection Hpost as Hpost. rewrite Hpre, Hpost.
  cbn [Loader.sections_of].
  rewrite (collect_units accepts _ [] Hok Hacc). cbn [app].
  rewrite flat_map_app.
  now destruct (flat_map LoaderSpec.unit_of pre ++ flat_map LoaderSpec.unit_of post)%list.
Qed.

Lemma load_engine_resolves_entries_witness :
  Loader.load_engine_from_config Scenarios.accept_all
    (Some (Loader.YMap Samples.two_stage_config))
  = Loader.Ok
      [Loader.mkUnit Loader.BannedWordsFilter [("replacement", Loader.YStr "***")];
       Loader.mkUnit Loader.ErrorPatternDetector []].
Proof.
  assert (Hne : Samples.two_stage_config <> []) by discriminate.
  exact (load_engine_resolves_entries Scenarios.accept_all Samples.two_stage_config
           _ _ Hne eq_refl eq_refl eq_refl eq_refl (fun u _ => eq_refl)).
Defined.

(** X18.  The loader has no fallback once the file has parsed.  A
    document that is truthy and not a mapping raises [AttributeError]; an
    enabled mapping whose [pre_query] key is present with no value raises
    [TypeError]; and an entry that is not a mapping raises
    [AttributeError], and a unit whose constructor rejects its parameters
    raises the validation error, also when the entries before it were
    well formed: neither the units built so far nor the defaults are
    returned. *)
Theorem load_engine_raises_on_malformed
    (accepts : Loader.HeuristicClass -> list (string * Loader.yaml) -> bool) :
  (forall data,
     Loader.truthy data = true ->
     (forall entries, data <> Loader.YMap entries) ->
     Loader.load_engine_from_config accepts (Some data) = Loader.Raise "AttributeError") /\
  (forall entries,
     Loader.truthy (match Loader.lookup "enabled" entries with
                    | Some en => en
                    | None => Loader.YBool true
                    end) = true ->
     Loader.lookup "pre_query" entries = Some Loader.YNull ->
     Loader.load_engine_from_config accepts (Some (Loader.YMap entries))
     = Loader.Raise "TypeError") /\
  (forall entries good bad rest post,
     Loader.truthy (match Loader.lookup "enabled" entries with
                    | Some en => en
                    | None => Loader.YBool true
                    end) = true ->
     Loader.lookup "pre_query" entries = Some (Loader.YSeq (good ++ bad :: rest)%list) ->
     Loader.get (Loader.YMap entries) "post_result" (Loader.YSeq [])
     = Loader.Ok (Loader.YSeq post) ->
     forallb LoaderSpec.entry_ok good = true ->
     (forall u, In u (flat_map LoaderSpec.unit_of good) ->
                accepts (Loader.cls u) (Loader.params u) = true) ->
     ((forall fields, bad <> Loader.YMap fields) ->
      Loader.load_engine_from_config accepts (Some (Loader.YMap entries))
      = Loader.Raise "AttributeError") /\
     (forall u,
        forallb LoaderSpec.entry_ok [bad] = true ->
        LoaderSpec.unit_of bad = [u] ->
        accepts (Loader.cls u) (Loader.params u) = false ->
        Loader.load_engine_from_config accepts (Some (Loader.YMap entries))
        = Loader.Raise "ValidationError")).
Proof.
  split; [|split].
  - intros data Ht Hn. unfold Loader.load_engine_from_config. rewrite Ht.
    cbn [negb]. destruct data; try reflexivity. now destruct (Hn entries).
  - intros entries En Hpre.
    assert (Hne : entries <> []) by (intros ->; discriminate Hpre).
    rewrite (load_sections accepts entries Hne En), Hpre.
    now destruct (match Loader.lookup "post_result" entries with
                  | Some v => v | None => Loader.YSeq [] end).
  - intros entries good bad rest post En Hpre Hpost Hok Hacc.
    assert (Hne : entries <> []) by (intros ->; discriminate Hpre).
    cbn [Loader.get] in Hpost. injection Hpost as Hpost.
    assert (L : Loader.load_engine_from_config accepts (Some (Loader.YMap entries)) =
                match Loader.collect accepts (bad :: rest ++ post)%list
                        (flat_map LoaderSpec.unit_of good) with
                | Loader.Raise e => Loader.Raise e
                | Loader.Ok [] => Loader.Ok Loader.default_heuristics
                | Loader.Ok (u :: us) => Loader.Ok (u :: us)
                end).
    { rewrite (load_sections accepts entries Hne En), Hpre, Hpost.
      cbn [Loader.sections_of]. rewrite <- app_assoc.
      rewrite collect_app, (collect_units accepts good [] Hok Hacc).
      reflexivity. }
    split.
    + intros Hbad. rewrite L.
      now rewrite (collect_not_mapping accepts bad _ _ Hbad).
    + intros u Hb Hu Hrej. rewrite L.
      change (bad :: rest ++ post)%list with ([bad] ++ (rest ++ post))%list.
      rewrite collect_app.
      destruct bad as [| | | | | |fields]; try discriminate Hb.
      cbn [Loader.collect Loader.get]. cbv zeta.
      unfold LoaderSpec.unit_of in Hu. cbn [Loader.entry_skipped] in Hu.
      destruct (Loader.truthy (match Loader.lookup "enabled" fields with
                               | Some x => x | None => Loader.YBool true end));
        cbn [negb orb] in Hu |- *; [|discriminate Hu].
      destruct (Loader.lookup "id" fields) as [hid|]; [|discriminate Hu].
      destruct hid as [| | | |name| |]; try discriminate Hu.
      cbn [Loader.ID_TO_CLASS_get].
      destruct (Loader.class_of name Loader.ID_TO_CLASS) as [c|];
        [|discriminate Hu].
      cbn [orb] in Hu. injection Hu as <-. cbn [Loader.cls Loader.params] in Hrej.
      now rewrite Hrej.
Qed.

(** ** The history indexer *)

Section IndexerFacts.

Import Loader Indexer IndexerSpec.

Lemma is_str_unique v a b : is_str v a = true -> is_str v b = true -> a = b.
Proof.
  destruct v; try discriminate. cbn [is_str]. intros Ha Hb.
  apply String.eqb_eq in Ha, Hb. congruence.
Qed.

Lemma last_cons {A : Type} (l : list A) (x d : A) : last (x :: l) d = last l x.
Proof.
  revert x d. induction l as [|y l IH]; intros x d; [reflexivity|].
  change (last (x :: y :: l) d) with (last (y :: l) d).
  now rewrite !IH.
Qed.

(** The loop over a transcript of records keeps the first query that is
    not falsy and the answer of the last [final_answer] record. *)
Lemma scan_mappings items : forall q a,
  forallb is_mapping items = true ->
  exists q',
    scan items q a
    = Ok (q', last (map answer_of (filter (has_type "final_answer") items)) a) /\
    (truthy q = true -> q' = q) /\
    (truthy q = false ->
     match filter truthy (map query_of (filter (has_type "run_metadata") items)) with
     | x :: _ => q' = x
     | [] => truthy q' = false
     end).
Proof.
  induction items as [|item items IH]; intros q a Hm.
  - exists q. cbn. auto.
  - cbn [forallb] in Hm. apply andb_true_iff in Hm as [Hi Hm].
    destruct item as [| | | | | |entries]; try discriminate Hi.
    cbn [scan filter has_type].
    destruct (is_str (field entries "type") "run_metadata") eqn:Hr.
    + assert (Hf : is_str (field entries "type") "final_answer" = false).
      { destruct (is_str (field entries "type") "final_answer") eqn:Hf; [|reflexivity].
        discriminate (is_str_unique _ _ _ Hr Hf). }
      rewrite Hf. cbn [map].
      destruct (truthy q) eqn:Hq; cbn [negb andb].
      * destruct (IH q a Hm) as (q' & Hs & H1 & _).
        exists q'. split; [exact Hs|].
        split; [intros _; now apply H1 | discriminate].
      * destruct (IH (py_or (field entries "user_query") (field entries "text")) a Hm)
          as (q' & Hs & H1 & H2).
        exists q'. split; [exact Hs|]. split; [discriminate|]. intros _.
        cbn [query_of filter].
        destruct (truthy (py_or (field entries "user_query") (field entries "text")))
          eqn:Hq1; [exact (H1 eq_refl) | exact (H2 eq_refl)].
    + cbn [andb].
      destruct (is_str (field entries "type") "final_answer") eqn:Hf.
      * cbn [map]. rewrite last_cons.
        destruct (IH q (py_or (field entries "final_answer") (field entries "text")) Hm)
          as (q' & Hs & H1 & H2).
        exists q'. auto.
      * destruct (IH q a Hm) as (q' & Hs & H1 & H2). exists q'. auto.
Qed.

Lemma scan_raises items : forall q a,
  forallb is_mapping items = false ->
  scan items q a = Raise "AttributeError".
Proof.
  induction items as [|item items IH]; intros q a Hm; [discriminate Hm|].
  cbn [forallb] in Hm.
  destruct item as [| | | | | |entries]; try reflexivity.
  cbn [is_mapping andb] in Hm. cbn [scan].
  destruct (_ && _); [now apply IH|].
  destruct (is_str _ _); now apply IH.
Qed.

Variable repr : yaml -> string.

Lemma transcript_pair_mappings items :
  forallb is_mapping items = true ->
  transcript_pair repr (YSeq items) = Ok (session_pair repr items).
Proof.
  intros Hm. unfold transcript_pair, session_pair. cbn [items_of].
  destruct (scan_mappings items YNull YNull Hm) as (q' & -> & _ & H2).
  specialize (H2 eq_refl). unfold first_query, last_answer.
  destruct (filter truthy (map query_of (filter (has_type "run_metadata") items)))
    as [|x l] eqn:Hq.
  - cbn [hd truthy andb]. now rewrite H2.
  - subst q'. cbn [hd]. now destruct (_ && _).
Qed.

Lemma transcript_pair_raises items :
  forallb is_mapping items = false ->
  transcript_pair repr (YSeq items) = Raise "AttributeError".
Proof.
  intros Hm. unfold transcript_pair. cbn [items_of]. now rewrite scan_raises.
Qed.

Lemma collect_qas_ok files : forall qas,
  forallb readable_ok files = true ->
  _collect_qas repr files qas = Ok (qas ++ flat_map (pairs_of repr) files)%list.
Proof.
  induction files as [|file files IH]; intros qas Hok.
  - cbn. now rewrite app_nil_r.
  - cbn [forallb] in Hok. apply andb_true_iff in Hok as [Hf Hok].
    destruct file as [data|]; [|cbn; now apply IH].
    destruct data as [| | | | |items|]; try discriminate Hf.
    cbn [readable_ok] in Hf. cbn [_collect_qas flat_map pairs_of].
    rewrite (transcript_pair_mappings items Hf).
    destruct (session_pair repr items) as [qa|].
    + rewrite IH by assumption. now rewrite <- app_assoc.
    + now apply IH.
Qed.

Lemma collect_qas_app l1 : forall l2 qas,
  _collect_qas repr (l1 ++ l2)%list qas =
  match _collect_qas repr l1 qas with
  | Ok qas' => _collect_qas repr l2 qas'
  | Raise e => Raise e
  end.
Proof.
  induction l1 as [|file l1 IH]; intros l2 qas; [reflexivity|].
  cbn [app _collect_qas]. destruct file as [data|]; [|apply IH].
  destruct (transcript_pair repr data) as [[qa|]|e]; [apply IH|apply IH|reflexivity].
Qed.

End IndexerFacts.

(** X19.  For a transcript that is a list of records, [_collect_qas]
    pairs the first query that is not falsy among the [run_metadata]
    records ([user_query], or [text] when that is falsy) with the answer
    of the LAST [final_answer] record, and emits the pair only when both
    are truthy.  So a later [final_answer] record with a falsy answer
    discards the session, whatever was answered before. *)
Theorem transcript_pairs_first_query_with_last_answer
    (repr : Loader.yaml -> string) (items : list Loader.yaml) :
  forallb Indexer.is_mapping items = true ->
  Indexer.transcript_pair repr (Loader.YSeq items)
  = Loader.Ok (IndexerSpec.session_pair repr items) /\
  (forall item,
     Indexer.has_type "final_answer" item = true ->
     Loader.truthy (Indexer.answer_of item) = false ->
     Indexer.transcript_pair repr (Loader.YSeq (items ++ [item])%list)
     = Loader.Ok None).
Proof.
  intros Hm. split; [now apply transcript_pair_mappings|].
  intros item Ht Ha.
  assert (Hi : Indexer.is_mapping item = true)
    by (destruct item; try discriminate Ht; reflexivity).
  rewrite transcript_pair_mappings
    by (rewrite forallb_app, Hm; cbn; now rewrite Hi).
  unfold IndexerSpec.session_pair, Indexer.last_answer.
  rewrite filter_app, map_app. cbn [filter]. rewrite Ht. cbn [map].
  rewrite last_last, Ha. now rewrite andb_false_r.
Qed.

Lemma transcript_pairs_first_query_with_last_answer_witness :
  Indexer.transcript_pair Samples.show_value (Loader.YSeq Samples.transcript)
  = Loader.Ok (Some ("2+2?", "4")).
Proof.
  exact (proj1 (transcript_pairs_first_query_with_last_answer
                  Samples.show_value Samples.transcript eq_refl)).
Defined.

(** X20.  [_collect_qas] over the files of the walk: files that cannot be
    read are passed over and every list of records contributes its pair,
    if it has one, in the order of the walk.  But a readable transcript
    with an item that is not a record stops the whole collection with
    [AttributeError], also after files that went through: the
    [try]/[except] covers the reading only. *)
Theorem collect_qas_skips_unreadable_only
    (repr : Loader.yaml -> string) :
  (forall files,
     forallb IndexerSpec.readable_ok files = true ->
     Indexer._collect_qas repr files []
     = Loader.Ok (flat_map (IndexerSpec.pairs_of repr) files)) /\
  (forall files items rest,
     forallb IndexerSpec.readable_ok files = true ->
     forallb Indexer.is_mapping items = false ->
     Indexer._collect_qas repr (files ++ Some (Loader.YSeq items) :: rest)%list []
     = Loader.Raise "AttributeError").
Proof.
  split.
  - intros files Hok. now rewrite (collect_qas_ok repr files [] Hok).
  - intros files items rest Hok Hbad.
    rewrite collect_qas_app, (collect_qas_ok repr files [] Hok).
    cbn [Indexer._collect_qas]. now rewrite transcript_pair_raises.
Qed.

Section EmbedFacts.

Import Indexer.

Lemma bump_total vec : forall idx,
  idx < length vec ->
  (total vec < 16777216)%N ->
  length (bump idx vec) = length vec /\ total (bump idx vec) = (total vec + 1)%N.
Proof.
  induction vec as [|x vec IH]; intros idx Hi Ht; [cbn in Hi; lia|].
  cbn [total fold_right] in Ht. fold (total vec) in Ht.
  destruct idx as [|idx].
  - cbn [bump length total fold_right]. fold (total vec). unfold f32_succ.
    destruct (N.ltb_spec x 16777216); [split; [reflexivity|lia] | lia].
  - cbn [length] in Hi.
    destruct (IH idx) as [Hl Hs]; [lia|lia|].
    cbn [bump length total fold_right]. fold (total vec) (total (bump idx vec)).
    split; lia.
Qed.

Variable hash : string -> Z.

Lemma count_tokens_total tokens : forall vec,
  length vec = 256 ->
  (total vec + N.of_nat (length tokens) <= 16777216)%N ->
  length (count_tokens hash tokens vec) = 256 /\
  total (count_tokens hash tokens vec) = (total vec + N.of_nat (length tokens))%N.
Proof.
  induction tokens as [|t tokens IH]; intros vec Hl Ht.
  - cbn [count_tokens length]. change (N.of_nat 0) with 0%N.
    split; [assumption | now rewrite N.add_0_r].
  - cbn [count_tokens]. cbn [length] in Ht.
    destruct (bump_total vec (Z.to_nat (hash t mod 256))) as [Hl' Hs'].
    + rewrite Hl. pose proof (Z.mod_pos_bound (hash t) 256 eq_refl).
      change 256 with (Z.to_nat 256%Z). lia.
    + lia.
    + destruct (IH (bump (Z.to_nat (hash t mod 256)) vec)) as [Hl2 Hs2]; [lia|lia|].
      split; [assumption|]. rewrite Hs2, Hs'. cbn [length]. lia.
Qed.

Lemma total_zeros n : total (repeat 0%N n) = 0%N.
Proof. induction n as [|n IH]; [reflexivity|]. cbn. exact IH. Qed.

End EmbedFacts.

(** X21.  The bucket counts of [simple_embed] before normalization: the
    vector always has 256 entries, and for a text of at most [2^24]
    tokens (where float32 still counts exactly) the counts add up to the
    number of tokens, whatever [hash] is: a collision merges two tokens
    in one bucket and loses none. *)
Theorem bucket_counts_add_up (hash : string -> Z) (text : string) :
  (N.of_nat (length (Indexer.split_ws EmptyString (PyStr.lower text))) <= 16777216)%N ->
  length (Indexer.bucket_counts hash text) = 256 /\
  Indexer.total (Indexer.bucket_counts hash text)
  = N.of_nat (length (Indexer.split_ws EmptyString (PyStr.lower text))).
Proof.
  intros Hn. unfold Indexer.bucket_counts.
  destruct (count_tokens_total hash
              (Indexer.split_ws EmptyString (PyStr.lower text)) (repeat 0%N 256))
    as [Hl Hs].
  - apply repeat_length.
  - rewrite total_zeros. lia.
  - split; [exact Hl|]. rewrite Hs, total_zeros. lia.
Qed.

Lemma bucket_counts_add_up_witness :
  length (Indexer.bucket_counts Samples.length_hash "To be  or not to BE") = 256 /\
  Indexer.total (Indexer.bucket_counts Samples.length_hash "To be  or not to BE")
  = 6%N.
Proof.
  apply (bucket_counts_add_up Samples.length_hash "To be  or not to BE").
  vm_compute. discriminate.
Defined.

Section BuildFacts.

Import History Indexer IndexerSpec.

Context {sorter : ArgSort}.
Variable record : Type.
Variable simple_embed : string -> vec.
Variable inner : vec -> vec -> Q.
Variable json_loads : string -> option record.
Variable json_dumps : string * string -> string.
Variable record_of : string * string -> record.

Hypothesis round_trip : forall qa, json_loads (json_dumps qa) = Some (record_of qa).

Lemma index_of_nat {A : Type} (l : list A) i :
  i < length l -> index l (Z.of_nat i) = nth_error l i.
Proof.
  intros Hi. unfold index.
  replace ((0 <=? Z.of_nat i)%Z && (Z.of_nat i <? Z.of_nat (length l))%Z) with true.
  - now rewrite Nat2Z.id.
  - symmetry. apply andb_true_iff. split; [apply Z.leb_le | apply Z.ltb_lt]; lia.
Qed.

Lemma collect_built qas idxs :
  Forall (fun i => i < length qas) idxs ->
  exists rs,
    collect record json_loads (map json_dumps qas) (map Z.of_nat idxs) = rs /\
    Forall2 (fun i r => option_map record_of (nth_error qas i) = Some r) idxs rs.
Proof.
  induction 1 as [|i idxs Hi _ IH].
  - exists []. split; [reflexivity | constructor].
  - destruct IH as (rs & Hrs & Hf).
    destruct (nth_error qas i) as [qa|] eqn:Hq;
      [|apply nth_error_None in Hq; lia].
    exists (record_of qa :: rs). split.
    + cbn [map collect]. rewrite index_of_nat by now rewrite length_map.
      rewrite nth_error_map, Hq. cbn [option_map]. now rewrite round_trip, Hrs.
    + constructor; [now rewrite Hq | exact Hf].
Qed.

End BuildFacts.

(** X22.  Build, then retrieve without the accelerated index, for a
    [top_k] that is not negative and [json.loads] undoing [json.dumps]:
    the call returns, with [min top_k n] records out of the [n] pairs
    collected, each the record of a distinct pair, listed by
    non-increasing similarity of the pair's row to the query. *)
Theorem retrieve_after_build
    {sorter : History.ArgSort} (record : Type)
    (simple_embed : string -> History.vec)
    (inner : History.vec -> History.vec -> Q)
    (json_loads : string -> option record)
    (json_dumps : string * string -> string)
    (record_of : string * string -> record)
    (qas : list (string * string)) (query : string) (top_k : Z) :
  (forall qa, json_loads (json_dumps qa) = Some (record_of qa)) ->
  (0 <= top_k)%Z ->
  exists idxs rs,
    History.retrieve record simple_embed inner json_loads
      (Indexer.build simple_embed json_dumps qas) query top_k = Some rs /\
    NoDup idxs /\
    length idxs = min (Z.to_nat top_k) (length qas) /\
    Forall2 (fun i r => option_map record_of (nth_error qas i) = Some r) idxs rs /\
    StronglySorted
      (fun i j =>
         (nth j (map (IndexerSpec.score simple_embed inner query) qas) 0
          <= nth i (map (IndexerSpec.score simple_embed inner query) qas) 0)%Q)
      idxs.
Proof.
  intros Hrt Hk.
  destruct qas as [|qa qas].
  - exists [], []. cbn. rewrite Nat.min_0_r.
    repeat split; constructor.
  - set (all := qa :: qas).
    set (r := Indexer.build simple_embed json_dumps all).
    destruct (brute_force_idxs_ranked inner r (simple_embed query) top_k)
      as (Hnd & Hin & Hlen & Hsorted & _).
    assert (HX : length (History.X r) = length all) by apply length_map.
    rewrite HX in Hin.
    destruct (collect_built record json_loads json_dumps record_of Hrt all _ Hin)
      as (rs & Hrs & Hf).
    exists (History.brute_force_idxs inner r (simple_embed query) top_k), rs.
    split; [|split; [exact Hnd|split; [|split; [exact Hf|]]]].
    + unfold History.retrieve, History.ranked_idxs. cbn. now rewrite <- Hrs.
    + rewrite <- HX. now apply Hlen.
    + assert (Hs : History.sims inner r (simple_embed query)
                   = map (IndexerSpec.score simple_embed inner query) all)
        by apply map_map.
      now rewrite <- Hs.
Qed.

Lemma retrieve_after_build_witness :
  exists idxs rs,
    History.retrieve (sorter := stable_sorter) string Samples.embed_length
      History.dot Samples.load_text
      (Indexer.build Samples.embed_length Samples.dump_pair
         [("a", "1"); ("bbb", "2"); ("cc", "3")]) "zz" 2 = Some rs /\
    NoDup idxs /\
    length idxs = min (Z.to_nat 2) 3 /\
    Forall2 (fun i r => option_map Samples.dump_pair
                          (nth_error [("a", "1"); ("bbb", "2"); ("cc", "3")] i)
                        = Some r) idxs rs /\
    StronglySorted
      (fun i j =>
         (nth j (map (IndexerSpec.score Samples.embed_length History.dot "zz")
                   [("a", "1"); ("bbb", "2"); ("cc", "3")]) 0
          <= nth i (map (IndexerSpec.score Samples.embed_length History.dot "zz")
                      [("a", "1"); ("bbb", "2"); ("cc", "3")]) 0)%Q)
      idxs.
Proof.
  apply (retrieve_after_build (sorter := stable_sorter) string
           Samples.embed_length History.dot Samples.load_text
           Samples.dump_pair Samples.dump_pair).
  - intros qa. reflexivity.
  - lia.
Defined.

(** ** The report script *)

Section ReportsFacts.

Import Reports ReportsSpec.

Lemma nonblank_cons line lines :
  nonblank (line :: lines) =
  if PyStr.truthy (PyStr.strip line) then PyStr.strip line :: nonblank lines
  else nonblank lines.
Proof. reflexivity. Qed.

(** Below the limit, the loop stops exactly when the limit is reached. *)
Lemma read_lines_firstn lines : forall limit acc,
  (Z.of_nat (length acc) < limit)%Z ->
  read_lines lines limit acc = firstn (Z.to_nat limit) (acc ++ nonblank lines)%list.
Proof.
  induction lines as [|line lines IH]; intros limit acc Hlt.
  - cbn [read_lines nonblank map filter]. rewrite app_nil_r.
    symmetry. apply firstn_all2. lia.
  - cbn [read_lines]. cbv zeta. rewrite nonblank_cons.
    destruct (PyStr.truthy (PyStr.strip line)).
    + assert (Hlen : length (acc ++ [PyStr.strip line])%list = S (length acc))
        by (rewrite length_app; cbn; lia).
      replace (acc ++ PyStr.strip line :: nonblank lines)%list
        with ((acc ++ [PyStr.strip line]) ++ nonblank lines)%list
        by now rewrite <- app_assoc.
      destruct (Z.leb_spec limit (Z.of_nat (length (acc ++ [PyStr.strip line])%list)))
        as [Hle|Hgt].
      * rewrite firstn_app.
        replace (Z.to_nat limit - length (acc ++ [PyStr.strip line])%list) with 0 by lia.
        rewrite firstn_O, app_nil_r. symmetry. apply firstn_all2. lia.
      * now apply IH.
    + destruct (Z.leb_spec limit (Z.of_nat (length acc))); [lia | now apply IH].
Qed.

End ReportsFacts.

(** X23.  [read_queries] with a limit that is not negative: the result
    is the first [limit] lines of the file that are not blank, stripped,
    in file order; when the file is missing or has only blank lines, the
    first [limit] of the three fallback queries.  A blank line neither
    counts toward the limit nor ends the reading. *)
Theorem read_queries_takes_first_nonblank (lines : list string) (limit : Z) :
  (0 <= limit)%Z ->
  Reports.read_queries (Some lines) limit
  = firstn (Z.to_nat limit)
      (match ReportsSpec.nonblank lines with
       | [] => Reports.fallback_queries
       | q :: qs => q :: qs
       end) /\
  Reports.read_queries None limit = firstn (Z.to_nat limit) Reports.fallback_queries.
Proof.
  intros H0.
  assert (Hs : forall l : list string,
             History.slice_to limit l = firstn (Z.to_nat limit) l).
  { intros l. unfold History.slice_to. destruct (Z.leb_spec 0 limit); [reflexivity|lia]. }
  unfold Reports.read_queries. split; [|apply Hs].
  rewrite Hs. destruct (Z.eq_dec limit 0) as [->|Hne]; [reflexivity|].
  rewrite read_lines_firstn by (cbn; lia). cbn [app].
  destruct (ReportsSpec.nonblank lines) as [|q qs].
  - now rewrite firstn_nil.
  - destruct (Z.to_nat limit) as [|n] eqn:Hn; [lia|].
    cbn [firstn]. f_equal. rewrite firstn_firstn. now rewrite Nat.min_id.
Qed.

Lemma read_queries_takes_first_nonblank_witness :
  Reports.read_queries (Some Samples.query_lines) 2 = ["What is 2+2?"; "Name a prime"] /\
  Reports.read_queries None 2
  = ["Compute the factorial of 15"; "List the first 12 Fibonacci numbers"].
Proof.
  apply (read_queries_takes_first_nonblank Samples.query_lines 2). lia.
Defined.

(** X24.  [read_queries] with a negative limit reads one line only: the
    test [len(queries) >= limit] holds at once, so the loop ends after
    the first line.  If that line is not blank the result is empty, while
    a blank first line (or a missing file) gives the fallback queries cut
    by the negative slice, whatever the rest of the file holds. *)
Theorem read_queries_negative_limit (line : string) (lines : list string) (limit : Z) :
  (limit < 0)%Z ->
  Reports.read_queries (Some (line :: lines)) limit
  = (if PyStr.truthy (PyStr.strip line) then []
     else firstn (3 - Z.to_nat (- limit)) Reports.fallback_queries).
Proof.
  intros Hneg. unfold Reports.read_queries. cbn [Reports.read_lines]. cbv zeta.
  destruct (PyStr.truthy (PyStr.strip line)).
  - cbn [app length].
    destruct (Z.leb_spec limit (Z.of_nat 1)); [|lia].
    unfold History.slice_to. destruct (Z.leb_spec 0 limit); [lia|].
    cbn [length]. replace (1 - Z.to_nat (- limit)) with 0 by lia. reflexivity.
  - cbn [length]. destruct (Z.leb_spec limit (Z.of_nat 0)); [|lia].
    unfold History.slice_to. destruct (Z.leb_spec 0 limit); [lia|]. reflexivity.
Qed.

Lemma read_queries_negative_limit_witness :
  Reports.read_queries (Some Samples.query_lines) (-1) = [].
Proof.
  exact (read_queries_negative_limit
           ("  What is 2+2?  " ++ PyStr.nl)
           [PyStr.nl; "Name a prime" ++ PyStr.nl; "Third"] (-1) eq_refl).
Defined.

(** ** Sample evaluations *)

(** [split] cuts at every occurrence of the separator, so the forwarded
    payload ends where the marker occurs again. *)
Example forwarded_content_two_markers :
  PyStr.split "AB" "ABxyABz" = [""; "xy"; "z"] /\
  Loop.forwarded_content
    "FURTHER_PROCESSING_REQUIRED: 7 FURTHER_PROCESSING_REQUIRED: 8" = "7".
Proof. split; reflexivity. Qed.

Example is_solve_plan_examples :
  Regex.is_solve_plan "def solve():" = true /\
  Regex.is_solve_plan ("import json" ++ PyStr.nl ++ "  async   def  solve (x)") = true /\
  Regex.is_solve_plan "x = 1; def solve()" = false /\
  Regex.is_solve_plan "DEF SOLVE(" = false /\
  Regex.is_solve_plan "asyncdef solve(" = false /\
  Decision.unfence ("```python" ++ PyStr.nl ++ "def solve(): pass" ++ PyStr.nl ++ "```")
  = "def solve(): pass" /\
  PyStr.strip "  a b  " = "a b".
Proof. repeat split; vm_compute; reflexivity. Qed.

(** The sample engine: the rewrite of the first unit is what the later
    units see, the disabled unit leaves no entry, and the raising unit
    leaves a warning. *)
Example sample_engine_run :
  Heuristics.run_pre_query Scenarios.sample_engine "abc" []
  = ("abc!",
     [ {| Heuristics.modified_input := Some "abc!"; Heuristics.notes := None;
          Heuristics.flags := []; Heuristics.severity := "info" |};
       {| Heuristics.modified_input := None;
          Heuristics.notes := Some "heuristic_error: broken: boom";
          Heuristics.flags := []; Heuristics.severity := "warn" |};
       {| Heuristics.modified_input := None; Heuristics.notes := None;
          Heuristics.flags := [("length", Heuristics.VInt 4)];
          Heuristics.severity := "info" |} ]).
Proof. reflexivity. Qed.

(** A plan producer that always ends in ["FINAL_ANSWER: 42"]: the run
    returns it after one pass. *)
Example final_answer_run :
  fst (Loop.run (Scenarios.scripted [] (Loop.RStr "FINAL_ANSWER: 42"))
         Scenarios.sample_engine (Scenarios.task 3 2))
  = "FINAL_ANSWER: 42" /\
  snd (snd (Loop.run (Scenarios.scripted [] (Loop.RStr "FINAL_ANSWER: 42"))
              Scenarios.sample_engine (Scenarios.task 3 2)))
  = {| Loop.perception_calls := 1; Loop.plan_calls := 1; Loop.sandbox_calls := 1 |}.
Proof. split; vm_compute; reflexivity. Qed.

(** The walk of [_collect_qas] on sample files: an unreadable file and an
    empty transcript leave no pair; an item that is not a record stops the
    collection; a transcript that is an empty mapping gives no pair and a
    number does not iterate. *)
Example collect_qas_samples :
  Indexer._collect_qas Samples.show_value
    [None; Some (Loader.YSeq Samples.transcript); Some (Loader.YSeq [])] []
  = Loader.Ok [("2+2?", "4")] /\
  Indexer._collect_qas Samples.show_value
    [Some (Loader.YSeq Samples.transcript); Some (Loader.YSeq [Loader.YStr "x"])] []
  = Loader.Raise "AttributeError" /\
  Indexer.transcript_pair Samples.show_value (Loader.YMap []) = Loader.Ok None /\
  Indexer.transcript_pair Samples.show_value (Loader.YInt 3) = Loader.Raise "TypeError".
Proof. repeat split; reflexivity. Qed.

(** The loader on documents that parse and are malformed. *)
Example loader_raises_samples :
  Loader.load_engine_from_config Scenarios.accept_all (Some (Loader.YSeq [Loader.YNull]))
  = Loader.Raise "AttributeError" /\
  Loader.load_engine_from_config Scenarios.accept_all
    (Some (Loader.YMap [("pre_query", Loader.YNull)]))
  = Loader.Raise "TypeError" /\
  Loader.load_engine_from_config Scenarios.accept_all
    (Some (Loader.YMap
             [("pre_query",
               Loader.YSeq [Loader.YMap [("id", Loader.YStr "timeout_manager")];
                            Loader.YStr "timeout_manager"])]))
  = Loader.Raise "AttributeError".
Proof. repeat split; reflexivity. Qed.
